(** * npm-auditor: the lock-tree filter and the installed-tree scanner

    A shallow embedding of [index.js] (DevExpress/npm-auditor) and the
    properties of its dependency-tree reconstruction.

    Definitions:
    - [Js]         : JavaScript values, plain objects as insertion-ordered
                     property lists, the lodash helpers [mapValues] and
                     [pick];
    - [Filter]     : [filterTree];
    - [Tree]       : the PackageRecord data model;
    - [Host]       : what the program consumes from Node and its libraries;
    - [Comp]       : computations with state, exceptions and a bound on the
                     depth of recursion;
    - [Scan]       : [scanInstalledDependencies] with its closures
                     [getDepPackageInfo] and [collectDepPackageInfo];
    - [Audit]      : [getNpmLockDependencies], [getAllDependencies],
                     [getAuditData];
    - [Graph]      : the resolution graph of an installed layout;
    - [Posix], [Examples] : concrete layouts;
    - [Runs], [Invariants] : what the proofs say of a scan in progress;
    - [Nodes]      : the nodes that the filter visits;
    - [Reach]      : the manifests that the project reaches;
    - [Manifests]  : what a cached object holds of its manifest;
    - [Progress]   : layouts in which nothing is missing.

    Then the lemmas, module by module, and at the end the properties of the
    specification, followed by further properties of the same functions. *)

From Stdlib Require Import ZArith String Ascii List DecimalString.
From stdpp Require Import base option list strings gmap relations.

Local Open Scope stdpp_scope.

(* ===================================================================== *)
(** * JavaScript values *)
(* ===================================================================== *)

Module Js.

(** A value as [JSON.parse], [require] of a [.json] file, or the code itself
    can produce it.  A plain object is the list of its own enumerable
    properties, each key once, in the order in which they were added (the
    order of [Object.keys], except that JavaScript lists integer-like keys
    first).  Numbers only matter through their truthiness.  What a plain
    object inherits from [Object.prototype] is not part of the list: where
    the scanner reads or writes a property of [topLevelDeps] or of
    [dependencies] under the name of a package, [unset] and [assign] below
    take the inherited members into account. *)
Unset Elimination Schemes.
Inductive value : Type :=
| VUndefined
| VNull
| VBool (b : bool)
| VNum (n : Z)
| VStr (s : string)
| VArr (elems : list value)
| VObj (props : list (string * value)).
Set Elimination Schemes.

Abbreviation object := (list (string * value)).

(** Structural induction that reaches the values stored in arrays and
    objects. *)
Definition value_ind_deep (P : value → Prop)
    (Hundef : P VUndefined) (Hnull : P VNull)
    (Hbool : ∀ b, P (VBool b)) (Hnum : ∀ n, P (VNum n))
    (Hstr : ∀ s, P (VStr s))
    (Harr : ∀ elems, Forall P elems → P (VArr elems))
    (Hobj : ∀ props, Forall (λ kv, P kv.2) props → P (VObj props)) :
    ∀ v, P v :=
  fix go (v : value) : P v :=
    match v with
    | VUndefined => Hundef
    | VNull => Hnull
    | VBool b => Hbool b
    | VNum n => Hnum n
    | VStr s => Hstr s
    | VArr elems =>
        Harr elems
          ((fix all (l : list value) : Forall P l :=
              match l with
              | [] => Forall_nil_2 P
              | x :: l' => Forall_cons_2 P x l' (go x) (all l')
              end) elems)
    | VObj props =>
        Hobj props
          ((fix all (l : object) : Forall (λ kv, P kv.2) l :=
              match l with
              | [] => Forall_nil_2 _
              | kv :: l' => Forall_cons_2 _ kv l' (go kv.2) (all l')
              end) props)
    end.

(** [ToBoolean]. *)
Definition truthy (v : value) : bool :=
  match v with
  | VUndefined | VNull => false
  | VBool b => b
  | VNum n => negb (n =? 0)%Z
  | VStr s => negb (String.eqb s "")
  | VArr _ | VObj _ => true
  end.

(** Own-property lookup in a property list. *)
Fixpoint own (o : object) (k : string) : option value :=
  match o with
  | [] => None
  | (k', v) :: o' => if String.eqb k' k then Some v else own o' k
  end.

(** [v[k]] for a property name [k] (not an array index or [length]) on a
    value that is not [null] or [undefined]: primitives and arrays have no
    such property. *)
Definition get (v : value) (k : string) : value :=
  match v with
  | VObj o => default VUndefined (own o k)
  | _ => VUndefined
  end.

(** [k in Object(v)] for a property name [k]. *)
Definition has (v : value) (k : string) : bool :=
  match v with
  | VObj o => bool_decide (is_Some (own o k))
  | _ => false
  end.

(** [o[k] = v]: an existing property keeps its position. *)
Fixpoint set_prop (o : object) (k : string) (v : value) : object :=
  match o with
  | [] => [(k, v)]
  | (k', v') :: o' =>
      if String.eqb k' k then (k', v) :: o' else (k', v') :: set_prop o' k v
  end.

(** The names of the members of [Object.prototype].  A plain object that
    has no own property of such a name inherits the member: a function, or,
    for [__proto__], the prototype itself. *)
Definition Object_prototype_members : list string :=
  ["constructor"; "__defineGetter__"; "__defineSetter__"; "hasOwnProperty";
   "__lookupGetter__"; "__lookupSetter__"; "isPrototypeOf";
   "propertyIsEnumerable"; "toString"; "valueOf"; "__proto__";
   "toLocaleString"].

Definition inherited (k : string) : bool :=
  existsb (String.eqb k) Object_prototype_members.

(** [!o[k]] for a plain object [o] whose own properties hold objects: an own
    property is truthy, and so is an inherited member. *)
Definition unset (o : object) (k : string) : bool :=
  negb (bool_decide (is_Some (own o k)) || inherited k).

(** [o[k] = v] for a plain object [o] and an object [v]: an assignment to
    [__proto__] goes to the setter of [Object.prototype], which changes the
    prototype of [o] and adds no own property. *)
Definition assign (o : object) (k : string) (v : value) : object :=
  if String.eqb k "__proto__" then o else set_prop o k v.

Definition index_key (i : nat) : string :=
  NilZero.string_of_uint (Nat.to_uint i).

Fixpoint chars (s : string) : list value :=
  match s with
  | EmptyString => []
  | String c s' => VStr (String c EmptyString) :: chars s'
  end.

(** The own enumerable string-keyed properties that [Object.keys],
    [Object.assign] and lodash's [baseForOwn] iterate over: the properties of
    an object, the indices of an array or of a string, nothing for the other
    values. *)
Definition entries (v : value) : object :=
  match v with
  | VObj o => o
  | VArr elems => imap (λ i x, (index_key i, x)) elems
  | VStr s => imap (λ i x, (index_key i, x)) (chars s)
  | _ => []
  end.

Definition keys (v : value) : list string := (entries v).*1.

(** lodash [mapValues] with an iteratee that reads the value only. *)
Definition mapValues (f : value → value) (v : value) : object :=
  prod_map id f <$> entries v.

(** lodash [pick] with plain property names as paths: [null] and [undefined]
    give the empty object, otherwise each path that [hasIn] finds is copied, in
    the order of [paths]. *)
Definition pick (v : value) (paths : list string) : object :=
  omap (λ p, if has v p then Some (p, get v p) else None) paths.

End Js.
Export Js.

(* ===================================================================== *)
(** * The lock-tree filter *)
(* ===================================================================== *)

Module Filter.

Definition LOCKED_DEPENDENCIES_REQUIRED_PROPERTIES : list string :=
  ["version"; "dev"; "requires"; "integrity"].

Definition LOCKED_DEPENDENCIES_REQUIRED_PROPERTIES_WITH_DEPS : list string :=
  LOCKED_DEPENDENCIES_REQUIRED_PROPERTIES ++ ["dependencies"].

(** The iteratee of [filterTree], with the recursive call abstracted.
    [None] is the [TypeError] of reading [.dependencies] off [null] (or
    [undefined]).  The inner loop is the property read
    [packageInfo.dependencies], written as a search so that the recursive call
    is on a component of [packageInfo]; [filterNode_with_eq] below gives the
    equation in the shape of the source. *)
Definition filterNode_with (filterTree : value → option value)
    (packageInfo : value) : option value :=
  let requiredInfo := pick packageInfo LOCKED_DEPENDENCIES_REQUIRED_PROPERTIES in
  match packageInfo with
  | VUndefined | VNull => None
  | VObj props =>
      (fix read (ps : object) : option value :=
         match ps with
         | [] => Some (VObj requiredInfo)
         | (k, d) :: ps' =>
             if String.eqb k "dependencies" then
               if truthy d then
                 d' ← filterTree d;
                 Some (VObj (set_prop requiredInfo "dependencies" d'))
               else Some (VObj requiredInfo)
             else read ps'
         end) props
  | _ => Some (VObj requiredInfo)
  end.

(** [filterTree]: lodash [mapValues] over the own properties of
    [packageTree], in order; the first failing iteratee aborts the whole
    call. *)
Fixpoint filterTree (packageTree : value) : option value :=
  match packageTree with
  | VObj props =>
      VObj <$> (fix each (ps : object) : option object :=
                  match ps with
                  | [] => Some []
                  | (k, packageInfo) :: ps' =>
                      r ← filterNode_with filterTree packageInfo;
                      rs ← each ps';
                      Some ((k, r) :: rs)
                  end) props
  | VArr elems =>
      VObj <$> (fix each (i : nat) (es : list value) : option object :=
                  match es with
                  | [] => Some []
                  | packageInfo :: es' =>
                      r ← filterNode_with filterTree packageInfo;
                      rs ← each (S i) es';
                      Some ((index_key i, r) :: rs)
                  end) 0 elems
  | VStr s =>
      Some (VObj (mapValues
        (λ c, VObj (pick c LOCKED_DEPENDENCIES_REQUIRED_PROPERTIES)) (VStr s)))
  | _ => Some (VObj [])
  end.

Definition filterNode : value → option value := filterNode_with filterTree.

(** The iteratee on one property of the tree. *)
Definition filterEntry (kv : string * value) : option (string * value) :=
  pair kv.1 <$> filterNode kv.2.

End Filter.
Export Filter.

(* ===================================================================== *)
(** * The PackageRecord data model *)
(* ===================================================================== *)

Module Tree.

(** A PackageRecord is an object whose fields are among the five canonical
    ones and whose [dependencies] field, when present, is again a tree of
    PackageRecords; [rec] is the check for that nested tree. *)
Definition package_record_with (rec : value → bool) (r : value) : bool :=
  match r with
  | VObj fields =>
      forallb
        (λ f, bool_decide (f.1 ∈ LOCKED_DEPENDENCIES_REQUIRED_PROPERTIES_WITH_DEPS)
              && (if String.eqb f.1 "dependencies" then rec f.2 else true))
        fields
  | _ => false
  end.

(** A tree handed off by the system: a mapping from package names to
    PackageRecords, at every depth. *)
Fixpoint package_tree (t : value) : bool :=
  match t with
  | VObj props => forallb (λ kv, package_record_with package_tree kv.2) props
  | _ => false
  end.

Definition package_record : value → bool := package_record_with package_tree.

(** The node reached from the tree [t] by following package names through
    nested [dependencies] maps. *)
Fixpoint node_at (t : value) (path : list string) : option value :=
  match path with
  | [] => None
  | name :: path' =>
      node ← own (entries t) name;
      match path' with
      | [] => Some node
      | _ => node_at (get node "dependencies") path'
      end
  end.

End Tree.
Export Tree.


(* ===================================================================== *)
(** * The host: file system, module resolution, path functions *)
(* ===================================================================== *)

Module Host.

(** What the program consumes from Node and from its libraries.  The [path]
    functions, [resolve-from], [fs.readFile] and [JSON.parse] are not code of
    this repository and are taken as given; [None] stands for the exception
    (or the error callback) of the operation. *)
Record host := {
  (** [path.resolve(name)], against the working directory *)
  path_resolve : string → string;
  (** [path.dirname] *)
  path_dirname : string → string;
  (** [path.join] *)
  path_join : string → string → string;
  (** [require(path)] of a [.json] file: the manifests that exist and parse *)
  modules : gmap string value;
  (** [resolveFrom(fromDir, moduleId)]: the absolute path of the file *)
  resolveFrom : string → string → option string;
  (** [fs.readFile(path)] followed by [toString()] *)
  readFile : string → option string;
  (** [JSON.parse] *)
  JSON_parse : string → option value;
  (** the object returned by [getMetadata()] *)
  metadata : value;
}.

(** [haystack.indexOf(needle)]. *)
Definition indexOf (haystack needle : string) : Z :=
  match String.index 0 needle haystack with
  | Some i => Z.of_nat i
  | None => (-1)%Z
  end.

End Host.
Export Host.

(* ===================================================================== *)
(** * Computations: state, exceptions, recursion depth *)
(* ===================================================================== *)

Module Comp.

Inductive exn : Type :=
| TypeError
| ModuleNotFound
| IOError
| SyntaxError
| Error (message : string).

(** The result of running a piece of the program with a bound on the depth of
    its recursion: a value, an exception, or the bound was reached. *)
Inductive outcome (A : Type) : Type :=
| Done (a : A)
| Throw (e : exn)
| OutOfFuel.
Arguments Done {A} a.
Arguments Throw {A} e.
Arguments OutOfFuel {A}.

(** The variables that the closures of [scanInstalledDependencies] share.
    [resolutions] is not a variable of the program: it records every call of
    [collectDepPackageInfo] (the manifest path and the value of [devFlag] at
    the call) so that the number and the order of resolutions can be stated.
    Nothing reads it. *)
Record state := {
  topLevelDeps : object;
  packageCache : gmap string value;
  devFlag : bool;
  resolutions : list (string * bool);
}.

Definition M (A : Type) : Type := state → outcome (A * state).

#[global] Instance M_ret : MRet M := λ A a s, Done (a, s).

#[global] Instance M_bind : MBind M := λ A B f m s,
  match m s with
  | Done (a, s') => f a s'
  | Throw e => Throw e
  | OutOfFuel => OutOfFuel
  end.

Definition throw {A} (e : exn) : M A := λ _, Throw e.
Definition out_of_fuel {A} : M A := λ _, OutOfFuel.
Definition gets {A} (f : state → A) : M A := λ s, Done (f s, s).
Definition modify (f : state → state) : M unit := λ s, Done (tt, f s).

(** An operation of the host that may throw. *)
Definition lift {A} (e : exn) (x : option A) : M A :=
  match x with Some a => mret a | None => throw e end.

(** [for (const x of xs) acc = f(x, acc)]. *)
Fixpoint foldM {A B} (f : A → B → M B) (xs : list A) (acc : B) : M B :=
  match xs with
  | [] => mret acc
  | x :: xs' => acc' ← f x acc; foldM f xs' acc'
  end.

(** [xs.forEach(f)]. *)
Definition forEach {A B} (f : A → M B) (xs : list A) : M unit :=
  foldM (λ x _, _ ← f x; mret tt) xs tt.

(** lodash [mapValues] with an effectful iteratee that reads the key only:
    the properties are visited in order and the first exception aborts. *)
Fixpoint mapValuesM (f : string → M value) (o : object) : M object :=
  match o with
  | [] => mret []
  | (k, _) :: o' => v ← f k; rest ← mapValuesM f o'; mret ((k, v) :: rest)
  end.

(** [v[k]] on any value: a [TypeError] on [null] and [undefined]. *)
Definition prop (v : value) (k : string) : M value :=
  match v with
  | VUndefined | VNull => throw TypeError
  | _ => mret (get v k)
  end.

(** [Object.keys(v)]: a [TypeError] on [null] and [undefined]. *)
Definition Object_keys (v : value) : M (list string) :=
  match v with
  | VUndefined | VNull => throw TypeError
  | _ => mret (keys v)
  end.

End Comp.
Export Comp.

(* ===================================================================== *)
(** * The installed-tree scanner *)
(* ===================================================================== *)

Module Scan.
Section scan.

Context (h : host).

Definition packageJsonPath : string := path_resolve h "package.json".
Definition packageDir : string := path_dirname h packageJsonPath.
Definition packageNodeModules : string := path_join h packageDir "node_modules".

Definition isTopLevelDep (depPackageDir : string) : bool :=
  (indexOf depPackageDir packageDir <? 0)%Z
  || String.eqb (path_dirname h depPackageDir) packageNodeModules.

Definition isLocalDep (depPackageDir parentPackageDir : string) : bool :=
  (indexOf depPackageDir parentPackageDir =? 0)%Z.

Definition require (path : string) : M value :=
  lift ModuleNotFound (modules h !! path).

Definition initial : state :=
  {| topLevelDeps := []; packageCache := ∅; devFlag := false;
     resolutions := [] |}.

Definition set_topLevelDeps (o : object) (s : state) : state :=
  {| topLevelDeps := o; packageCache := packageCache s;
     devFlag := devFlag s; resolutions := resolutions s |}.

Definition set_packageCache (c : gmap string value) (s : state) : state :=
  {| topLevelDeps := topLevelDeps s; packageCache := c;
     devFlag := devFlag s; resolutions := resolutions s |}.

Definition set_devFlag (b : bool) (s : state) : state :=
  {| topLevelDeps := topLevelDeps s; packageCache := packageCache s;
     devFlag := b; resolutions := resolutions s |}.

Definition record_resolution (path : string) (s : state) : state :=
  {| topLevelDeps := topLevelDeps s; packageCache := packageCache s;
     devFlag := devFlag s;
     resolutions := resolutions s ++ [(path, devFlag s)] |}.

(** One turn of the [for (const subDep of subDeps)] loop of
    [collectDepPackageInfo]: [dependencies] is the local object under
    construction, [topLevelDeps] lives in the state.  Both are plain objects
    that hold records, so [!topLevelDeps[subDep]] is [unset] - false for a
    name that is a key already and for a name that [Object.prototype]
    defines - and the two assignments are [assign]. *)
Definition classify (depPackageDir : string) (subDepsInfo : object)
    (subDep : string) (dependencies : object) : M object :=
  match own subDepsInfo subDep with
  | None => throw TypeError
  | Some subDepInfo =>
      match get subDepInfo "packageDir" with
      | VStr subDepDir =>
          let record :=
            VObj (pick subDepInfo
                    LOCKED_DEPENDENCIES_REQUIRED_PROPERTIES_WITH_DEPS) in
          top ← gets topLevelDeps;
          if isLocalDep subDepDir depPackageDir then
            mret (assign dependencies subDep record)
          else if isTopLevelDep subDepDir && unset top subDep then
            _ ← modify (set_topLevelDeps (assign top subDep record));
            mret dependencies
          else if (indexOf subDepDir packageDir =? 0)%Z then
            mret (assign dependencies subDep record)
          else mret dependencies
      | _ => throw TypeError
      end
  end.

(** The object that [collectDepPackageInfo] builds and returns: the literal
    with [packageDir], [version] and [integrity], then the three conditional
    assignments. *)
Definition depPackageInfo_of (depPackageDir : string) (depPackageJson : value)
    (dev : bool) (requires dependencies : option object) : value :=
  let depPackageInfo :=
    [("packageDir", VStr depPackageDir);
     ("version", get depPackageJson "version");
     ("integrity", get depPackageJson "_integrity")] in
  let depPackageInfo :=
    if dev then set_prop depPackageInfo "dev" (VBool true)
    else depPackageInfo in
  let depPackageInfo :=
    match requires with
    | Some r => set_prop depPackageInfo "requires" (VObj r)
    | None => depPackageInfo
    end in
  let depPackageInfo :=
    match dependencies with
    | Some d => set_prop depPackageInfo "dependencies" (VObj d)
    | None => depPackageInfo
    end in
  VObj depPackageInfo.

(** The [if (depPackageJson[depsProp])] block of [collectDepPackageInfo]:
    it leaves [requires] and [dependencies]. *)
Definition collectSubDeps
    (getDepPackageInfo : string → string → M value)
    (depPackageDir : string) (declared : value)
    : M (option object * option object) :=
  if truthy declared then
    let subDeps := keys declared in
    subDepsInfo ←
      mapValuesM (λ dep, getDepPackageInfo depPackageDir dep)
        (entries declared);
    let requires :=
      mapValues (λ info, get info "version") (VObj subDepsInfo) in
    dependencies ← foldM (classify depPackageDir subDepsInfo) subDeps [];
    mret (Some requires,
          if bool_decide (length dependencies = 0) then None
          else Some dependencies)
  else mret (None, None).

(** [collectDepPackageInfo], with the call of [getDepPackageInfo]
    abstracted. *)
Definition collectDepPackageInfo_with
    (getDepPackageInfo : string → string → M value)
    (depPackageJsonPath depsProp : string) : M value :=
  _ ← modify (record_resolution depPackageJsonPath);
  let depPackageDir := path_dirname h depPackageJsonPath in
  depPackageJson ← require depPackageJsonPath;
  declared ← prop depPackageJson depsProp;
  found ← collectSubDeps getDepPackageInfo depPackageDir declared;
  dev ← gets devFlag;
  mret (depPackageInfo_of depPackageDir depPackageJson dev found.1 found.2).

(** [getDepPackageInfo]; [depth] bounds the nesting of the mutual recursion
    with [collectDepPackageInfo].  A stored entry is always an object, and
    the path of a file is not the name of a member of [Object.prototype], so
    [!packageCache[path]] is the test that [path] is not a key yet. *)
Fixpoint getDepPackageInfo (depth : nat)
    (parentPackageDir packageName depsProp : string) : M value :=
  match depth with
  | 0 => out_of_fuel
  | S depth' =>
      depPackageJsonPath ←
        lift ModuleNotFound
          (resolveFrom h parentPackageDir (packageName +:+ "/package.json"));
      cache ← gets packageCache;
      match cache !! depPackageJsonPath with
      | Some info => mret info
      | None =>
          info ←
            collectDepPackageInfo_with
              (λ dir dep, getDepPackageInfo depth' dir dep "dependencies")
              depPackageJsonPath depsProp;
          cache' ← gets packageCache;
          _ ← modify (set_packageCache (<[depPackageJsonPath := info]> cache'));
          mret info
      end
  end.

Definition collectDepPackageInfo (depth : nat) : string → string → M value :=
  collectDepPackageInfo_with
    (λ dir dep, getDepPackageInfo depth dir dep "dependencies").

(** The body of [scanInstalledDependencies] after the declarations. *)
Definition scan (depth : nat) : M unit :=
  packageJson ← require packageJsonPath;
  production ← prop packageJson "dependencies";
  names ← Object_keys production;
  _ ← forEach (λ dep, getDepPackageInfo depth packageDir dep "dependencies")
        names;
  _ ← modify (set_devFlag true);
  development ← prop packageJson "devDependencies";
  names ← Object_keys development;
  _ ← forEach (λ dep, getDepPackageInfo depth packageDir dep "dependencies")
        names;
  mret tt.

Definition scanInstalledDependencies (depth : nat) : outcome value :=
  match scan depth initial with
  | Done (_, s) => Done (VObj (topLevelDeps s))
  | Throw e => Throw e
  | OutOfFuel => OutOfFuel
  end.

End scan.
End Scan.
Export Scan.

(* ===================================================================== *)
(** * Lock files, source selection and the audit payload *)
(* ===================================================================== *)

Module Audit.
Section audit.

Context (h : host).

(** [getNpmLockDependencies]: the promise is rejected when the file cannot be
    read, when it does not parse, when the parsed document is [null] (reading
    [.dependencies] off it throws) and when [filterTree] throws. *)
Definition getNpmLockDependencies (lockFileName : string) : outcome value :=
  match readFile h (path_resolve h lockFileName) with
  | None => Throw IOError
  | Some lockFileContents =>
      match JSON_parse h lockFileContents with
      | None => Throw SyntaxError
      | Some (VUndefined | VNull) => Throw TypeError
      | Some lock =>
          match filterTree (get lock "dependencies") with
          | Some tree => Done tree
          | None => Throw TypeError
          end
      end
  end.

(** [promise.catch(handler)]. *)
Definition catch {A} (m : outcome A) (handler : exn → outcome A) : outcome A :=
  match m with
  | Throw e => handler e
  | _ => m
  end.

Definition FAILED_MESSAGE : string :=
  "Failed to get locked dependencies from package-lock.json or npm-shrinkwrap.json!".

(** [getAllDependencies].  [depth] bounds the recursion of the scanner;
    [OutOfFuel] is not a JavaScript exception but the sign that [depth] was
    too small, so [catch] passes it on. *)
Definition getAllDependencies (depth : nat) : outcome value :=
  catch
    (catch
       (catch (getNpmLockDependencies "package-lock.json")
          (λ _, getNpmLockDependencies "npm-shrinkwrap.json"))
       (λ _, scanInstalledDependencies h depth))
    (λ _, Throw (Error FAILED_MESSAGE)).

(** [Object.assign(target, ...sources)].  The keys of the sources are the
    names in the two maps of the project manifest: package names, which do
    not start with an underscore, so none is [__proto__]. *)
Definition Object_assign (target : object) (sources : list value) : object :=
  foldl (λ acc source,
           foldl (λ acc kv, set_prop acc kv.1 kv.2) acc (entries source))
    target sources.

(** The [requires] field of the payload. *)
Definition requires_of (packageJson : value) : object :=
  Object_assign []
    [get packageJson "devDependencies"; get packageJson "dependencies"].

(** [getAuditData]. *)
Definition getAuditData (depth : nat) : outcome value :=
  match modules h !! packageJsonPath h with
  | None => Throw ModuleNotFound
  | Some packageJson =>
      match getAllDependencies depth with
      | Done allDependencies =>
          match packageJson with
          | VUndefined | VNull => Throw TypeError
          | _ =>
              Done (VObj
                [("name", get packageJson "name");
                 ("version", get packageJson "version");
                 ("requires", VObj (requires_of packageJson));
                 ("dependencies", allDependencies);
                 ("install", VArr []);
                 ("remove", VArr []);
                 ("metadata", metadata h)])
          end
      | Throw e => Throw e
      | OutOfFuel => OutOfFuel
      end
  end.

End audit.
End Audit.
Export Audit.

(* ===================================================================== *)
(** * The resolution graph of an installed layout *)
(* ===================================================================== *)

Module Graph.
Section graph.

Context (h : host).

(** [edge x y]: the manifest at path [x] declares a dependency whose manifest
    resolves, from the directory of [x], to the path [y]. *)
Definition edge (x y : string) : Prop :=
  ∃ m dep,
    modules h !! x = Some m
    ∧ dep ∈ keys (get m "dependencies")
    ∧ resolveFrom h (path_dirname h x) (dep +:+ "/package.json") = Some y.

(** No manifest depends, directly or through others, on itself. *)
Definition acyclic : Prop := ∀ x, ¬ tc edge x x.

End graph.
End Graph.
Export Graph.

(* ===================================================================== *)
(** * Concrete hosts for the examples *)
(* ===================================================================== *)

Module Posix.

(** The scan of [path.dirname] on POSIX, left to right: [slash] is the index
    of the last [/] seen at an index other than 0, [cut] the value of [slash]
    at the last character seen that is not a [/]. *)
Fixpoint dirname_cut (path : string) (i : nat) (slash cut : option nat)
    : option nat :=
  match path with
  | EmptyString => cut
  | String c path' =>
      if Ascii.eqb c "/" then
        dirname_cut path' (S i) (match i with 0 => None | _ => Some i end) cut
      else dirname_cut path' (S i) slash slash
  end.

Definition has_root (path : string) : bool :=
  match path with
  | String c _ => Ascii.eqb c "/"
  | EmptyString => false
  end.

Definition dirname (path : string) : string :=
  match path with
  | EmptyString => "."
  | _ =>
      match dirname_cut path 0 None None with
      | None => if has_root path then "/" else "."
      | Some e =>
          if has_root path && bool_decide (e = 1) then "//"
          else String.substring 0 e path
      end
  end.

(** [path.join(dir, name)] for a normalized [dir] and a relative [name]
    without [.] or [..] segments. *)
Definition join (dir name : string) : string :=
  if String.eqb dir "/" then "/" +:+ name else dir +:+ "/" +:+ name.

Definition ends_with (suffix s : string) : bool :=
  let n := String.length s in
  let m := String.length suffix in
  bool_decide (m ≤ n) && String.eqb (String.substring (n - m) m s) suffix.

(** Node's lookup of [id] from [dir]: [dir/node_modules/id], then the same
    from each parent directory, skipping the directories that are themselves
    named [node_modules]; a file exists when [files] has it. *)
Fixpoint lookup_up (fuel : nat) (files : gmap string value)
    (dir id : string) : option string :=
  match fuel with
  | 0 => None
  | S fuel' =>
      let candidate := join (join dir "node_modules") id in
      if negb (ends_with "/node_modules" dir)
         && bool_decide (is_Some (files !! candidate))
      then Some candidate
      else if String.eqb dir "/" then None
      else lookup_up fuel' files (dirname dir) id
  end.

(** A project in [/proj] with the given manifests and lock files, and a given
    parser. *)
Definition host_of (files : gmap string value)
    (lockFiles : gmap string string) (parse : string → option value) : host :=
  {| path_resolve := join "/proj";
     path_dirname := dirname;
     path_join := join;
     modules := files;
     resolveFrom := λ dir id, lookup_up (S (String.length dir)) files dir id;
     readFile := λ path, lockFiles !! path;
     JSON_parse := parse;
     metadata := VObj [("node_version", VStr "v8.11.1")] |}.

End Posix.

Module Examples.
Import Posix.

(** A manifest with a version and the names it depends on. *)
Definition manifest (version : string) (deps : list string) : value :=
  VObj (("version", VStr version)
        :: match deps with
           | [] => []
           | _ => [("dependencies", VObj ((λ d, (d, VStr "*")) <$> deps))]
           end).

Definition no_parse : string → option value := λ _, None.

(** The end-to-end scenario of the specification: one production dependency,
    hoisted to [/proj/node_modules], without dependencies of its own. *)
Definition left_pad_manifest : value :=
  VObj [("name", VStr "left-pad"); ("version", VStr "1.3.0");
        ("_integrity", VStr "sha1-abc")].

Definition left_pad_files (project : value) : gmap string value :=
  list_to_map
    [("/proj/package.json", project);
     ("/proj/node_modules/left-pad/package.json", left_pad_manifest)].

(** The project manifest as the scenario writes it: no [devDependencies]. *)
Definition left_pad_host : host :=
  host_of
    (left_pad_files
       (VObj [("dependencies", VObj [("left-pad", VStr "^1.0.0")])]))
    ∅ no_parse.

(** The same project with an empty [devDependencies]. *)
Definition left_pad_host_empty_dev : host :=
  host_of
    (left_pad_files
       (VObj [("dependencies", VObj [("left-pad", VStr "^1.0.0")]);
              ("devDependencies", VObj [])]))
    ∅ no_parse.

(** A project whose dependency [x] needs [a] and [b], which both need [c];
    the development dependency [y] needs [c] and [z].  Everything is hoisted
    to [/proj/node_modules]. *)
Definition diamond_files : gmap string value :=
  list_to_map
    [("/proj/package.json",
      VObj [("name", VStr "app"); ("version", VStr "0.1.0");
            ("dependencies", VObj [("x", VStr "^1.0.0")]);
            ("devDependencies", VObj [("y", VStr "^2.0.0")])]);
     ("/proj/node_modules/x/package.json", manifest "1.0.0" ["a"; "b"]);
     ("/proj/node_modules/a/package.json", manifest "1.1.0" ["c"]);
     ("/proj/node_modules/b/package.json", manifest "1.2.0" ["c"]);
     ("/proj/node_modules/c/package.json", manifest "1.3.0" []);
     ("/proj/node_modules/y/package.json", manifest "2.0.0" ["c"; "z"]);
     ("/proj/node_modules/z/package.json", manifest "3.0.0" [])].

Definition diamond_host : host := host_of diamond_files ∅ no_parse.

(** The object cached for [c], its projection, and a state of the scanner in
    which [c] has been resolved and promoted to top level, as the loop of [a]
    leaves it. *)
Definition info_c : value :=
  VObj [("packageDir", VStr "/proj/node_modules/c");
        ("version", VStr "1.3.0"); ("integrity", VUndefined)].

Definition record_c : value :=
  VObj [("version", VStr "1.3.0"); ("integrity", VUndefined)].

Definition c_at_top_level : state :=
  {| topLevelDeps := [("c", record_c)];
     packageCache := {[ "/proj/node_modules/c/package.json" := info_c ]};
     devFlag := false;
     resolutions := [("/proj/node_modules/c/package.json", false)] |}.

(** The project declares [a] and [b], which both need [c]; the manifest has
    no [devDependencies]. *)
Definition shared_c_files : gmap string value :=
  list_to_map
    [("/proj/package.json",
      VObj [("name", VStr "app"); ("version", VStr "0.1.0");
            ("dependencies", VObj [("a", VStr "^1.0.0"); ("b", VStr "^1.0.0")])]);
     ("/proj/node_modules/a/package.json", manifest "1.1.0" ["c"]);
     ("/proj/node_modules/b/package.json", manifest "1.2.0" ["c"]);
     ("/proj/node_modules/c/package.json", manifest "1.3.0" [])].

Definition shared_c_host : host := host_of shared_c_files ∅ no_parse.

(** Lock files: a parser that knows three documents. *)
Definition lock_document : value :=
  VObj [("name", VStr "app"); ("lockfileVersion", VNum 1);
        ("dependencies",
         VObj [("a", VObj [("version", VStr "1.1.0");
                           ("resolved", VStr "https://registry/a.tgz");
                           ("integrity", VStr "sha512-a")])])].

Definition null_node_document : value :=
  VObj [("dependencies", VObj [("a", VNull)])].

Definition parse_table (contents : string) : option value :=
  if String.eqb contents "LOCK" then Some lock_document
  else if String.eqb contents "NULL-NODE" then Some null_node_document
  else if String.eqb contents "null" then Some VNull
  else None.

(** No [package-lock.json]; [npm-shrinkwrap.json] holds [contents]. *)
Definition shrinkwrap_host (contents : string) : host :=
  host_of diamond_files {[ "/proj/npm-shrinkwrap.json" := contents ]}
    parse_table.

(** Neither lock file, and a project manifest without [dependencies]. *)
Definition bare_host : host :=
  host_of {[ "/proj/package.json" := VObj [("name", VStr "app")] ]} ∅
    parse_table.

(** A project manifest that constrains [q] in both maps. *)
Definition both_maps_files : gmap string value :=
  list_to_map
    [("/proj/package.json",
      VObj [("name", VStr "app"); ("version", VStr "0.1.0");
            ("dependencies", VObj [("q", VStr "^1.0.0")]);
            ("devDependencies", VObj [("q", VStr "^2.0.0"); ("t", VStr "~3.1.0")])])].

Definition both_maps_host : host :=
  host_of both_maps_files {[ "/proj/package-lock.json" := "LOCK" ]}
    parse_table.

End Examples.

(* ===================================================================== *)
(** * Runs of computations and the invariants of a scan *)
(* ===================================================================== *)

Module Runs.

(** [m] started in [s] returns [a] and leaves [s']. *)
Definition run {A} (m : M A) (s : state) (a : A) (s' : state) : Prop :=
  m s = Done (a, s').

(** [m] started in [s] does not exhaust the recursion bound. *)
Definition terminates {A} (m : M A) (s : state) : Prop :=
  m s ≠ OutOfFuel.

(** [m2] does what [m1] does whenever [m1] does not exhaust its bound. *)
Definition refines {A} (m1 m2 : M A) : Prop :=
  ∀ s, m1 s = OutOfFuel ∨ m1 s = m2 s.

End Runs.
Export Runs.

Module Invariants.
Section invariants.

Context (h : host).

Abbreviation WITH_DEPS := LOCKED_DEPENDENCIES_REQUIRED_PROPERTIES_WITH_DEPS.
Abbreviation record_of info := (VObj (pick info WITH_DEPS)).

(** The state after [packageCache[path] = info]. *)
Definition store (path : string) (info : value) (s : state) : state :=
  set_packageCache (<[path := info]> (packageCache s)) s.

(** The cached paths are closed under [edge] and none of them is on a
    cycle: a path is stored only after all its dependencies have been. *)
Definition closed_acyclic (c : gmap string value) : Prop :=
  (∀ x y, x ∈ dom c → edge h x y → y ∈ dom c)
  ∧ (∀ x, x ∈ dom c → ¬ tc (edge h) x x).

(** Only [topLevelDeps] changed, and only by new keys. *)
Definition top_only (s s' : state) : Prop :=
  packageCache s' = packageCache s
  ∧ resolutions s' = resolutions s
  ∧ devFlag s' = devFlag s
  ∧ ∀ n r, own (topLevelDeps s) n = Some r → own (topLevelDeps s') n = Some r.

(** [s'] comes after [s] in a phase of the scan: the flag is the same, cache
    entries and top-level entries persist, and the new resolutions are
    exactly the new keys of the cache, each once. *)
Definition grows (s s' : state) : Prop :=
  devFlag s' = devFlag s
  ∧ packageCache s ⊆ packageCache s'
  ∧ (∀ n r, own (topLevelDeps s) n = Some r → own (topLevelDeps s') n = Some r)
  ∧ ∃ new,
      resolutions s' = resolutions s ++ new
      ∧ NoDup new.*1
      ∧ (∀ p, p ∈ new.*1 ↔
              p ∈ dom (packageCache s') ∧ p ∉ dom (packageCache s))
      ∧ Forall (λ e, e.2 = devFlag s) new.

(** What a call of [getDepPackageInfo] that resolves [path] does to the
    cache and to the log. *)
Definition call_structure (path : string) (s : state) (info : value)
    (s' : state) : Prop :=
  closed_acyclic (packageCache s) →
  grows s s'
  ∧ closed_acyclic (packageCache s')
  ∧ packageCache s' !! path = Some info
  ∧ ∀ p, p ∈ dom (packageCache s') → p ∉ dom (packageCache s) →
         rtc (edge h) path p.

(** Where the loop of the package in [dir] has put its dependency [n], whose
    cached object is [info]: under [dependencies] when the directory of [n]
    has [dir] as a string prefix; at top level (now or before) when it has
    not, [isTopLevelDep] holds and [Object.prototype] has no member of that
    name; under [dependencies] again when it has not, [isTopLevelDep] fails
    or the name is a member of [Object.prototype], and the directory has the
    project directory as a string prefix.  Nothing is put under the name
    [__proto__]. *)
Definition edge_placed (dir : string) (dependencies top : object)
    (n : string) (info : value) : Prop :=
  ∀ dir_n,
    get info "packageDir" = VStr dir_n →
    (String.prefix dir dir_n = true → n ≠ "__proto__" →
     own dependencies n = Some (record_of info))
    ∧ (String.prefix dir dir_n = false → isTopLevelDep h dir_n = true →
       inherited n = false → is_Some (own top n))
    ∧ (String.prefix dir dir_n = false →
       isTopLevelDep h dir_n = false ∨ inherited n = true →
       String.prefix (packageDir h) dir_n = true → n ≠ "__proto__" →
       own dependencies n = Some (record_of info)).

(** What holds of the cache and of [topLevelDeps] at every moment of a scan:
    - [ok_dev]: a cached object has a [dev] field exactly when the flag was
      raised at its resolution;
    - [ok_record]: its projection is a PackageRecord;
    - [ok_deps], [ok_top]: every record under a cached object, and every
      top-level record, is the projection of the cached object of the
      manifest that its name resolves to;
    - [ok_top_nodup]: a name is at top level once;
    - [ok_dir]: a cached object carries the directory of its manifest;
    - [ok_edges]: every declared dependency of a cached manifest has been
      placed by the classification rule. *)
Record content_ok (s : state) : Prop := {
  ok_dev : ∀ p info,
    packageCache s !! p = Some info →
    ∃ flag : bool, (p, flag) ∈ resolutions s
            ∧ has info "dev" = flag
            ∧ (flag = true → get info "dev" = VBool true);
  ok_record : ∀ p info,
    packageCache s !! p = Some info → package_record (record_of info) = true;
  ok_deps : ∀ p info n r,
    packageCache s !! p = Some info →
    (n, r) ∈ entries (get info "dependencies") →
    ∃ q info',
      resolveFrom h (path_dirname h p) (n +:+ "/package.json") = Some q
      ∧ packageCache s !! q = Some info' ∧ r = record_of info';
  ok_top : ∀ n r,
    (n, r) ∈ topLevelDeps s →
    ∃ dir q info,
      resolveFrom h dir (n +:+ "/package.json") = Some q
      ∧ packageCache s !! q = Some info ∧ r = record_of info;
  ok_top_nodup : NoDup (topLevelDeps s).*1;
  ok_dir : ∀ p info,
    packageCache s !! p = Some info →
    get info "packageDir" = VStr (path_dirname h p);
  ok_edges : ∀ p info m n q info_q,
    packageCache s !! p = Some info →
    modules h !! p = Some m →
    n ∈ keys (get m "dependencies") →
    resolveFrom h (path_dirname h p) (n +:+ "/package.json") = Some q →
    packageCache s !! q = Some info_q →
    edge_placed (path_dirname h p) (entries (get info "dependencies"))
      (topLevelDeps s) n info_q;
}.

(** What a call of [getDepPackageInfo] that resolves [path] does: the
    structure of the cache and of the log, and the invariant of the
    records. *)
Definition call_spec (path : string) (s : state) (info : value)
    (s' : state) : Prop :=
  call_structure path s info s'
  ∧ (closed_acyclic (packageCache s) → content_ok s → content_ok s').

(** The states of the variables between the calls that the body of
    [scanInstalledDependencies] makes: the initial values, the state after
    one more call of [getDepPackageInfo] for a dependency of the project, and
    the state after [devFlag = true]. *)
Inductive scanning (depth : nat) : state → Prop :=
| scanning_initial : scanning depth initial
| scanning_call s dep info s' :
    scanning depth s →
    getDepPackageInfo h depth (packageDir h) dep "dependencies" s
    = Done (info, s') →
    scanning depth s'
| scanning_dev s : scanning depth s → scanning depth (set_devFlag true s).

End invariants.
End Invariants.
Export Invariants.

(* ===================================================================== *)
(** * The nodes of a lock tree and the manifests that a scan can reach *)
(* ===================================================================== *)

Module Nodes.

(** [v == null]: the two values off which a property read throws. *)
Definition nullish (v : value) : bool :=
  match v with
  | VUndefined | VNull => true
  | _ => false
  end.

(** [node_of t v]: [v] is a value that the iteratee of [filterTree] is
    applied to when the filter runs over [t] without an exception: the value
    of an own enumerable property of [t], or, for such a value, a node of its
    [dependencies]. *)
Inductive node_of : value → value → Prop :=
| node_here t k v : (k, v) ∈ entries t → node_of t v
| node_below t k v w :
    (k, v) ∈ entries t → node_of (get v "dependencies") w → node_of t w.

End Nodes.
Export Nodes.

Module Reach.
Section reach.

Context (h : host).

(** [root x]: the two [forEach] loops of [scanInstalledDependencies] ask for
    the manifest at [x], because the project declares, in [dependencies] or
    in [devDependencies], a name that resolves to it from the project
    directory. *)
Definition root (x : string) : Prop :=
  ∃ packageJson dep,
    modules h !! packageJsonPath h = Some packageJson
    ∧ (dep ∈ keys (get packageJson "dependencies")
       ∨ dep ∈ keys (get packageJson "devDependencies"))
    ∧ resolveFrom h (packageDir h) (dep +:+ "/package.json") = Some x.

(** [reachable x]: some root leads to [x] along [dependencies] edges. *)
Definition reachable (x : string) : Prop := ∃ r, root r ∧ rtc (edge h) r x.



End reach.
End Reach.
Export Reach.

Module Manifests.
Section manifests.

Context (h : host).

Abbreviation WITH_DEPS := LOCKED_DEPENDENCIES_REQUIRED_PROPERTIES_WITH_DEPS.
Abbreviation record_of info := (VObj (pick info WITH_DEPS)).

(** Why the loop of the package in [dir] has put the name [n] under
    [dependencies]: [n] is not [__proto__], and the manifest that [n]
    resolves to lies in a directory that has [dir] as a string prefix, or
    that has the project directory as a string prefix and is not to be
    promoted - it does not pass [isTopLevelDep], or [topLevelDeps[n]] is
    truthy: the name is at top level already, or it is the name of a member
    of [Object.prototype]. *)
Definition nested_by_rule (dir : string) (top : object) (n : string) : Prop :=
  n ≠ "__proto__"
  ∧ ∃ q,
      resolveFrom h dir (n +:+ "/package.json") = Some q
      ∧ (String.prefix dir (path_dirname h q) = true
         ∨ (String.prefix dir (path_dirname h q) = false
            ∧ String.prefix (packageDir h) (path_dirname h q) = true
            ∧ (isTopLevelDep h (path_dirname h q) = true →
               is_Some (own top n) ∨ inherited n = true))).

(** What a cached object holds of the manifest it was built from, and where
    the top-level records come from:
    - [ok_manifest]: the object of the path [p] has the [version] of the
      manifest at [p] and, as [integrity], its [_integrity]; it has a
      [requires] field exactly when the manifest's [dependencies] is truthy;
      its [dependencies] field, when present, is not empty;
    - [ok_requires]: [requires] has the names that the manifest declares, in
      their order, each with the [version] of the manifest that the name
      resolves to from the directory of [p], and that manifest is cached;
    - [ok_nested]: a name under the [dependencies] of the object is a name
      that the manifest declares, put there by the rule of the loop;
    - [ok_declared]: a top-level record is the projection of the cached
      object of a manifest that a resolved package declares, whose directory
      passes [isTopLevelDep] and is not local to that package, under a name
      that is not the name of a member of [Object.prototype]. *)
Record manifest_ok (s : state) : Prop := {
  ok_manifest : ∀ p info,
    packageCache s !! p = Some info →
    ∃ m, modules h !! p = Some m
         ∧ has info "version" = true
         ∧ get info "version" = get m "version"
         ∧ has info "integrity" = true
         ∧ get info "integrity" = get m "_integrity"
         ∧ has info "requires" = truthy (get m "dependencies")
         ∧ (has info "dependencies" = true →
            keys (get info "dependencies") ≠ []);
  ok_requires : ∀ p info m,
    packageCache s !! p = Some info →
    modules h !! p = Some m →
    keys (get info "requires") = keys (get m "dependencies")
    ∧ ∀ dep v,
        (dep, v) ∈ entries (get info "requires") →
        ∃ q mq,
          resolveFrom h (path_dirname h p) (dep +:+ "/package.json") = Some q
          ∧ q ∈ dom (packageCache s)
          ∧ modules h !! q = Some mq
          ∧ v = get mq "version";
  ok_nested : ∀ p info m n,
    packageCache s !! p = Some info →
    modules h !! p = Some m →
    n ∈ keys (get info "dependencies") →
    n ∈ keys (get m "dependencies")
    ∧ nested_by_rule (path_dirname h p) (topLevelDeps s) n;
  ok_declared : ∀ n r,
    (n, r) ∈ topLevelDeps s →
    ∃ p m q info,
      p ∈ (resolutions s).*1
      ∧ modules h !! p = Some m
      ∧ n ∈ keys (get m "dependencies")
      ∧ resolveFrom h (path_dirname h p) (n +:+ "/package.json") = Some q
      ∧ packageCache s !! q = Some info
      ∧ r = record_of info
      ∧ isTopLevelDep h (path_dirname h q) = true
      ∧ String.prefix (path_dirname h p) (path_dirname h q) = false
      ∧ inherited n = false;
}.

(** What a call of [getDepPackageInfo] that resolves [path] does, with the
    invariant above. *)
Definition call_manifest (path : string) (s : state) (info : value)
    (s' : state) : Prop :=
  call_spec h path s info s'
  ∧ (closed_acyclic h (packageCache s) → content_ok h s →
     manifest_ok s → manifest_ok s').

End manifests.
End Manifests.
Export Manifests.

Module Progress.

(** [m] started in [s] does not throw. *)
Definition no_throw {A} (m : M A) (s : state) : Prop :=
  ∀ e, m s ≠ Throw e.

Section progress.

Context (h : host).

(** The name [dep] resolves from [dir] to a manifest that exists. *)
Definition resolves_to_manifest (dir dep : string) : Prop :=
  ∃ q, resolveFrom h dir (dep +:+ "/package.json") = Some q
       ∧ is_Some (modules h !! q).

(** Every manifest is an object (or another value that is not [null]), and
    every name it declares in [dependencies] is installed where the
    resolution from its directory finds it. *)
Definition installed : Prop :=
  ∀ p m,
    modules h !! p = Some m →
    nullish m = false
    ∧ ∀ dep, dep ∈ keys (get m "dependencies") →
             resolves_to_manifest (path_dirname h p) dep.

(** The project manifest has both maps, and its development dependencies
    are installed. *)
Definition project_ok : Prop :=
  ∃ packageJson,
    modules h !! packageJsonPath h = Some packageJson
    ∧ nullish (get packageJson "dependencies") = false
    ∧ nullish (get packageJson "devDependencies") = false
    ∧ ∀ dep, dep ∈ keys (get packageJson "devDependencies") →
             resolves_to_manifest (packageDir h) dep.

End progress.
End Progress.
Export Progress.

Module MoreExamples.
Import Posix Examples.

(** Two packages that depend on each other. *)
Definition cycle_files : gmap string value :=
  list_to_map
    [("/proj/package.json",
      VObj [("name", VStr "app"); ("version", VStr "0.1.0");
            ("dependencies", VObj [("a", VStr "^1.0.0")]);
            ("devDependencies", VObj [])]);
     ("/proj/node_modules/a/package.json", manifest "1.0.0" ["b"]);
     ("/proj/node_modules/b/package.json", manifest "1.0.0" ["a"])].

Definition cycle_host : host := host_of cycle_files ∅ no_parse.

(** A hoisted package whose name is the name of a member of
    [Object.prototype]: [x] needs [w] and [k], and [w] needs [constructor]. *)
Definition constructor_files : gmap string value :=
  list_to_map
    [("/proj/package.json",
      VObj [("name", VStr "app"); ("version", VStr "0.1.0");
            ("dependencies", VObj [("x", VStr "^1.0.0")]);
            ("devDependencies", VObj [])]);
     ("/proj/node_modules/x/package.json", manifest "1.0.0" ["w"; "k"]);
     ("/proj/node_modules/w/package.json", manifest "2.0.0" ["constructor"]);
     ("/proj/node_modules/k/package.json", manifest "3.0.0" []);
     ("/proj/node_modules/constructor/package.json", manifest "4.0.0" [])].

Definition constructor_host : host := host_of constructor_files ∅ no_parse.

Definition info_constructor : value :=
  VObj [("packageDir", VStr "/proj/node_modules/constructor");
        ("version", VStr "4.0.0"); ("integrity", VUndefined)].

Definition record_constructor : value :=
  VObj [("version", VStr "4.0.0"); ("integrity", VUndefined)].

(** A lock file that parses to a document without [dependencies]. *)
Definition empty_lock_parse (contents : string) : option value :=
  if String.eqb contents "EMPTY"
  then Some (VObj [("name", VStr "app"); ("lockfileVersion", VNum 1)])
  else parse_table contents.

Definition empty_lock_host : host :=
  host_of diamond_files {[ "/proj/package-lock.json" := "EMPTY" ]}
    empty_lock_parse.

End MoreExamples.
(* ===================================================================== *)
(** * Facts about property lists *)
(* ===================================================================== *)

Module JsFacts.

Lemma own_cons k' v o k :
  own ((k', v) :: o) k = if decide (k' = k) then Some v else own o k.
Proof.
  simpl. destruct (String.eqb_spec k' k); by case_decide.
Qed.

Lemma own_set_prop_eq o k v : own (set_prop o k v) k = Some v.
Proof.
  induction o as [|[k' v'] o IH]; simpl.
  - by rewrite String.eqb_refl.
  - destruct (String.eqb_spec k' k) as [->|Hne]; simpl.
    + by rewrite String.eqb_refl.
    + apply String.eqb_neq in Hne. by rewrite Hne.
Qed.

Lemma own_set_prop_ne o k v k' : k ≠ k' → own (set_prop o k v) k' = own o k'.
Proof.
  intros Hne. induction o as [|[k0 v0] o IH]; simpl.
  - apply String.eqb_neq in Hne. by rewrite Hne.
  - destruct (String.eqb_spec k0 k) as [->|Hk]; simpl.
    + apply String.eqb_neq in Hne. by rewrite Hne.
    + by rewrite IH.
Qed.

Lemma own_Some_elem_of (o : object) k v : own o k = Some v → (k, v) ∈ o.
Proof.
  induction o as [|[k' v'] o IH]; simpl; [done|].
  destruct (String.eqb_spec k' k) as [->|_].
  - intros [= ->]. apply list_elem_of_here.
  - intros. apply list_elem_of_further. auto.
Qed.

Lemma own_None_keys o k : own o k = None ↔ k ∉ o.*1.
Proof.
  induction o as [|[k' v'] o IH]; simpl.
  - split; [intros _; apply not_elem_of_nil|done].
  - rewrite not_elem_of_cons. destruct (String.eqb_spec k' k) as [->|Hne].
    + split; [done|]. by intros [? _].
    + rewrite IH. split; [intros; split; [congruence|done]|by intros [_ ?]].
Qed.

Lemma own_is_Some_keys o k : is_Some (own o k) ↔ k ∈ o.*1.
Proof.
  destruct (own o k) eqn:E.
  - split; [|eauto]. intros _. apply own_Some_elem_of in E.
    by apply (list_elem_of_fmap_2 fst) in E.
  - apply own_None_keys in E. split; [by intros [? [=]]|done].
Qed.

Lemma set_prop_keys_fresh o k v : k ∉ o.*1 → set_prop o k v = o ++ [(k, v)].
Proof.
  induction o as [|[k' v'] o IH]; simpl; [done|].
  rewrite not_elem_of_cons. intros [Hne Hk].
  apply not_eq_sym, String.eqb_neq in Hne. by rewrite Hne, IH.
Qed.

Lemma set_prop_elem_of o k v kv :
  kv ∈ set_prop o k v → kv ∈ o ∨ kv = (k, v).
Proof.
  induction o as [|[k' v'] o IH]; simpl.
  - rewrite list_elem_of_singleton. auto.
  - destruct (String.eqb_spec k' k) as [->|_]; rewrite !elem_of_cons.
    + intros [->|H]; [by right|left; by right].
    + intros [->|H]; [left; by left|]. destruct (IH H); [left; by right|by right].
Qed.

(** ** [assign] and [unset] *)

Lemma assign_proto o v : assign o "__proto__" v = o.
Proof. done. Qed.

Lemma assign_set_prop o k v : k ≠ "__proto__" → assign o k v = set_prop o k v.
Proof. intros Hne%String.eqb_neq. unfold assign. by rewrite Hne. Qed.

Lemma own_assign_eq o k v : k ≠ "__proto__" → own (assign o k v) k = Some v.
Proof. intros Hne. rewrite assign_set_prop by done. apply own_set_prop_eq. Qed.

Lemma own_assign_ne o k v k' : k ≠ k' → own (assign o k v) k' = own o k'.
Proof.
  intros Hne. unfold assign. destruct (String.eqb k "__proto__"); [done|].
  by apply own_set_prop_ne.
Qed.

Lemma assign_elem_of o k v kv :
  kv ∈ assign o k v → kv ∈ o ∨ (kv = (k, v) ∧ k ≠ "__proto__").
Proof.
  unfold assign. destruct (String.eqb_spec k "__proto__") as [->|Hne]; [auto|].
  intros [?| ->]%set_prop_elem_of; auto.
Qed.

Lemma inherited_proto : inherited "__proto__" = true.
Proof. done. Qed.

Lemma not_inherited_proto k : inherited k = false → k ≠ "__proto__".
Proof. by intros Hk ->. Qed.

Lemma unset_true o k :
  unset o k = true ↔ own o k = None ∧ inherited k = false.
Proof.
  unfold unset. rewrite negb_true_iff, orb_false_iff.
  destruct (own o k) as [v|].
  - rewrite bool_decide_eq_true_2 by eauto. split; [by intros [? _]|by intros [? _]].
  - rewrite bool_decide_eq_false_2 by (by intros [? [=]]). split; by intros [_ ?].
Qed.

Lemma unset_false o k :
  unset o k = false ↔ is_Some (own o k) ∨ inherited k = true.
Proof.
  rewrite <-not_true_iff_false, unset_true.
  destruct (own o k) as [v|], (inherited k); split.
  all: try (by intros _ [? ?]).
  all: try (by intros _; left; eexists).
  all: try (by intros _; right).
  - intros H. by destruct H.
  - by intros [[? [=]]|[=]].
Qed.

Lemma own_app_is_Some (o o' : object) k :
  is_Some (own o k) → is_Some (own (o ++ o') k).
Proof.
  induction o as [|[k' v'] o IH]; cbn; [by intros [? [=]]|].
  destruct (String.eqb k' k); eauto.
Qed.

Lemma own_fmap (f : value → value) o k :
  own (prod_map id f <$> o) k = f <$> own o k.
Proof.
  induction o as [|[k' v'] o IH]; simpl; [done|].
  by destruct (String.eqb k' k).
Qed.

(** ** [pick] *)

Lemma pick_keys v paths kv : kv ∈ pick v paths → kv.1 ∈ paths.
Proof.
  unfold pick. rewrite list_elem_of_omap. intros (p & Hp & Hkv).
  destruct (has v p); [|done]. by injection Hkv as <-.
Qed.

Lemma pick_elem_of v paths kv :
  kv ∈ pick v paths → kv.1 ∈ paths ∧ has v kv.1 = true ∧ kv.2 = get v kv.1.
Proof.
  unfold pick. rewrite list_elem_of_omap. intros (p & Hp & Hkv).
  destruct (has v p) eqn:Hh; [|done]. by injection Hkv as <-.
Qed.

Lemma pick_cons v p paths :
  pick v (p :: paths) =
    if has v p then (p, get v p) :: pick v paths else pick v paths.
Proof. unfold pick. simpl. by destruct (has v p). Qed.

Lemma own_pick v paths k :
  own (pick v paths) k =
    if decide (k ∈ paths) then if has v k then Some (get v k) else None
    else None.
Proof.
  induction paths as [|p paths IH]; [done|].
  rewrite pick_cons. destruct (decide (p = k)) as [->|Hne].
  - rewrite decide_True by apply list_elem_of_here.
    destruct (has v k) eqn:Hk.
    + simpl. by rewrite String.eqb_refl.
    + rewrite IH. by case_decide.
  - assert (own (if has v p then (p, get v p) :: pick v paths
                 else pick v paths) k = own (pick v paths) k) as ->.
    { destruct (has v p); [|done]. simpl.
      apply String.eqb_neq in Hne. by rewrite Hne. }
    rewrite IH. destruct (decide (k ∈ paths)) as [Hin|Hnin].
    + by rewrite decide_True by (by apply list_elem_of_further).
    + rewrite decide_False; [done|].
      rewrite elem_of_cons. by intros [?|?].
Qed.

Lemma has_VObj o k : has (VObj o) k = bool_decide (is_Some (own o k)).
Proof. done. Qed.

(** [pick] reads its argument through [has] and [get] on the paths only. *)
Lemma pick_ext v w paths :
  (∀ k, k ∈ paths → has v k = has w k ∧ get v k = get w k) →
  pick v paths = pick w paths.
Proof.
  induction paths as [|p paths IH]; intros H; [done|].
  rewrite !pick_cons.
  destruct (H p (list_elem_of_here _ _)) as [-> ->].
  rewrite IH; [done|]. intros k Hk. apply H. by apply list_elem_of_further.
Qed.

Lemma has_pick v paths k :
  has (VObj (pick v paths)) k = bool_decide (k ∈ paths) && has v k.
Proof.
  rewrite has_VObj, own_pick. destruct (decide (k ∈ paths)) as [Hk|Hk].
  - rewrite (bool_decide_eq_true_2 _ Hk). by destruct (has v k).
  - by rewrite (bool_decide_eq_false_2 _ Hk).
Qed.

Lemma get_pick v paths k :
  get (VObj (pick v paths)) k =
    if decide (k ∈ paths) then get v k else VUndefined.
Proof.
  simpl. rewrite own_pick. case_decide; [|done].
  destruct (has v k) eqn:Hh; [done|]. simpl.
  destruct v; try done. simpl in *.
  apply bool_decide_eq_false_1 in Hh.
  destruct (own props k); [|done]. destruct Hh; eauto.
Qed.

Lemma pick_idem v paths : pick (VObj (pick v paths)) paths = pick v paths.
Proof.
  apply pick_ext. intros k Hk. rewrite has_pick, get_pick.
  rewrite (bool_decide_eq_true_2 _ Hk), decide_True by done. done.
Qed.

End JsFacts.
Import JsFacts.

(* ===================================================================== *)
(** * Facts about the filter *)
(* ===================================================================== *)

Module FilterFacts.

(** [filterNode_with] in the shape of the source: project the four
    properties, then filter [packageInfo.dependencies] when it is truthy. *)
Lemma filterNode_with_eq rec packageInfo :
  filterNode_with rec packageInfo =
    match packageInfo with
    | VUndefined | VNull => None
    | _ =>
        let requiredInfo :=
          pick packageInfo LOCKED_DEPENDENCIES_REQUIRED_PROPERTIES in
        if truthy (get packageInfo "dependencies") then
          d' ← rec (get packageInfo "dependencies");
          Some (VObj (set_prop requiredInfo "dependencies" d'))
        else Some (VObj requiredInfo)
    end.
Proof.
  destruct packageInfo as [| | | | |elems|props]; try done.
  unfold filterNode_with.
  generalize (pick (VObj props) LOCKED_DEPENDENCIES_REQUIRED_PROPERTIES).
  intros requiredInfo. cbn [get].
  induction props as [|[k d] props IH]; [done|].
  cbn [own]. destruct (String.eqb k "dependencies"); [done|apply IH].
Qed.


Lemma filterTree_obj_eq props :
  filterTree (VObj props) = VObj <$> mapM filterEntry props.
Proof.
  cbn [filterTree]. f_equal.
  induction props as [|[k v] props IH]; [done|].
  rewrite IH. cbn [mapM].
  change (filterEntry (k, v)) with (pair k <$> filterNode_with filterTree v).
  destruct (filterNode_with filterTree v); [|done]. cbn.
  by destruct (mapM filterEntry props).
Qed.

Lemma filterTree_arr_eq elems :
  filterTree (VArr elems) = VObj <$> mapM filterEntry (entries (VArr elems)).
Proof.
  cbn [filterTree entries]. f_equal.
  change (λ i x, (index_key i, x)) with (λ i (x : value), (index_key (0 + i), x)).
  generalize 0. induction elems as [|v elems IH]; intros i; [done|].
  rewrite IH. cbn [imap mapM]. rewrite Nat.add_0_r.
  change (filterEntry (index_key i, v))
    with (pair (index_key i) <$> filterNode_with filterTree v).
  destruct (filterNode_with filterTree v); [|done]. cbn.
  assert (imap ((λ j (x : value), (index_key (i + j), x)) ∘ S) elems
          = imap (λ j (x : value), (index_key (S (i + j)), x)) elems) as ->;
    [|done].
  apply imap_ext. intros j x _. cbn. by rewrite Nat.add_succ_r.
Qed.

Lemma mapM_filterEntry_const (g : value → value) (l : object) :
  Forall (λ kv, filterNode kv.2 = Some (g kv.2)) l →
  mapM filterEntry l = Some (prod_map id g <$> l).
Proof.
  induction 1 as [|[k v] l Hv _ IH]; [done|].
  cbn [mapM]. change (filterEntry (k, v)) with (pair k <$> filterNode v).
  cbn [fst snd] in *. rewrite Hv, IH. done.
Qed.

Lemma entries_VStr_chars s kv :
  kv ∈ entries (VStr s) → ∃ c, kv.2 = VStr c.
Proof.
  cbn [entries]. intros (i & x & -> & Hx)%elem_of_lookup_imap.
  apply list_elem_of_lookup_2 in Hx. cbn [snd]. clear i.
  induction s as [|a s IH]; cbn [chars] in Hx.
  - by apply elem_of_nil in Hx.
  - apply elem_of_cons in Hx as [->|Hx]; eauto.
Qed.

Lemma filterTree_str_eq s :
  filterTree (VStr s) = VObj <$> mapM filterEntry (entries (VStr s)).
Proof.
  cbn [filterTree]. unfold mapValues.
  rewrite (mapM_filterEntry_const
             (λ c, VObj (pick c LOCKED_DEPENDENCIES_REQUIRED_PROPERTIES)));
    [done|].
  apply Forall_forall. intros kv [c ->]%entries_VStr_chars. done.
Qed.

(** One equation for every input: [filterTree] maps the iteratee over the
    own enumerable properties of its argument. *)
Lemma filterTree_eq t :
  filterTree t = VObj <$> mapM filterEntry (entries t).
Proof.
  destruct t; try done.
  - apply filterTree_str_eq.
  - apply filterTree_arr_eq.
  - apply filterTree_obj_eq.
Qed.

Lemma filterNode_eq packageInfo :
  filterNode packageInfo =
    match packageInfo with
    | VUndefined | VNull => None
    | _ =>
        let requiredInfo :=
          pick packageInfo LOCKED_DEPENDENCIES_REQUIRED_PROPERTIES in
        if truthy (get packageInfo "dependencies") then
          d' ← filterTree (get packageInfo "dependencies");
          Some (VObj (set_prop requiredInfo "dependencies" d'))
        else Some (VObj requiredInfo)
    end.
Proof. apply filterNode_with_eq. Qed.

Lemma filterTree_Some_obj t t' :
  filterTree t = Some t' →
  ∃ rs, t' = VObj rs ∧ Forall2 (λ kv y, filterEntry kv = Some y) (entries t) rs.
Proof.
  rewrite filterTree_eq. destruct (mapM filterEntry (entries t)) as [rs|] eqn:E;
    [|done].
  intros [= <-]. exists rs. split; [done|]. by apply mapM_Some.
Qed.

End FilterFacts.
Import FilterFacts.

(* ===================================================================== *)
(** * Properties of the filter *)
(* ===================================================================== *)

Module FilterProps.

Lemma filterNode_eq_nonnull v :
  v ≠ VUndefined → v ≠ VNull →
  filterNode v =
    if truthy (get v "dependencies") then
      d' ← filterTree (get v "dependencies");
      Some (VObj (set_prop (pick v LOCKED_DEPENDENCIES_REQUIRED_PROPERTIES)
                    "dependencies" d'))
    else Some (VObj (pick v LOCKED_DEPENDENCIES_REQUIRED_PROPERTIES)).
Proof. intros. rewrite filterNode_eq. by destruct v. Qed.

Lemma filterNode_Some v r :
  filterNode v = Some r →
  (truthy (get v "dependencies") = true ∧
   ∃ d', filterTree (get v "dependencies") = Some d' ∧
         r = VObj (set_prop (pick v LOCKED_DEPENDENCIES_REQUIRED_PROPERTIES)
                     "dependencies" d'))
  ∨ (truthy (get v "dependencies") = false ∧
     r = VObj (pick v LOCKED_DEPENDENCIES_REQUIRED_PROPERTIES)).
Proof.
  intros H.
  assert (v ≠ VUndefined ∧ v ≠ VNull) as [??].
  { rewrite filterNode_eq in H. by destruct v. }
  rewrite filterNode_eq_nonnull in H by done.
  destruct (truthy (get v "dependencies")).
  - left. split; [done|].
    destruct (filterTree (get v "dependencies")) as [d'|]; [|done].
    injection H as <-. eauto.
  - right. split; [done|]. by injection H as <-.
Qed.

Lemma filterTree_Some_truthy t t' : filterTree t = Some t' → truthy t' = true.
Proof. by intros (rs & -> & _)%filterTree_Some_obj. Qed.

Lemma dependencies_not_required :
  "dependencies" ∉ LOCKED_DEPENDENCIES_REQUIRED_PROPERTIES.
Proof.
  unfold LOCKED_DEPENDENCIES_REQUIRED_PROPERTIES.
  rewrite !elem_of_cons, elem_of_nil. by intros [?|[?|[?|[?|?]]]].
Qed.

Lemma pick_set_prop_dependencies v d :
  pick (VObj (set_prop (pick v LOCKED_DEPENDENCIES_REQUIRED_PROPERTIES)
                "dependencies" d))
    LOCKED_DEPENDENCIES_REQUIRED_PROPERTIES
  = pick v LOCKED_DEPENDENCIES_REQUIRED_PROPERTIES.
Proof.
  rewrite <-(pick_idem v) at 2. apply pick_ext. intros k Hk.
  assert ("dependencies" ≠ k) as Hne.
  { intros <-. by apply dependencies_not_required. }
  simpl. by rewrite own_set_prop_ne.
Qed.

Lemma get_pick_dependencies v :
  get (VObj (pick v LOCKED_DEPENDENCIES_REQUIRED_PROPERTIES)) "dependencies"
  = VUndefined.
Proof. by rewrite get_pick. Qed.

Lemma filterNode_fixed v r :
  (∀ d', filterTree (get v "dependencies") = Some d' →
         filterTree d' = Some d') →
  filterNode v = Some r → filterNode r = Some r.
Proof.
  intros IH [(Ht & d' & Hd & ->)|(Hf & ->)]%filterNode_Some.
  - rewrite filterNode_eq_nonnull by done.
    cbn [get]. rewrite own_set_prop_eq.
    change (default VUndefined (Some d')) with d'.
    rewrite (filterTree_Some_truthy _ _ Hd), (IH _ Hd).
    by rewrite pick_set_prop_dependencies.
  - rewrite filterNode_eq_nonnull by done.
    by rewrite get_pick_dependencies, pick_idem.
Qed.

Lemma Forall_entries_VArr (P : value → Prop) elems :
  Forall P elems → Forall (λ kv, P kv.2) (entries (VArr elems)).
Proof.
  rewrite !Forall_forall. intros H kv (i & x & -> & Hx)%elem_of_lookup_imap.
  apply H. by eapply list_elem_of_lookup_2.
Qed.

Lemma Forall_entries_VStr (P : value → Prop) s :
  (∀ c, P (VStr c)) → Forall (λ kv, P kv.2) (entries (VStr s)).
Proof.
  intros H. apply Forall_forall. intros kv [c ->]%entries_VStr_chars. apply H.
Qed.

(** Induction along the recursion of [filterTree]: a property [PT] of trees
    and a property [PN] of nodes hold everywhere when [PT] follows from [PN]
    on the entries and [PN] from [PT] on the [dependencies] field. *)
Lemma filter_ind (PT PN : value → Prop) :
  (∀ t, Forall (λ kv, PN kv.2) (entries t) → PT t) →
  (∀ v, PT (get v "dependencies") → PN v) →
  ∀ t, PT t ∧ PN t.
Proof.
  intros HT HN.
  assert (PT VUndefined) as Hu by (apply HT; constructor).
  assert (∀ c, PN (VStr c)) as Hs by (intros c; by apply HN).
  induction t as [| | | | |elems IH|props IH] using value_ind_deep;
    (split; [apply HT|apply HN]); try done; try by constructor.
  - by apply Forall_entries_VStr.
  - apply Forall_entries_VArr. eapply Forall_impl; [exact IH|]. by intros v [_ ?].
  - cbn [entries]. eapply Forall_impl; [exact IH|]. by intros v [_ ?].
  - cbn [get]. destruct (own props "dependencies") as [d|] eqn:E; [|done].
    apply own_Some_elem_of in E. rewrite Forall_forall in IH.
    by apply (IH _ E).
Qed.

Lemma filterTree_fixed_entries t t' :
  Forall (λ kv, ∀ r, filterNode kv.2 = Some r → filterNode r = Some r)
    (entries t) →
  filterTree t = Some t' → filterTree t' = Some t'.
Proof.
  intros Hall (rs & -> & Hrs)%filterTree_Some_obj.
  rewrite filterTree_obj_eq.
  assert (mapM filterEntry rs = Some rs) as ->; [|done].
  apply mapM_Some.
  induction Hrs as [|[k v] y l rs Hy _ IH]; [done|].
  apply Forall_cons in Hall as [Hv Hall].
  unfold filterEntry in Hy. cbn [fst snd] in *.
  destruct (filterNode v) as [r|] eqn:Hr; [|done]. injection Hy as <-.
  constructor; [|by apply IH].
  unfold filterEntry. cbn [fst snd]. by rewrite (Hv r).
Qed.

Lemma filterTree_fixed_both t :
  (∀ t', filterTree t = Some t' → filterTree t' = Some t')
  ∧ (∀ r, filterNode t = Some r → filterNode r = Some r).
Proof.
  revert t. apply filter_ind.
  - intros t Hall t'. by apply filterTree_fixed_entries.
  - intros v IH r. by apply filterNode_fixed.
Qed.

(** ** Outputs are trees of PackageRecords *)

Lemma package_record_pick v :
  package_record (VObj (pick v LOCKED_DEPENDENCIES_REQUIRED_PROPERTIES)) = true.
Proof.
  cbn [package_record package_record_with]. apply forallb_forall.
  intros [k x] Hin%list_elem_of_In. apply pick_keys in Hin. cbn [fst snd] in *.
  apply andb_true_iff. split.
  - apply bool_decide_eq_true_2.
    unfold LOCKED_DEPENDENCIES_REQUIRED_PROPERTIES_WITH_DEPS.
    apply elem_of_app. by left.
  - destruct (String.eqb_spec k "dependencies") as [->|]; [|done].
    by apply dependencies_not_required in Hin.
Qed.

Lemma package_record_set_dependencies v d :
  package_tree d = true →
  package_record
    (VObj (set_prop (pick v LOCKED_DEPENDENCIES_REQUIRED_PROPERTIES)
             "dependencies" d)) = true.
Proof.
  intros Hd. pose proof (package_record_pick v) as Hp.
  cbn [package_record package_record_with] in *.
  rewrite forallb_forall in Hp. apply forallb_forall.
  intros f [Hf| ->]%list_elem_of_In%set_prop_elem_of.
  - apply Hp. by apply list_elem_of_In.
  - cbn [fst snd]. rewrite String.eqb_refl. by rewrite Hd.
Qed.

Lemma filterNode_record v r :
  (∀ d', filterTree (get v "dependencies") = Some d' → package_tree d' = true) →
  filterNode v = Some r → package_record r = true.
Proof.
  intros IH [(Ht & d' & Hd & ->)|(Hf & ->)]%filterNode_Some.
  - apply package_record_set_dependencies. by apply IH.
  - apply package_record_pick.
Qed.

Lemma filterTree_tree_entries t t' :
  Forall (λ kv, ∀ r, filterNode kv.2 = Some r → package_record r = true)
    (entries t) →
  filterTree t = Some t' → package_tree t' = true.
Proof.
  intros Hall (rs & -> & Hrs)%filterTree_Some_obj.
  cbn [package_tree]. apply forallb_forall. intros y Hy%list_elem_of_In.
  induction Hrs as [|[k v] y' l rs Hy' _ IH]; [by apply elem_of_nil in Hy|].
  apply Forall_cons in Hall as [Hv Hall].
  apply elem_of_cons in Hy as [->|Hy]; [|by apply IH].
  unfold filterEntry in Hy'. cbn [fst snd] in *.
  destruct (filterNode v) as [r|] eqn:Hr; [|done]. injection Hy' as <-.
  by apply Hv.
Qed.

Lemma filterTree_tree_both t :
  (∀ t', filterTree t = Some t' → package_tree t' = true)
  ∧ (∀ r, filterNode t = Some r → package_record r = true).
Proof.
  revert t. apply filter_ind.
  - intros t Hall t'. by apply filterTree_tree_entries.
  - intros v IH r. by apply filterNode_record.
Qed.

Lemma filterTree_package_tree t t' :
  filterTree t = Some t' → package_tree t' = true.
Proof. apply filterTree_tree_both. Qed.

End FilterProps.
Import FilterProps.

(* ===================================================================== *)
(** * The filter, node by node *)
(* ===================================================================== *)

Module FilterNodes.

Lemma own_filtered (l rs : object) name r :
  Forall2 (λ kv y, filterEntry kv = Some y) l rs →
  own rs name = Some r →
  ∃ v, own l name = Some v ∧ filterNode v = Some r.
Proof.
  induction 1 as [|[k v] y l rs Hy _ IH]; [done|].
  unfold filterEntry in Hy. cbn [fst snd] in Hy.
  destruct (filterNode v) as [r'|] eqn:Hr; [|done]. injection Hy as <-.
  cbn [own]. destruct (String.eqb k name).
  - intros [= <-]. eauto.
  - apply IH.
Qed.

Lemma filterTree_keys t t' : filterTree t = Some t' → keys t' = keys t.
Proof.
  intros (rs & -> & Hrs)%filterTree_Some_obj. unfold keys. cbn [entries].
  induction Hrs as [|[k v] y l rs Hy _ IH]; [done|].
  unfold filterEntry in Hy. cbn [fst snd] in Hy.
  destruct (filterNode v); [|done]. injection Hy as <-.
  cbn. by rewrite IH.
Qed.

Lemma falsy_entries v : truthy v = false → entries v = [].
Proof.
  destruct v as [| |b|n|s|elems|props]; try done.
  cbn. destruct s; [done|]. by cbn.
Qed.

Lemma has_set_prop_eq o k v : has (VObj (set_prop o k v)) k = true.
Proof. cbn. rewrite own_set_prop_eq. by apply bool_decide_eq_true_2. Qed.

Lemma get_set_prop_eq o k v : get (VObj (set_prop o k v)) k = v.
Proof. cbn. by rewrite own_set_prop_eq. Qed.

(** What the iteratee does with the [dependencies] field of a node. *)
Lemma filterNode_dependencies v r :
  filterNode v = Some r →
  has r "dependencies" = truthy (get v "dependencies")
  ∧ (if truthy (get v "dependencies")
     then filterTree (get v "dependencies") = Some (get r "dependencies")
     else get r "dependencies" = VUndefined)
  ∧ keys (get r "dependencies") = keys (get v "dependencies").
Proof.
  intros [(Ht & d' & Hd & ->)|(Hf & ->)]%filterNode_Some.
  - rewrite Ht, has_set_prop_eq, get_set_prop_eq.
    split_and!; [done..|]. by apply filterTree_keys.
  - rewrite Hf, has_pick, get_pick_dependencies.
    split_and!; [done..|]. unfold keys. by rewrite (falsy_entries _ Hf).
Qed.

Lemma node_at_filtered path : ∀ t t' r,
  filterTree t = Some t' →
  node_at t' path = Some r →
  ∃ v, node_at t path = Some v ∧ filterNode v = Some r.
Proof.
  induction path as [|name path IH]; intros t t' r Ht Hr; [done|].
  destruct (filterTree_Some_obj _ _ Ht) as (rs & -> & Hrs).
  cbn [node_at entries] in *.
  destruct (own rs name) as [node'|] eqn:Hown; [|done].
  destruct (own_filtered _ _ _ _ Hrs Hown) as (v & -> & Hv).
  cbn [mbind option_bind] in *.
  destruct path as [|name' path].
  - injection Hr as <-. eauto.
  - destruct (filterNode_dependencies _ _ Hv) as (_ & Hd & _).
    destruct (truthy (get v "dependencies")).
    + by apply (IH _ _ _ Hd).
    + rewrite Hd in Hr. done.
Qed.

End FilterNodes.
Import FilterNodes.

(* ===================================================================== *)
(** * Source selection and the payload *)
(* ===================================================================== *)

Module AuditFacts.



Lemma getNpmLockDependencies_missing h name :
  readFile h (path_resolve h name) = None →
  getNpmLockDependencies h name = Throw IOError.
Proof. unfold getNpmLockDependencies. by intros ->. Qed.

Lemma getNpmLockDependencies_unparsable h name contents :
  readFile h (path_resolve h name) = Some contents →
  JSON_parse h contents = None →
  getNpmLockDependencies h name = Throw SyntaxError.
Proof. unfold getNpmLockDependencies. by intros -> ->. Qed.

Lemma getNpmLockDependencies_filtered h name contents lock tree :
  readFile h (path_resolve h name) = Some contents →
  JSON_parse h contents = Some lock →
  lock ≠ VUndefined → lock ≠ VNull →
  filterTree (get lock "dependencies") = Some tree →
  getNpmLockDependencies h name = Done tree.
Proof.
  unfold getNpmLockDependencies. intros -> -> Hu Hn Ht.
  destruct lock; try done; by rewrite Ht.
Qed.

(** A lock file is either loaded completely or not at all. *)
Lemma getNpmLockDependencies_Done h name tree :
  getNpmLockDependencies h name = Done tree →
  ∃ contents lock,
    readFile h (path_resolve h name) = Some contents
    ∧ JSON_parse h contents = Some lock
    ∧ filterTree (get lock "dependencies") = Some tree.
Proof.
  unfold getNpmLockDependencies.
  destruct (readFile h _) as [contents|] eqn:Hr; [|done].
  destruct (JSON_parse h contents) as [lock|] eqn:Hp; [|done].
  intros H. exists contents, lock. split_and!; [done..|].
  destruct lock; try done; destruct (filterTree _) as [t|]; by simplify_eq.
Qed.

Lemma getNpmLockDependencies_terminates h name :
  getNpmLockDependencies h name ≠ OutOfFuel.
Proof.
  unfold getNpmLockDependencies.
  destruct (readFile h _) as [contents|]; [|done].
  destruct (JSON_parse h contents) as [lock|]; [|done].
  destruct lock; try done; by destruct (filterTree _).
Qed.

End AuditFacts.
Import AuditFacts.

(* ===================================================================== *)
(** * Reasoning about computations *)
(* ===================================================================== *)

Module CompFacts.



Lemma run_ret {A} (a b : A) s s' : run (mret a) s b s' ↔ a = b ∧ s = s'.
Proof. unfold run, mret, M_ret. split; [by intros [= -> ->]|by intros [-> ->]]. Qed.

Lemma run_bind {A B} (m : M A) (f : A → M B) s b s'' :
  run (m ≫= f) s b s'' ↔ ∃ a s', run m s a s' ∧ run (f a) s' b s''.
Proof.
  unfold run, mbind, M_bind. split.
  - destruct (m s) as [[a s']| |]; [|done..]. eauto.
  - by intros (a & s' & -> & ?).
Qed.

Lemma run_throw {A} e s (a : A) s' : ¬ run (throw e) s a s'.
Proof. done. Qed.

Lemma run_out_of_fuel {A} s (a : A) s' : ¬ run out_of_fuel s a s'.
Proof. done. Qed.

Lemma run_gets {A} (f : state → A) s a s' : run (gets f) s a s' ↔ a = f s ∧ s' = s.
Proof. unfold run, gets. split; [by intros [= <- <-]|by intros [-> ->]]. Qed.

Lemma run_modify f s u s' : run (modify f) s u s' ↔ s' = f s.
Proof.
  unfold run, modify. destruct u. split; [by intros [= <-]|by intros ->].
Qed.

Lemma run_lift {A} e (x : option A) s a s' :
  run (lift e x) s a s' ↔ x = Some a ∧ s = s'.
Proof.
  destruct x as [a'|]; cbn [lift].
  - rewrite run_ret. split; [by intros [-> ->]|by intros [[= ->] ->]].
  - split; [done|by intros [? _]].
Qed.

Lemma run_prop v k s a s' :
  run (prop v k) s a s' ↔ v ≠ VUndefined ∧ v ≠ VNull ∧ a = get v k ∧ s = s'.
Proof.
  destruct v; cbn [prop]; rewrite ?run_ret;
    (split; [try done; by intros [<- <-]|try by intros (? & ? & -> & ->)]);
    by intros (? & ? & _).
Qed.

Lemma run_Object_keys v s a s' :
  run (Object_keys v) s a s' ↔
    v ≠ VUndefined ∧ v ≠ VNull ∧ a = keys v ∧ s = s'.
Proof.
  destruct v; cbn [Object_keys]; rewrite ?run_ret;
    (split; [try done; by intros [<- <-]|try by intros (? & ? & -> & ->)]);
    by intros (? & ? & _).
Qed.

(** An invariant of a loop over a list. *)
Lemma foldM_ind {A B} (J : B → state → Prop) (f : A → B → M B) xs acc s b s' :
  run (foldM f xs acc) s b s' →
  J acc s →
  (∀ x acc s1 acc' s2,
     x ∈ xs → J acc s1 → run (f x acc) s1 acc' s2 → J acc' s2) →
  J b s'.
Proof.
  revert acc s. induction xs as [|x xs IH]; intros acc s; cbn [foldM].
  - by intros [-> ->]%run_ret.
  - intros (acc' & s1 & Hx & Hrest)%run_bind HJ Hstep.
    apply (IH _ _ Hrest).
    + apply (Hstep x acc s); [apply list_elem_of_here|done..].
    + intros y ????? . apply Hstep. by apply list_elem_of_further.
Qed.

(** The same, with the elements already visited. *)
Lemma foldM_ind_visited {A B} (J : list A → B → state → Prop)
    (f : A → B → M B) xs acc s b s' :
  run (foldM f xs acc) s b s' →
  J [] acc s →
  (∀ visited x acc s1 acc' s2,
     J visited acc s1 → run (f x acc) s1 acc' s2 → J (visited ++ [x]) acc' s2) →
  J xs b s'.
Proof.
  intros Hrun HJ Hstep.
  enough (∀ pre, J pre acc s → J (pre ++ xs) b s') as H by exact (H [] HJ).
  clear HJ. revert acc s Hrun.
  induction xs as [|x xs IH]; intros acc s Hrun pre HJ; cbn [foldM] in Hrun.
  - apply run_ret in Hrun as [<- <-]. by rewrite app_nil_r.
  - apply run_bind in Hrun as (acc' & s1 & Hx & Hrest).
    rewrite (assoc_L _ pre [x] xs : pre ++ x :: xs = _).
    apply (IH _ _ Hrest). by eapply Hstep.
Qed.

Lemma forEach_ind {A B} (J : state → Prop) (f : A → M B) xs s u s' :
  run (forEach f xs) s u s' →
  J s →
  (∀ x s1 b s2, x ∈ xs → J s1 → run (f x) s1 b s2 → J s2) →
  J s'.
Proof.
  intros Hrun HJ Hstep. unfold forEach in Hrun.
  apply (foldM_ind (λ _, J) _ _ _ _ _ _ Hrun HJ).
  intros x [] s1 [] s2 Hx HJ1 (b & s1' & Hf & [_ ->]%run_ret)%run_bind.
  by apply (Hstep x s1 b).
Qed.

(** An invariant of [mapValuesM]: [J] relates the properties produced so far
    to the state. *)
Lemma mapValuesM_ind (J : object → state → Prop) f o s res s' :
  run (mapValuesM f o) s res s' →
  J [] s →
  (∀ done k v s1 s2,
     k ∈ o.*1 → J done s1 → run (f k) s1 v s2 → J (done ++ [(k, v)]) s2) →
  J res s'.
Proof.
  intros Hrun HJ Hstep.
  enough (∀ pre, J pre s →
            (∀ done k v s1 s2, k ∈ o.*1 → J done s1 → run (f k) s1 v s2 →
                               J (done ++ [(k, v)]) s2) →
            J (pre ++ res) s') as H by exact (H [] HJ Hstep).
  clear HJ Hstep. revert s res Hrun.
  induction o as [|[k x] o IH]; intros s res Hrun pre HJ Hstep;
    cbn [mapValuesM] in Hrun.
  - apply run_ret in Hrun as [<- <-]. by rewrite app_nil_r.
  - apply run_bind in Hrun as (v & s1 & Hv & Hrun).
    apply run_bind in Hrun as (rest & s2 & Hrest & [<- <-]%run_ret).
    rewrite (assoc_L _ pre [(k, v)] rest : pre ++ (k, v) :: rest = _).
    apply (IH _ _ Hrest).
    + apply (Hstep pre k v s s1); [apply list_elem_of_here|done..].
    + intros done k' v' s3 s4 Hk'. apply Hstep. by apply list_elem_of_further.
Qed.

Lemma mapValuesM_keys f o s res s' :
  run (mapValuesM f o) s res s' → res.*1 = o.*1.
Proof.
  revert s res. induction o as [|[k x] o IH]; intros s res; cbn [mapValuesM].
  - by intros [<- _]%run_ret.
  - intros (v & s1 & Hv & (rest & s2 & Hrest & [<- <-]%run_ret)%run_bind)%run_bind.
    cbn. f_equal. by eapply IH.
Qed.

(** ** Termination *)

Lemma terminates_bind {A B} (m : M A) (f : A → M B) s :
  terminates m s →
  (∀ a s', run m s a s' → terminates (f a) s') →
  terminates (m ≫= f) s.
Proof.
  unfold terminates, run, mbind, M_bind. intros Hm Hf.
  destruct (m s) as [[a s']| |]; [by apply Hf|done..].
Qed.

Lemma terminates_ret {A} (a : A) s : terminates (mret a) s.
Proof. done. Qed.

Lemma terminates_lift {A} e (x : option A) s : terminates (lift e x) s.
Proof. by destruct x. Qed.

Lemma terminates_prop v k s : terminates (prop v k) s.
Proof. by destruct v. Qed.

Lemma terminates_Object_keys v s : terminates (Object_keys v) s.
Proof. by destruct v. Qed.

Lemma terminates_foldM {A B} (f : A → B → M B) xs acc s :
  (∀ x acc s, x ∈ xs → terminates (f x acc) s) →
  terminates (foldM f xs acc) s.
Proof.
  revert acc s. induction xs as [|x xs IH]; intros acc s H; cbn [foldM]; [done|].
  apply terminates_bind.
  - apply H, list_elem_of_here.
  - intros acc' s' _. apply IH. intros y ???. by apply H, list_elem_of_further.
Qed.

Lemma terminates_forEach {A B} (f : A → M B) xs s :
  (∀ x s, x ∈ xs → terminates (f x) s) →
  terminates (forEach f xs) s.
Proof.
  intros H. apply terminates_foldM. intros x [] s1 Hx.
  apply terminates_bind; [by apply H|done].
Qed.

Lemma terminates_mapValuesM f o s :
  (∀ k s, k ∈ o.*1 → terminates (f k) s) →
  terminates (mapValuesM f o) s.
Proof.
  revert s. induction o as [|[k x] o IH]; intros s H; cbn [mapValuesM]; [done|].
  apply terminates_bind; [apply H, list_elem_of_here|].
  intros v s1 _. apply terminates_bind; [|done].
  apply IH. intros k' s2 Hk'. by apply H, list_elem_of_further.
Qed.

(** ** More recursion depth *)


Lemma refines_refl {A} (m : M A) : refines m m.
Proof. intros s. by right. Qed.

Lemma refines_trans {A} (m1 m2 m3 : M A) :
  refines m1 m2 → refines m2 m3 → refines m1 m3.
Proof.
  intros H12 H23 s. destruct (H12 s) as [?|H]; [by left|].
  rewrite H. apply H23.
Qed.

Lemma refines_bind {A B} (m1 m2 : M A) (f1 f2 : A → M B) :
  refines m1 m2 → (∀ a, refines (f1 a) (f2 a)) →
  refines (m1 ≫= f1) (m2 ≫= f2).
Proof.
  intros Hm Hf s. unfold mbind, M_bind.
  destruct (Hm s) as [->|<-]; [by left|].
  destruct (m1 s) as [[a s']| |]; [apply Hf|by right|by left].
Qed.

Lemma refines_foldM {A B} (f1 f2 : A → B → M B) xs acc :
  (∀ x acc, refines (f1 x acc) (f2 x acc)) →
  refines (foldM f1 xs acc) (foldM f2 xs acc).
Proof.
  intros Hf. revert acc. induction xs as [|x xs IH]; intros acc; cbn [foldM].
  - apply refines_refl.
  - apply refines_bind; [apply Hf|apply IH].
Qed.

Lemma refines_forEach {A B} (f1 f2 : A → M B) xs :
  (∀ x, refines (f1 x) (f2 x)) → refines (forEach f1 xs) (forEach f2 xs).
Proof.
  intros Hf. apply refines_foldM. intros x [].
  apply refines_bind; [apply Hf|intros; apply refines_refl].
Qed.

Lemma refines_mapValuesM f1 f2 o :
  (∀ k, refines (f1 k) (f2 k)) → refines (mapValuesM f1 o) (mapValuesM f2 o).
Proof.
  intros Hf. induction o as [|[k x] o IH]; cbn [mapValuesM].
  - apply refines_refl.
  - apply refines_bind; [apply Hf|]. intros v.
    apply refines_bind; [apply IH|intros; apply refines_refl].
Qed.

End CompFacts.
Import CompFacts.

(* ===================================================================== *)
(** * The scanner, step by step *)
(* ===================================================================== *)

Module ScanSteps.
Section steps.

Context (h : host).

Abbreviation WITH_DEPS := LOCKED_DEPENDENCIES_REQUIRED_PROPERTIES_WITH_DEPS.

(** The three outcomes of one turn of the classification loop. *)
Lemma classify_run depPackageDir subDepsInfo subDep dependencies s dependencies' s' :
  run (classify h depPackageDir subDepsInfo subDep dependencies) s dependencies' s' →
  ∃ subDepInfo subDepDir,
    own subDepsInfo subDep = Some subDepInfo
    ∧ get subDepInfo "packageDir" = VStr subDepDir
    ∧ ((dependencies' = assign dependencies subDep (VObj (pick subDepInfo WITH_DEPS))
        ∧ s' = s)
       ∨ (dependencies' = dependencies
          ∧ own (topLevelDeps s) subDep = None
          ∧ s' = set_topLevelDeps
                   (set_prop (topLevelDeps s) subDep
                      (VObj (pick subDepInfo WITH_DEPS))) s)
       ∨ (dependencies' = dependencies ∧ s' = s)).
Proof.
  unfold classify.
  destruct (own subDepsInfo subDep) as [subDepInfo|]; [|done].
  destruct (get subDepInfo "packageDir") as [| | | |subDepDir| |] eqn:Hdir;
    try done.
  intros (top & s1 & [-> ->]%run_gets & Hrun)%run_bind.
  exists subDepInfo, subDepDir. split_and!; [done..|].
  destruct (isLocalDep subDepDir depPackageDir).
  { apply run_ret in Hrun as [<- <-]. by left. }
  destruct (unset (topLevelDeps s) subDep) eqn:Htop.
  - apply unset_true in Htop as [Hnone Hown%not_inherited_proto].
    rewrite andb_true_r in Hrun.
    destruct (isTopLevelDep h subDepDir).
    + apply run_bind in Hrun as ([] & s2 & ->%run_modify & [<- <-]%run_ret).
      right; left. by rewrite assign_set_prop.
    + destruct (indexOf subDepDir (packageDir h) =? 0)%Z;
        apply run_ret in Hrun as [<- <-]; auto.
  - rewrite andb_false_r in Hrun.
    destruct (indexOf subDepDir (packageDir h) =? 0)%Z;
      apply run_ret in Hrun as [<- <-]; auto.
Qed.

Lemma collectSubDeps_run rec depPackageDir declared s found s' :
  run (collectSubDeps h rec depPackageDir declared) s found s' →
  (truthy declared = false ∧ found = (None, None) ∧ s' = s)
  ∨ (truthy declared = true
     ∧ ∃ subDepsInfo s1 dependencies,
         run (mapValuesM (rec depPackageDir) (entries declared)) s subDepsInfo s1
         ∧ run (foldM (classify h depPackageDir subDepsInfo) (keys declared) [])
             s1 dependencies s'
         ∧ found = (Some (mapValues (λ info, get info "version") (VObj subDepsInfo)),
                    if bool_decide (length dependencies = 0) then None
                    else Some dependencies)).
Proof.
  unfold collectSubDeps. destruct (truthy declared).
  - intros (subDepsInfo & s1 & Hmap & Hrun)%run_bind.
    apply run_bind in Hrun as (dependencies & s2 & Hfold & [<- <-]%run_ret).
    right. split; [done|]. by exists subDepsInfo, s1, dependencies.
  - intros [<- <-]%run_ret. by left.
Qed.

Lemma collect_run rec path depsProp s info s' :
  run (collectDepPackageInfo_with h rec path depsProp) s info s' →
  ∃ depPackageJson found,
    modules h !! path = Some depPackageJson
    ∧ run (collectSubDeps h rec (path_dirname h path)
             (get depPackageJson depsProp))
        (record_resolution path s) found s'
    ∧ info = depPackageInfo_of (path_dirname h path) depPackageJson
               (devFlag s') found.1 found.2.
Proof.
  unfold collectDepPackageInfo_with.
  intros ([] & s0 & ->%run_modify & Hrun)%run_bind.
  apply run_bind in Hrun as (depPackageJson & s1 & [Hm <-]%run_lift & Hrun).
  apply run_bind in Hrun as (declared & s2 & (_ & _ & -> & <-)%run_prop & Hrun).
  apply run_bind in Hrun as (found & s3 & Hsub & Hrun).
  apply run_bind in Hrun as (dev & s4 & [-> ->]%run_gets & [<- <-]%run_ret).
  by exists depPackageJson, found.
Qed.


Lemma getDep_run depth parentPackageDir packageName depsProp s info s' :
  run (getDepPackageInfo h (S depth) parentPackageDir packageName depsProp)
    s info s' →
  ∃ path,
    resolveFrom h parentPackageDir (packageName +:+ "/package.json") = Some path
    ∧ ((packageCache s !! path = Some info ∧ s' = s)
       ∨ (packageCache s !! path = None
          ∧ ∃ s1, run (collectDepPackageInfo_with h
                         (λ dir dep, getDepPackageInfo h depth dir dep "dependencies")
                         path depsProp) s info s1
                  ∧ s' = store path info s1)).
Proof.
  cbn [getDepPackageInfo].
  intros (path & s0 & [Hres <-]%run_lift & Hrun)%run_bind.
  apply run_bind in Hrun as (cache & s1 & [-> ->]%run_gets & Hrun).
  exists path. split; [done|].
  destruct (packageCache s !! path) as [cached|] eqn:Hc.
  - apply run_ret in Hrun as [<- <-]. by left.
  - right. split; [done|].
    apply run_bind in Hrun as (info' & s2 & Hcollect & Hrun).
    apply run_bind in Hrun as (cache' & s3 & [-> ->]%run_gets & Hrun).
    apply run_bind in Hrun as ([] & s4 & ->%run_modify & [<- <-]%run_ret).
    by exists s2.
Qed.

(** Induction along the mutual recursion: a relation [G] between the state
    before a call of [getDepPackageInfo], the manifest path it resolves, the
    object it returns and the state after holds of every call when it holds
    of a cache hit and is carried from the calls made by
    [collectDepPackageInfo] to the call that stores its result. *)
Lemma getDep_ind (G : string → state → value → state → Prop) :
  (∀ path s info, packageCache s !! path = Some info → G path s info s) →
  (∀ rec,
     (∀ dir dep s info s',
        run (rec dir dep) s info s' →
        ∃ path, resolveFrom h dir (dep +:+ "/package.json") = Some path
                ∧ G path s info s') →
     ∀ path s info s1,
       packageCache s !! path = None →
       run (collectDepPackageInfo_with h rec path "dependencies") s info s1 →
       G path s info (store path info s1)) →
  ∀ depth parentPackageDir packageName s info s',
    run (getDepPackageInfo h depth parentPackageDir packageName "dependencies")
      s info s' →
    ∃ path,
      resolveFrom h parentPackageDir (packageName +:+ "/package.json") = Some path
      ∧ G path s info s'.
Proof.
  intros Hhit Hmiss. induction depth as [|depth IH];
    intros parentPackageDir packageName s info s' Hrun; [done|].
  apply getDep_run in Hrun as (path & Hres & [[Hc ->]|(Hc & s1 & Hcol & ->)]).
  - exists path. split; [done|]. by apply Hhit.
  - exists path. split; [done|]. by apply (Hmiss _ IH).
Qed.

End steps.
End ScanSteps.
Import ScanSteps.

(* ===================================================================== *)
(** * The classification rule *)
(* ===================================================================== *)

Module Classification.

(** [hay.indexOf(needle) === 0] is string-prefix containment. *)
Lemma indexOf_zero_prefix hay needle :
  (indexOf hay needle =? 0)%Z = String.prefix needle hay.
Proof.
  unfold indexOf. destruct hay as [|b hay]; cbn [String.index].
  - by destruct needle.
  - destruct (String.prefix needle (String b hay)); [done|].
    by destruct (String.index 0 needle hay).
Qed.

Lemma isLocalDep_prefix depPackageDir parentPackageDir :
  isLocalDep depPackageDir parentPackageDir
  = String.prefix parentPackageDir depPackageDir.
Proof. apply indexOf_zero_prefix. Qed.

(** One turn of the loop, case by case. *)
Lemma classify_eq h depPackageDir subDepsInfo subDep dependencies s
    subDepInfo subDepDir :
  own subDepsInfo subDep = Some subDepInfo →
  get subDepInfo "packageDir" = VStr subDepDir →
  classify h depPackageDir subDepsInfo subDep dependencies s =
    let record :=
      VObj (pick subDepInfo LOCKED_DEPENDENCIES_REQUIRED_PROPERTIES_WITH_DEPS) in
    if String.prefix depPackageDir subDepDir then
      Done (assign dependencies subDep record, s)
    else if isTopLevelDep h subDepDir
            && bool_decide (own (topLevelDeps s) subDep = None)
            && negb (inherited subDep) then
      Done (dependencies,
            set_topLevelDeps (topLevelDeps s ++ [(subDep, record)]) s)
    else if String.prefix (packageDir h) subDepDir then
      Done (assign dependencies subDep record, s)
    else Done (dependencies, s).
Proof.
  intros Hown Hdir. unfold classify. rewrite Hown, Hdir.
  unfold mbind, M_bind, gets. rewrite isLocalDep_prefix, indexOf_zero_prefix.
  cbn zeta.
  destruct (String.prefix depPackageDir subDepDir); [done|].
  destruct (unset (topLevelDeps s) subDep) eqn:Htop.
  - apply unset_true in Htop as [Hnone Hinh].
    rewrite Hinh, bool_decide_eq_true_2 by done. cbn [negb].
    rewrite !andb_true_r.
    destruct (isTopLevelDep h subDepDir);
      [|by destruct (String.prefix (packageDir h) subDepDir)].
    unfold modify, mret, M_ret.
    rewrite assign_set_prop by (by apply not_inherited_proto).
    by rewrite set_prop_keys_fresh by (by apply own_None_keys).
  - assert (bool_decide (own (topLevelDeps s) subDep = None)
            && negb (inherited subDep) = false) as Hno.
    { apply unset_false in Htop as [[r Hr]| ->].
      - rewrite bool_decide_eq_false_2; [done|]. by rewrite Hr.
      - apply andb_false_r. }
    rewrite <-andb_assoc, Hno, !andb_false_r.
    by destruct (String.prefix (packageDir h) subDepDir).
Qed.

(** The four cases of one turn, for a run that returns. *)
Lemma classify_cases h depPackageDir subDepsInfo subDep dependencies s
    dependencies' s' :
  run (classify h depPackageDir subDepsInfo subDep dependencies) s dependencies' s' →
  ∃ subDepInfo subDepDir,
    own subDepsInfo subDep = Some subDepInfo
    ∧ get subDepInfo "packageDir" = VStr subDepDir
    ∧ let record :=
        VObj (pick subDepInfo LOCKED_DEPENDENCIES_REQUIRED_PROPERTIES_WITH_DEPS) in
      (String.prefix depPackageDir subDepDir = true
       ∧ dependencies' = assign dependencies subDep record ∧ s' = s)
      ∨ (String.prefix depPackageDir subDepDir = false
         ∧ isTopLevelDep h subDepDir = true
         ∧ own (topLevelDeps s) subDep = None
         ∧ inherited subDep = false
         ∧ dependencies' = dependencies
         ∧ s' = set_topLevelDeps (topLevelDeps s ++ [(subDep, record)]) s)
      ∨ (String.prefix depPackageDir subDepDir = false
         ∧ (isTopLevelDep h subDepDir = true →
            is_Some (own (topLevelDeps s) subDep) ∨ inherited subDep = true)
         ∧ ((String.prefix (packageDir h) subDepDir = true
             ∧ dependencies' = assign dependencies subDep record)
            ∨ (String.prefix (packageDir h) subDepDir = false
               ∧ dependencies' = dependencies))
         ∧ s' = s).
Proof.
  intros Hrun.
  destruct (classify_run _ _ _ _ _ _ _ _ Hrun)
    as (subDepInfo & subDepDir & Hown & Hdir & _).
  exists subDepInfo, subDepDir. split_and!; [done..|].
  unfold run in Hrun. rewrite (classify_eq _ _ _ _ _ _ _ _ Hown Hdir) in Hrun.
  cbn zeta in *.
  destruct (String.prefix depPackageDir subDepDir).
  { injection Hrun as <- <-. by left. }
  destruct (isTopLevelDep h subDepDir) eqn:Htop; cbn [andb] in Hrun.
  - destruct (own (topLevelDeps s) subDep) as [r|] eqn:Hr.
    + rewrite bool_decide_eq_false_2 in Hrun by done. cbn [andb] in Hrun.
      right; right. split_and!; [done|by intros _; left; eexists| |].
      * destruct (String.prefix (packageDir h) subDepDir);
          injection Hrun as <- <-; auto.
      * by destruct (String.prefix (packageDir h) subDepDir);
          injection Hrun as <- <-.
    + rewrite bool_decide_eq_true_2 in Hrun by done. cbn [andb] in Hrun.
      destruct (inherited subDep) eqn:Hinh; cbn [negb] in Hrun.
      * right; right. split_and!; [done|by intros _; right| |].
        -- destruct (String.prefix (packageDir h) subDepDir);
             injection Hrun as <- <-; auto.
        -- by destruct (String.prefix (packageDir h) subDepDir);
             injection Hrun as <- <-.
      * injection Hrun as <- <-. right; left. done.
  - right; right. split_and!; [done|done| |].
    + destruct (String.prefix (packageDir h) subDepDir);
        injection Hrun as <- <-; auto.
    + by destruct (String.prefix (packageDir h) subDepDir);
        injection Hrun as <- <-.
Qed.

End Classification.
Import Classification.

(* ===================================================================== *)
(** * The cache and the log of resolutions during a scan *)
(* ===================================================================== *)

Module ScanStructure.
Section structure.

Context (h : host).


Lemma closed_rtc c x y :
  closed_acyclic h c → x ∈ dom c → rtc (edge h) x y → y ∈ dom c.
Proof. intros [Hcl _] Hx Hr. induction Hr; eauto. Qed.

Lemma closed_acyclic_empty : closed_acyclic h ∅.
Proof.
  split; intros x; rewrite dom_empty_L; [intros y Hx|intros Hx];
    by apply not_elem_of_empty in Hx.
Qed.

Lemma tc_first_step {A} (R : relation A) x z :
  tc R x z → ∃ y, R x y ∧ rtc R y z.
Proof. destruct 1; eauto using rtc_refl, tc_rtc. Qed.



Lemma top_only_refl s : top_only s s.
Proof. by repeat split. Qed.

Lemma top_only_trans s1 s2 s3 : top_only s1 s2 → top_only s2 s3 → top_only s1 s3.
Proof.
  intros (Hc1 & Hr1 & Hd1 & Ht1) (Hc2 & Hr2 & Hd2 & Ht2).
  split_and!; [congruence..|]. intros n r ?. by apply Ht2, Ht1.
Qed.

Lemma grows_refl s : grows s s.
Proof.
  split_and!; [done..|]. exists []. rewrite app_nil_r.
  split_and!; [done|constructor| |constructor].
  intros p. split; [by intros ?%elem_of_nil|]. by intros [??].
Qed.

Lemma grows_trans s1 s2 s3 : grows s1 s2 → grows s2 s3 → grows s1 s3.
Proof.
  intros (Hd1 & Hc1 & Ht1 & new1 & Hr1 & Hn1 & Hi1 & Hf1)
         (Hd2 & Hc2 & Ht2 & new2 & Hr2 & Hn2 & Hi2 & Hf2).
  pose proof (subseteq_dom _ _ Hc1) as Hdom1.
  pose proof (subseteq_dom _ _ Hc2) as Hdom2.
  split_and!.
  - congruence.
  - by etrans.
  - intros n r ?. by apply Ht2, Ht1.
  - exists (new1 ++ new2). split_and!.
    + by rewrite Hr2, Hr1, (assoc_L _).
    + rewrite fmap_app. apply NoDup_app. split_and!; [done| |done].
      intros p Hp1 Hp2. apply Hi1 in Hp1 as [? _]. apply Hi2 in Hp2 as [_ ?].
      done.
    + intros p. rewrite fmap_app, elem_of_app, Hi1, Hi2. split.
      * intros [[? ?]|[? ?]]; split; auto.
      * intros [? ?]. destruct (decide (p ∈ dom (packageCache s2))); auto.
    + apply Forall_app. split; [done|]. by rewrite <-Hd1.
Qed.

Lemma top_only_grows s s' : top_only s s' → grows s s'.
Proof.
  intros (Hc & Hr & Hd & Ht). split_and!; [done|by rewrite Hc|done|].
  exists []. rewrite app_nil_r, Hc.
  split_and!; [done|constructor| |constructor].
  intros p. split; [by intros ?%elem_of_nil|]. by intros [??].
Qed.

Lemma classify_top_only depPackageDir subDepsInfo subDep dependencies s dependencies' s' :
  run (classify h depPackageDir subDepsInfo subDep dependencies) s dependencies' s' →
  top_only s s'.
Proof.
  intros (info & dir & _ & _ & [[_ ->]|[(_ & Hnone & ->)|[_ ->]]])%classify_run;
    try apply top_only_refl.
  split_and!; [done..|]. intros n r Hn. cbn.
  rewrite own_set_prop_ne; [done|]. intros ->. congruence.
Qed.

Lemma classify_loop_top_only depPackageDir subDepsInfo subDeps acc s dependencies s' :
  run (foldM (classify h depPackageDir subDepsInfo) subDeps acc) s dependencies s' →
  top_only s s'.
Proof.
  intros Hrun.
  apply (foldM_ind (λ _ s1, top_only s s1) _ _ _ _ _ _ Hrun).
  - apply top_only_refl.
  - intros x acc1 s1 acc2 s2 _ H1 Hstep.
    eapply top_only_trans; [done|]. by eapply classify_top_only.
Qed.


(** The calls that [collectDepPackageInfo] makes for the declared
    dependencies of [path]. *)
Lemma children_structure rec path declared s subDepsInfo s' :
  (∀ dir dep s info s',
     run (rec dir dep) s info s' →
     ∃ p, resolveFrom h dir (dep +:+ "/package.json") = Some p
          ∧ call_structure h p s info s') →
  (∀ dep p, dep ∈ keys declared →
            resolveFrom h (path_dirname h path) (dep +:+ "/package.json") = Some p →
            edge h path p) →
  run (mapValuesM (rec (path_dirname h path)) (entries declared)) s subDepsInfo s' →
  closed_acyclic h (packageCache s) →
  grows s s'
  ∧ closed_acyclic h (packageCache s')
  ∧ (∀ dep info, (dep, info) ∈ subDepsInfo →
       ∃ p, resolveFrom h (path_dirname h path) (dep +:+ "/package.json") = Some p
            ∧ packageCache s' !! p = Some info)
  ∧ (∀ p, p ∈ dom (packageCache s') → p ∉ dom (packageCache s) →
          tc (edge h) path p).
Proof.
  intros Hrec Hedge Hrun Hinv.
  apply (mapValuesM_ind
    (λ done s1,
       grows s s1
       ∧ closed_acyclic h (packageCache s1)
       ∧ (∀ dep info, (dep, info) ∈ done →
            ∃ p, resolveFrom h (path_dirname h path) (dep +:+ "/package.json") = Some p
                 ∧ packageCache s1 !! p = Some info)
       ∧ (∀ p, p ∈ dom (packageCache s1) → p ∉ dom (packageCache s) →
               tc (edge h) path p))
    _ _ _ _ _ Hrun).
  - split_and!; [apply grows_refl|done| |done].
    by intros dep info ?%elem_of_nil.
  - intros done k v s1 s2 Hk (Hg & Hinv1 & Hdone & Hnew) Hcall.
    apply Hrec in Hcall as (p & Hp & Hcall).
    destruct (Hcall Hinv1) as (Hg2 & Hinv2 & Hlook & Hdesc).
    split_and!.
    + by eapply grows_trans.
    + done.
    + intros dep info [Hin|[= -> ->]%list_elem_of_singleton]%elem_of_app.
      * destruct (Hdone _ _ Hin) as (p' & Hp' & Hl). exists p'. split; [done|].
        destruct Hg2 as (_ & Hsub & _).
        by eapply lookup_weaken.
      * eauto.
    + intros p' Hin Hnot.
      destruct (decide (p' ∈ dom (packageCache s1))) as [Hin1|Hnin1]; [auto|].
      eapply tc_rtc_r; [|by apply Hdesc]. apply tc_once. by eapply Hedge.
Qed.

Lemma truthy_or_no_keys v : truthy v = false → keys v = [].
Proof. intros H. unfold keys. by rewrite (falsy_entries _ H). Qed.

(** The state in which [collectDepPackageInfo] returns: the declared
    dependencies of [path] are cached, and [path] itself is not (it would be
    on a cycle). *)
Lemma collect_structure rec path s info s1 :
  (∀ dir dep s info s',
     run (rec dir dep) s info s' →
     ∃ p, resolveFrom h dir (dep +:+ "/package.json") = Some p
          ∧ call_structure h p s info s') →
  packageCache s !! path = None →
  run (collectDepPackageInfo_with h rec path "dependencies") s info s1 →
  closed_acyclic h (packageCache s) →
  grows (record_resolution path s) s1
  ∧ closed_acyclic h (packageCache s1)
  ∧ (∀ y, edge h path y → y ∈ dom (packageCache s1))
  ∧ (∀ p, p ∈ dom (packageCache s1) → p ∉ dom (packageCache s) →
          tc (edge h) path p)
  ∧ path ∉ dom (packageCache s1).
Proof.
  intros Hrec Hmiss (m & found & Hm & Hsub & ->)%collect_run Hinv.
  assert (∀ dep p, dep ∈ keys (get m "dependencies") →
            resolveFrom h (path_dirname h path) (dep +:+ "/package.json") = Some p →
            edge h path p) as Hedge.
  { intros dep p ??. by exists m, dep. }
  assert (grows (record_resolution path s) s1
          ∧ closed_acyclic h (packageCache s1)
          ∧ (∀ y, edge h path y → y ∈ dom (packageCache s1))
          ∧ (∀ p, p ∈ dom (packageCache s1) → p ∉ dom (packageCache s) →
                  tc (edge h) path p)) as (Hg & Hinv1 & Hkids & Hdesc).
  { apply collectSubDeps_run in Hsub
      as [(Hf & -> & ->)|(Ht & infos & s2 & deps & Hmap & Hloop & ->)].
    - split_and!; [apply grows_refl|done| |by intros p ??].
      intros y (m' & dep & Hm' & Hdep & _). simplify_eq.
      rewrite (truthy_or_no_keys _ Hf) in Hdep. by apply elem_of_nil in Hdep.
    - destruct (children_structure _ _ _ _ _ _ Hrec Hedge Hmap Hinv)
        as (Hg & Hinv2 & Hinfos & Hdesc).
      apply classify_loop_top_only in Hloop.
      pose proof Hloop as (Hc & _).
      split_and!.
      + eapply grows_trans; [done|]. by apply top_only_grows.
      + by rewrite Hc.
      + intros y (m' & dep & Hm' & Hdep & Hy). simplify_eq. rewrite Hc.
        assert (dep ∈ infos.*1) as ((dep' & info) & -> & Hin)%list_elem_of_fmap.
        { by rewrite (mapValuesM_keys _ _ _ _ _ Hmap). }
        destruct (Hinfos _ _ Hin) as (p & Hp & Hl). cbn in Hy. simplify_eq.
        by apply elem_of_dom_2 in Hl.
      + rewrite Hc. done. }
  split_and!; [done..|].
  intros Hin. destruct Hinv1 as [_ Hac]. apply (Hac path Hin).
  apply Hdesc; [done|]. by apply not_elem_of_dom.
Qed.

(** Storing the result of [collectDepPackageInfo]. *)
Lemma collect_store_structure rec path s info s1 :
  (∀ dir dep s info s',
     run (rec dir dep) s info s' →
     ∃ p, resolveFrom h dir (dep +:+ "/package.json") = Some p
          ∧ call_structure h p s info s') →
  packageCache s !! path = None →
  run (collectDepPackageInfo_with h rec path "dependencies") s info s1 →
  call_structure h path s info (store path info s1).
Proof.
  intros Hrec Hmiss Hrun Hinv.
  destruct (collect_structure _ _ _ _ _ Hrec Hmiss Hrun Hinv)
    as (Hg & Hinv1 & Hkids & Hdesc & Hnot).
  assert (path ∉ dom (packageCache s)) as Hnew by (by apply not_elem_of_dom).
  destruct Hg as (Hd & Hc & Ht & new & Hr & Hn & Hi & Hf). cbn in Hd, Hc, Ht, Hr, Hi, Hf.
  unfold store. split_and!.
  - split_and!; cbn; [done| |done|].
    + etrans; [done|]. apply insert_subseteq. by apply not_elem_of_dom.
    + exists ((path, devFlag s) :: new). split_and!.
      * by rewrite Hr, <-(assoc_L _).
      * cbn. apply NoDup_cons. split; [|done]. intros Hin. by apply Hi in Hin as [? _].
      * intros p. cbn.
        rewrite elem_of_cons, Hi, dom_insert_L, elem_of_union, elem_of_singleton.
        split; [intros [->|[??]]; auto|intros [[->|?] ?]; auto].
      * by constructor.
  - cbn. destruct Hinv1 as [Hcl Hac]. split.
    + intros x y. rewrite !dom_insert_L. intros [->%elem_of_singleton|Hx]%elem_of_union He.
      * apply elem_of_union_r. by apply Hkids.
      * apply elem_of_union_r. by eapply Hcl.
    + intros x. rewrite dom_insert_L. intros [->%elem_of_singleton|Hx]%elem_of_union; [|by apply Hac].
      intros (y & He & Hr')%tc_first_step. apply Hnot.
      eapply (closed_rtc (packageCache s1)); [by split| |done]. by apply Hkids.
  - cbn. apply lookup_insert_eq.
  - cbn. intros p. rewrite dom_insert_L.
    intros [->%elem_of_singleton|Hp]%elem_of_union Hp'; [done|].
    apply tc_rtc. by apply Hdesc.
Qed.

Theorem getDep_structure depth parentPackageDir packageName s info s' :
  run (getDepPackageInfo h depth parentPackageDir packageName "dependencies")
    s info s' →
  ∃ path,
    resolveFrom h parentPackageDir (packageName +:+ "/package.json") = Some path
    ∧ call_structure h path s info s'.
Proof.
  apply getDep_ind.
  - intros path s0 info0 Hhit Hinv. split_and!; [apply grows_refl|done..].
  - intros rec Hrec path s0 info0 s1 Hmiss Hcol.
    by eapply collect_store_structure.
Qed.

End structure.
End ScanStructure.
Import ScanStructure.

(* ===================================================================== *)
(** * The records built during a scan *)
(* ===================================================================== *)

Module ScanContent.
Section content.

Context (h : host).

Abbreviation WITH_DEPS := LOCKED_DEPENDENCIES_REQUIRED_PROPERTIES_WITH_DEPS.
Abbreviation record_of info := (VObj (pick info WITH_DEPS)).


Lemma content_ok_initial : content_ok h initial.
Proof.
  split; cbn; try done.
  - by intros n r ?%elem_of_nil.
  - constructor.
Qed.

Lemma content_ok_record_resolution path s :
  content_ok h s → content_ok h (record_resolution path s).
Proof.
  intros [Hdev Hrec Hdeps Htop Hnd Hdir Hedges]. split; cbn; try done.
  intros p info Hp. destruct (Hdev p info Hp) as (flag & Hin & ?).
  exists flag. split; [|done]. apply elem_of_app. by left.
Qed.

Lemma content_ok_set_devFlag b s : content_ok h s → content_ok h (set_devFlag b s).
Proof. by intros []. Qed.

Lemma edge_placed_top_app dir dependencies top extra n info :
  edge_placed h dir dependencies top n info →
  edge_placed h dir dependencies (top ++ extra) n info.
Proof.
  intros H dir_n Hdir. destruct (H dir_n Hdir) as (H1 & H2 & H3).
  split_and!; [done| |done]. intros ???. by apply own_app_is_Some, H2.
Qed.

(** Promotion to top level. *)
Lemma content_ok_set_top dir subDep q info s :
  content_ok h s →
  own (topLevelDeps s) subDep = None →
  resolveFrom h dir (subDep +:+ "/package.json") = Some q →
  packageCache s !! q = Some info →
  content_ok h (set_topLevelDeps
                (set_prop (topLevelDeps s) subDep (record_of info)) s).
Proof.
  intros [Hdev Hrec Hdeps Htop Hnd Hdir Hedges] Hnone%own_None_keys Hq Hinfo.
  split; cbn; try done; rewrite set_prop_keys_fresh by done.
  - intros n r [Hin|[= -> ->]%list_elem_of_singleton]%elem_of_app.
    + by apply Htop.
    + by exists dir, q, info.
  - rewrite fmap_app. apply NoDup_app. split_and!; [done| |apply NoDup_singleton].
    by intros x Hx ->%list_elem_of_singleton.
  - intros p info0 m n q0 info_q ?????. by eapply edge_placed_top_app, Hedges.
Qed.

(** ** The object that [collectDepPackageInfo] returns *)

Lemma depPackageInfo_of_dev dir m dev requires dependencies :
  has (depPackageInfo_of dir m dev requires dependencies) "dev" = dev
  ∧ (dev = true →
     get (depPackageInfo_of dir m dev requires dependencies) "dev" = VBool true).
Proof. by destruct dev, requires, dependencies. Qed.

Lemma depPackageInfo_of_dependencies dir m dev requires dependencies :
  get (depPackageInfo_of dir m dev requires dependencies) "dependencies"
  = match dependencies with Some d => VObj d | None => VUndefined end.
Proof. by destruct dev, requires, dependencies. Qed.

Lemma depPackageInfo_of_has_dependencies dir m dev requires dependencies :
  has (depPackageInfo_of dir m dev requires dependencies) "dependencies" = true →
  ∃ d, get (depPackageInfo_of dir m dev requires dependencies) "dependencies"
       = VObj d.
Proof. destruct dev, requires, dependencies; try done; by eexists. Qed.

Lemma depPackageInfo_of_packageDir dir m dev requires dependencies :
  get (depPackageInfo_of dir m dev requires dependencies) "packageDir" = VStr dir.
Proof. by destruct dev, requires, dependencies. Qed.

Lemma package_tree_intro (d : object) :
  (∀ n r, (n, r) ∈ d → package_record r = true) → package_tree (VObj d) = true.
Proof.
  intros H. cbn [package_tree]. apply forallb_forall.
  intros [n r] Hin%list_elem_of_In. by apply (H n r).
Qed.

Lemma package_record_of info :
  (has info "dependencies" = true → package_tree (get info "dependencies") = true) →
  package_record (record_of info) = true.
Proof.
  intros Hd. cbn [package_record package_record_with]. apply forallb_forall.
  intros [k x] Hin%list_elem_of_In.
  destruct (pick_elem_of _ _ _ Hin) as (Hk & Hhas & Hx). cbn [fst snd] in *.
  apply andb_true_iff. split; [by apply bool_decide_eq_true_2|].
  destruct (String.eqb_spec k "dependencies") as [->|]; [|done].
  rewrite Hx. by apply Hd.
Qed.

(** ** Storing a new object *)

Lemma content_ok_store path info s :
  content_ok h s →
  closed_acyclic h (packageCache s) →
  path ∉ dom (packageCache s) →
  (∀ y, edge h path y → y ∈ dom (packageCache s)) →
  (∃ flag : bool, (path, flag) ∈ resolutions s
           ∧ has info "dev" = flag
           ∧ (flag = true → get info "dev" = VBool true)) →
  (∀ n r, (n, r) ∈ entries (get info "dependencies") →
     ∃ q info',
       resolveFrom h (path_dirname h path) (n +:+ "/package.json") = Some q
       ∧ packageCache s !! q = Some info' ∧ r = record_of info') →
  (has info "dependencies" = true → ∃ d, get info "dependencies" = VObj d) →
  get info "packageDir" = VStr (path_dirname h path) →
  (∀ m n q info_q,
     modules h !! path = Some m →
     n ∈ keys (get m "dependencies") →
     resolveFrom h (path_dirname h path) (n +:+ "/package.json") = Some q →
     packageCache s !! q = Some info_q →
     edge_placed h (path_dirname h path) (entries (get info "dependencies"))
       (topLevelDeps s) n info_q) →
  content_ok h (store path info s).
Proof.
  intros [Hdev Hrec Hdeps Htop Hnd Hdir Hedges] [Hclosed _] Hnew Hout Hd Hkids
    Hshape Hdirp Hplaced.
  assert (∀ q info', packageCache s !! q = Some info' →
            <[path:=info]> (packageCache s) !! q = Some info') as Hkeep.
  { intros q info' Hq. rewrite lookup_insert_ne; [done|]. intros ->.
    apply Hnew. by eapply elem_of_dom_2. }
  assert (∀ p q info_q, p ∈ dom (<[path:=info]> (packageCache s)) →
            edge h p q →
            <[path:=info]> (packageCache s) !! q = Some info_q →
            packageCache s !! q = Some info_q) as Hchild.
  { intros p q info_q Hp He Hq.
    assert (q ∈ dom (packageCache s)) as Hin.
    { rewrite dom_insert_L in Hp.
      apply elem_of_union in Hp as [->%elem_of_singleton|Hp];
        [by apply Hout|by eapply Hclosed]. }
    rewrite lookup_insert_ne in Hq; [done|]. by intros ->. }
  assert (package_record (record_of info) = true) as Hrecord.
  { apply package_record_of. intros [d Hg]%Hshape. rewrite Hg in *.
    apply package_tree_intro. intros n r Hin.
    destruct (Hkids n r Hin) as (q & info' & _ & Hq & ->). by eapply Hrec. }
  split; unfold store; cbn.
  - intros p info0. rewrite lookup_insert. case_decide as Hp.
    + intros [= <-]. by subst p.
    + by apply Hdev.
  - intros p info0. rewrite lookup_insert. case_decide as Hp.
    + by intros [= <-].
    + by apply Hrec.
  - intros p info0 n r. rewrite lookup_insert. case_decide as Hp.
    + intros [= <-] Hin. subst p.
      destruct (Hkids n r Hin) as (q & info' & ? & ? & ?).
      exists q, info'. split_and!; [done| |done]. by apply Hkeep.
    + intros Hp0 Hin. destruct (Hdeps p info0 n r Hp0 Hin) as (q & info' & ? & ? & ?).
      exists q, info'. split_and!; [done| |done]. by apply Hkeep.
  - intros n r Hin. destruct (Htop n r Hin) as (dir & q & info' & ? & ? & ?).
    exists dir, q, info'. split_and!; [done| |done]. by apply Hkeep.
  - done.
  - intros p info0. rewrite lookup_insert. case_decide as Hp.
    + intros [= <-]. by subst p.
    + by apply Hdir.
  - intros p info0 m n q info_q Hp Hm Hn Hq Hinfo_q.
    assert (packageCache s !! q = Some info_q) as Hq'.
    { apply (Hchild p q info_q); [by eapply elem_of_dom_2|by exists m, n|done]. }
    rewrite lookup_insert in Hp. case_decide as Hpp.
    + injection Hp as <-. subst p. by eapply Hplaced.
    + by eapply Hedges.
Qed.

(** ** The recursion *)


Lemma call_spec_structure rec :
  (∀ dir dep s info s',
     run (rec dir dep) s info s' →
     ∃ p, resolveFrom h dir (dep +:+ "/package.json") = Some p
          ∧ call_spec h p s info s') →
  ∀ dir dep s info s',
    run (rec dir dep) s info s' →
    ∃ p, resolveFrom h dir (dep +:+ "/package.json") = Some p
         ∧ call_structure h p s info s'.
Proof.
  intros Hrec dir dep s info s' Hrun.
  destruct (Hrec _ _ _ _ _ Hrun) as (p & ? & ? & _). eauto.
Qed.

(** The objects returned for the declared dependencies are the cached
    ones. *)
Lemma children_content rec dir declared s subDepsInfo s' :
  (∀ dir dep s info s',
     run (rec dir dep) s info s' →
     ∃ p, resolveFrom h dir (dep +:+ "/package.json") = Some p
          ∧ call_spec h p s info s') →
  run (mapValuesM (rec dir) (entries declared)) s subDepsInfo s' →
  closed_acyclic h (packageCache s) → content_ok h s →
  content_ok h s'
  ∧ ∀ dep info, (dep, info) ∈ subDepsInfo →
      ∃ p, resolveFrom h dir (dep +:+ "/package.json") = Some p
           ∧ packageCache s' !! p = Some info.
Proof.
  intros Hrec Hrun Hinv Hok.
  enough (closed_acyclic h (packageCache s')
          ∧ content_ok h s'
          ∧ ∀ dep info, (dep, info) ∈ subDepsInfo →
              ∃ p, resolveFrom h dir (dep +:+ "/package.json") = Some p
                   ∧ packageCache s' !! p = Some info) as (_ & ? & ?); [done|].
  apply (mapValuesM_ind
    (λ done s1,
       closed_acyclic h (packageCache s1)
       ∧ content_ok h s1
       ∧ ∀ dep info, (dep, info) ∈ done →
           ∃ p, resolveFrom h dir (dep +:+ "/package.json") = Some p
                ∧ packageCache s1 !! p = Some info)
    _ _ _ _ _ Hrun).
  - split_and!; [done..|]. by intros dep info ?%elem_of_nil.
  - intros done k v s1 s2 _ (Hinv1 & Hok1 & Hdone) Hcall.
    apply Hrec in Hcall as (p & Hp & Hstr & Hcont).
    destruct (Hstr Hinv1) as (Hg & Hinv2 & Hlook & _).
    split_and!; [done|by apply Hcont|].
    intros dep info [Hin|[= -> ->]%list_elem_of_singleton]%elem_of_app; [|eauto].
    destruct (Hdone _ _ Hin) as (p' & Hp' & Hl). exists p'. split; [done|].
    destruct Hg as (_ & Hsub & _). by eapply lookup_weaken.
Qed.

Lemma edge_placed_assign_other dir dependencies top x r n info :
  n ≠ x →
  edge_placed h dir dependencies top n info →
  edge_placed h dir (assign dependencies x r) top n info.
Proof.
  intros Hne H dir_n Hdir. destruct (H dir_n Hdir) as (H1 & H2 & H3).
  rewrite own_assign_ne by done. done.
Qed.

(** One turn of the loop places the dependency it visits. *)
Lemma classify_places dir subDepsInfo subDep dependencies s dependencies' s' info :
  run (classify h dir subDepsInfo subDep dependencies) s dependencies' s' →
  own subDepsInfo subDep = Some info →
  edge_placed h dir dependencies' (topLevelDeps s') subDep info.
Proof.
  intros (info' & d & Hown & Hdir & Hcase)%classify_cases Hinfo dir_n Hdir_n.
  simplify_eq. rewrite Hdir in Hdir_n. injection Hdir_n as <-.
  cbn zeta in Hcase.
  destruct Hcase as [(Hl & -> & ->)|[(Hl & Ht & Hnone & Hinh & -> & ->)
                                     |(Hl & Ht & Hrest & ->)]].
  - rewrite Hl. split_and!; [|done..]. intros _ Hne. by apply own_assign_eq.
  - rewrite Hl, Ht, Hinh. cbn. split_and!; [done| |by intros _ [?|?]].
    intros _ _ _. apply own_None_keys in Hnone.
    rewrite <-(set_prop_keys_fresh _ _ (record_of info')) by done.
    rewrite own_set_prop_eq. by eexists.
  - rewrite Hl. split_and!; [done| |].
    + intros _ Htop Hinh. destruct (Ht Htop) as [?|?]; [done|congruence].
    + intros _ _ Hin Hne. destruct Hrest as [[_ ->]|[Hout _]]; [|congruence].
      by apply own_assign_eq.
Qed.

(** A turn of the loop keeps what the earlier turns have placed. *)
Lemma classify_keeps dir subDepsInfo subDep dependencies s dependencies' s' n info :
  run (classify h dir subDepsInfo subDep dependencies) s dependencies' s' →
  n ≠ subDep →
  edge_placed h dir dependencies (topLevelDeps s) n info →
  edge_placed h dir dependencies' (topLevelDeps s') n info.
Proof.
  intros (info' & d & Hown & Hdir & Hcase)%classify_cases Hne Hplaced.
  cbn zeta in Hcase.
  destruct Hcase as [(_ & -> & ->)|[(_ & _ & _ & _ & -> & ->)
                                    |(_ & _ & [[_ ->]|[_ ->]] & ->)]];
    try done.
  - by apply edge_placed_assign_other.
  - by apply edge_placed_top_app.
  - by apply edge_placed_assign_other.
Qed.

(** The classification loop keeps the invariant, what it leaves in
    [dependencies] are projections of cached objects, and every dependency
    it has visited is placed. *)
Lemma classify_loop_content dir subDepsInfo subDeps s dependencies s' :
  run (foldM (classify h dir subDepsInfo) subDeps []) s dependencies s' →
  (∀ dep info, (dep, info) ∈ subDepsInfo →
     ∃ p, resolveFrom h dir (dep +:+ "/package.json") = Some p
          ∧ packageCache s !! p = Some info) →
  content_ok h s →
  content_ok h s'
  ∧ (∀ n r, (n, r) ∈ dependencies →
       ∃ q info',
         resolveFrom h dir (n +:+ "/package.json") = Some q
         ∧ packageCache s' !! q = Some info' ∧ r = record_of info')
  ∧ (∀ n info, n ∈ subDeps → own subDepsInfo n = Some info →
       edge_placed h dir dependencies (topLevelDeps s') n info).
Proof.
  intros Hrun Hinfos Hok.
  enough (packageCache s' = packageCache s
          ∧ content_ok h s'
          ∧ (∀ n r, (n, r) ∈ dependencies →
               ∃ q info',
                 resolveFrom h dir (n +:+ "/package.json") = Some q
                 ∧ packageCache s' !! q = Some info' ∧ r = record_of info')
          ∧ (∀ n info, n ∈ subDeps → own subDepsInfo n = Some info →
               edge_placed h dir dependencies (topLevelDeps s') n info))
    as (_ & ? & ? & ?); [done|].
  apply (foldM_ind_visited
    (λ visited deps s1,
       packageCache s1 = packageCache s
       ∧ content_ok h s1
       ∧ (∀ n r, (n, r) ∈ deps →
            ∃ q info',
              resolveFrom h dir (n +:+ "/package.json") = Some q
              ∧ packageCache s1 !! q = Some info' ∧ r = record_of info')
       ∧ (∀ n info, n ∈ visited → own subDepsInfo n = Some info →
            edge_placed h dir deps (topLevelDeps s1) n info))
    _ _ _ _ _ _ Hrun).
  - split_and!; [done..| |].
    + by intros n r ?%elem_of_nil.
    + by intros n info ?%elem_of_nil.
  - intros visited subDep deps s1 deps' s2 (Hc & Hok1 & Hdeps & Hvis) Hstep.
    pose proof (classify_run _ _ _ _ _ _ _ _ Hstep)
      as (info & subDepDir & Hown & _ & Hcase).
    pose proof (own_Some_elem_of _ _ _ Hown) as Hin.
    destruct (Hinfos _ _ Hin) as (p & Hp & Hl). rewrite <-Hc in Hl.
    assert (∀ n r, (n, r) ∈ assign deps subDep (record_of info) →
              ∃ q info',
                resolveFrom h dir (n +:+ "/package.json") = Some q
                ∧ packageCache s1 !! q = Some info' ∧ r = record_of info')
      as Hplaced.
    { intros n r [Hn|[[= -> ->] _]]%assign_elem_of; [by apply Hdeps|eauto]. }
    assert (∀ n info0, n ∈ visited ++ [subDep] → own subDepsInfo n = Some info0 →
              edge_placed h dir deps' (topLevelDeps s2) n info0) as Hvis'.
    { intros n info0 Hn Hn'. destruct (decide (n = subDep)) as [->|Hne].
      - by eapply classify_places.
      - eapply classify_keeps; [done..|]. apply Hvis; [|done].
        apply elem_of_app in Hn as [?|?%list_elem_of_singleton]; done. }
    destruct Hcase as [[-> ->]|[(-> & Hnone & ->)|[-> ->]]]; [done| |done].
    split_and!; [done| |done..]. by eapply content_ok_set_top.
Qed.

Lemma depPackageInfo_of_entries dir m dev requires (d : object) :
  entries (get (depPackageInfo_of dir m dev requires
                  (if bool_decide (length d = 0) then None else Some d))
             "dependencies") = d.
Proof.
  rewrite depPackageInfo_of_dependencies. case_bool_decide as Hd; [|done].
  by destruct d.
Qed.

Lemma collect_store_content rec path s info s1 :
  (∀ dir dep s info s',
     run (rec dir dep) s info s' →
     ∃ p, resolveFrom h dir (dep +:+ "/package.json") = Some p
          ∧ call_spec h p s info s') →
  packageCache s !! path = None →
  run (collectDepPackageInfo_with h rec path "dependencies") s info s1 →
  closed_acyclic h (packageCache s) → content_ok h s →
  content_ok h (store path info s1).
Proof.
  intros Hrec Hmiss Hrun Hinv Hok.
  destruct (collect_structure h _ _ _ _ _ (call_spec_structure _ Hrec)
              Hmiss Hrun Hinv) as (Hg & Hinv1 & Hout & _ & Hnot).
  apply collect_run in Hrun as (m & found & Hm & Hsub & ->).
  apply content_ok_record_resolution with (path := path) in Hok.
  assert (content_ok h s1
          ∧ (∀ n r, (n, r) ∈ entries (get (depPackageInfo_of (path_dirname h path) m
                                             (devFlag s1) found.1 found.2)
                                        "dependencies") →
               ∃ q info',
                 resolveFrom h (path_dirname h path) (n +:+ "/package.json") = Some q
                 ∧ packageCache s1 !! q = Some info' ∧ r = record_of info')
          ∧ (∀ n q info_q,
               n ∈ keys (get m "dependencies") →
               resolveFrom h (path_dirname h path) (n +:+ "/package.json") = Some q →
               packageCache s1 !! q = Some info_q →
               edge_placed h (path_dirname h path)
                 (entries (get (depPackageInfo_of (path_dirname h path) m
                                  (devFlag s1) found.1 found.2)
                             "dependencies"))
                 (topLevelDeps s1) n info_q))
    as (Hok1 & Hfound & Hplaced).
  { apply collectSubDeps_run in Hsub
      as [(Hf & -> & ->)|(Ht & infos & s2 & deps & Hmap & Hloop & ->)].
    - split_and!; [done| |].
      + rewrite depPackageInfo_of_dependencies. by intros n r ?%elem_of_nil.
      + intros n q info_q Hn. rewrite (truthy_or_no_keys _ Hf) in Hn.
        by apply elem_of_nil in Hn.
    - destruct (children_content _ _ _ _ _ _ Hrec Hmap Hinv Hok) as [Hok2 Hinfos].
      pose proof (classify_loop_top_only _ _ _ _ _ _ _ _ Hloop) as (Hc & _).
      destruct (classify_loop_content _ _ _ _ _ _ Hloop Hinfos Hok2)
        as (Hok1 & Hdeps & Hvisited).
      cbn [fst snd]. rewrite depPackageInfo_of_entries.
      split_and!; [done..|].
      intros n q info_q Hn Hq Hinfo_q.
      assert (n ∈ infos.*1) as [info_n Hown]%own_is_Some_keys.
      { by rewrite (mapValuesM_keys _ _ _ _ _ Hmap). }
      destruct (Hinfos _ _ (own_Some_elem_of _ _ _ Hown)) as (q' & Hq' & Hl).
      rewrite <-Hc in Hl. simplify_eq. by apply Hvisited. }
  destruct Hg as (Hd & _ & _ & new & Hr & _). cbn in Hd, Hr.
  apply content_ok_store; [done..| | | | |].
  - exists (devFlag s1).
    split; [|apply depPackageInfo_of_dev].
    rewrite Hr, Hd. apply elem_of_app. left. apply elem_of_app. right.
    apply list_elem_of_here.
  - done.
  - apply depPackageInfo_of_has_dependencies.
  - apply depPackageInfo_of_packageDir.
  - intros m' n q info_q Hm' Hn Hq Hinfo_q.
    rewrite Hm in Hm'. injection Hm' as <-. by apply (Hplaced n q).
Qed.

Theorem getDep_spec depth parentPackageDir packageName s info s' :
  run (getDepPackageInfo h depth parentPackageDir packageName "dependencies")
    s info s' →
  ∃ path,
    resolveFrom h parentPackageDir (packageName +:+ "/package.json") = Some path
    ∧ call_spec h path s info s'.
Proof.
  apply getDep_ind.
  - intros path s0 info0 Hhit. split; [|done].
    intros Hinv. split_and!; [apply grows_refl|done..].
  - intros rec Hrec path s0 info0 s1 Hmiss Hcol. split.
    + eapply collect_store_structure; [|done..]. by apply call_spec_structure.
    + intros Hinv Hok. by eapply collect_store_content.
Qed.

End content.
End ScanContent.
Import ScanContent.

(* ===================================================================== *)
(** * Termination of the scanner *)
(* ===================================================================== *)

Module ScanTermination.
Section termination.

Context (h : host).

Lemma terminates_classify depPackageDir subDepsInfo subDep dependencies s :
  terminates (classify h depPackageDir subDepsInfo subDep dependencies) s.
Proof.
  unfold classify.
  destruct (own subDepsInfo subDep) as [info|]; [|done].
  destruct (get info "packageDir"); try done.
  apply terminates_bind; [done|]. intros top s1 _.
  destruct (isLocalDep _ _); [done|].
  destruct (_ && _); [by apply terminates_bind|].
  by destruct (_ =? _)%Z.
Qed.

Lemma terminates_collectSubDeps rec depPackageDir declared s :
  (∀ dep s1, dep ∈ keys declared → terminates (rec depPackageDir dep) s1) →
  terminates (collectSubDeps h rec depPackageDir declared) s.
Proof.
  intros Hrec. unfold collectSubDeps. destruct (truthy declared); [|done].
  apply terminates_bind.
  - apply terminates_mapValuesM. intros k s1 Hk. by apply Hrec.
  - intros infos s1 _. apply terminates_bind; [|done].
    apply terminates_foldM. intros. apply terminates_classify.
Qed.

Lemma terminates_collect rec path depsProp s :
  (∀ m dep s1,
     modules h !! path = Some m → dep ∈ keys (get m depsProp) →
     terminates (rec (path_dirname h path) dep) s1) →
  terminates (collectDepPackageInfo_with h rec path depsProp) s.
Proof.
  intros Hrec. unfold collectDepPackageInfo_with.
  apply terminates_bind; [done|]. intros ? s0 _.
  apply terminates_bind; [apply terminates_lift|].
  intros m s1 [Hm _]%run_lift.
  apply terminates_bind; [apply terminates_prop|].
  intros declared s2 (_ & _ & -> & _)%run_prop.
  apply terminates_bind.
  - apply terminates_collectSubDeps. intros dep s3 Hdep. by eapply Hrec.
  - intros found s3 _. by apply terminates_bind.
Qed.

(** The calls in progress form a path of the resolution graph; in an acyclic
    graph they are distinct manifests, so their number is bounded by the
    number of manifests. *)
Lemma stack_bound (stack : list string) :
  NoDup stack → (∀ a, a ∈ stack → a ∈ dom (modules h)) →
  length stack ≤ size (modules h).
Proof.
  intros Hnd Hin. rewrite <-size_dom, <-(size_list_to_set (C:=gset string)) by done.
  apply subseteq_size. intros a Ha%elem_of_list_to_set. by apply Hin.
Qed.

Lemma terminates_getDep depth : ∀ stack parentPackageDir packageName s,
  acyclic h →
  NoDup stack →
  (∀ a, a ∈ stack → a ∈ dom (modules h)) →
  (∀ path, resolveFrom h parentPackageDir (packageName +:+ "/package.json") = Some path →
           path ∈ dom (modules h) →
           ∀ a, a ∈ stack → tc (edge h) a path) →
  size (modules h) < depth + length stack →
  terminates
    (getDepPackageInfo h depth parentPackageDir packageName "dependencies") s.
Proof.
  induction depth as [|depth IH];
    intros stack parentPackageDir packageName s Hac Hnd Hdom Hpath Hsize.
  { pose proof (stack_bound stack Hnd Hdom). cbn in Hsize. lia. }
  cbn [getDepPackageInfo].
  apply terminates_bind; [apply terminates_lift|].
  intros path s0 [Hres _]%run_lift.
  apply terminates_bind; [done|]. intros cache s1 _.
  destruct (cache !! path); [done|].
  apply terminates_bind; [|intros info s2 _; apply terminates_bind; [done|];
                           intros c s3 _; by apply terminates_bind].
  apply terminates_collect. intros m dep s2 Hm Hdep.
  assert (path ∈ dom (modules h)) as Hpin by (by eapply elem_of_dom_2).
  assert (path ∉ stack) as Hfresh.
  { intros Hin. by apply (Hac path), Hpath. }
  apply (IH (path :: stack)); try done.
  - by apply NoDup_cons.
  - intros a [->|Ha]%elem_of_cons; auto.
  - intros path' Hres' Hpin' a Ha.
    assert (edge h path path') as He.
    { by exists m, dep. }
    apply elem_of_cons in Ha as [->|Ha]; [by apply tc_once|].
    eapply tc_r; [|done]. by apply Hpath.
  - cbn [length]. lia.
Qed.

(** ** A larger bound gives the same result *)

Lemma refines_collect rec1 rec2 path depsProp :
  (∀ dir dep, refines (rec1 dir dep) (rec2 dir dep)) →
  refines (collectDepPackageInfo_with h rec1 path depsProp)
    (collectDepPackageInfo_with h rec2 path depsProp).
Proof.
  intros Hrec. unfold collectDepPackageInfo_with.
  apply refines_bind; [apply refines_refl|]. intros ?.
  apply refines_bind; [apply refines_refl|]. intros m.
  apply refines_bind; [apply refines_refl|]. intros declared.
  apply refines_bind; [|intros; apply refines_refl].
  unfold collectSubDeps. destruct (truthy declared); [|apply refines_refl].
  apply refines_bind; [|intros; apply refines_refl].
  apply refines_mapValuesM. intros k. apply Hrec.
Qed.

Lemma refines_getDep_S depth : ∀ parentPackageDir packageName depsProp,
  refines (getDepPackageInfo h depth parentPackageDir packageName depsProp)
    (getDepPackageInfo h (S depth) parentPackageDir packageName depsProp).
Proof.
  induction depth as [|depth IH]; intros parentPackageDir packageName depsProp.
  { intros s. by left. }
  cbn [getDepPackageInfo].
  apply refines_bind; [apply refines_refl|]. intros path.
  apply refines_bind; [apply refines_refl|]. intros cache.
  destruct (cache !! path); [apply refines_refl|].
  apply refines_bind; [|intros; apply refines_refl].
  apply refines_collect. intros dir dep. apply IH.
Qed.

Lemma refines_getDep depth depth' parentPackageDir packageName depsProp :
  depth ≤ depth' →
  refines (getDepPackageInfo h depth parentPackageDir packageName depsProp)
    (getDepPackageInfo h depth' parentPackageDir packageName depsProp).
Proof.
  induction 1 as [|depth' _ IH]; [apply refines_refl|].
  eapply refines_trans; [apply IH|apply refines_getDep_S].
Qed.

Lemma refines_scan depth depth' :
  depth ≤ depth' → refines (scan h depth) (scan h depth').
Proof.
  intros Hle. unfold scan.
  apply refines_bind; [apply refines_refl|]. intros packageJson.
  apply refines_bind; [apply refines_refl|]. intros production.
  apply refines_bind; [apply refines_refl|]. intros names.
  apply refines_bind; [apply refines_forEach; intros; by apply refines_getDep|].
  intros ?.
  apply refines_bind; [apply refines_refl|]. intros ?.
  apply refines_bind; [apply refines_refl|]. intros development.
  apply refines_bind; [apply refines_refl|]. intros names'.
  apply refines_bind; [apply refines_forEach; intros; by apply refines_getDep|].
  intros; apply refines_refl.
Qed.

End termination.
End ScanTermination.
Import ScanTermination.

(* ===================================================================== *)
(** * A whole scan *)
(* ===================================================================== *)

Module ScanWhole.
Section whole.

Context (h : host).

Abbreviation WITH_DEPS := LOCKED_DEPENDENCIES_REQUIRED_PROPERTIES_WITH_DEPS.

(** The two phases of a scan. *)
Lemma scan_run depth s u s' :
  run (scan h depth) s u s' →
  ∃ packageJson s1,
    modules h !! packageJsonPath h = Some packageJson
    ∧ run (forEach (λ dep, getDepPackageInfo h depth (packageDir h) dep "dependencies")
             (keys (get packageJson "dependencies"))) s tt s1
    ∧ run (forEach (λ dep, getDepPackageInfo h depth (packageDir h) dep "dependencies")
             (keys (get packageJson "devDependencies")))
        (set_devFlag true s1) tt s'.
Proof.
  unfold scan.
  intros (packageJson & s0 & [Hm <-]%run_lift & Hrun)%run_bind.
  apply run_bind in Hrun as (production & s1 & (_ & _ & -> & <-)%run_prop & Hrun).
  apply run_bind in Hrun as (names & s2 & (_ & _ & -> & <-)%run_Object_keys & Hrun).
  apply run_bind in Hrun as ([] & s3 & Hprod & Hrun).
  apply run_bind in Hrun as ([] & s4 & ->%run_modify & Hrun).
  apply run_bind in Hrun as (development & s5 & (_ & _ & -> & <-)%run_prop & Hrun).
  apply run_bind in Hrun as (names' & s6 & (_ & _ & -> & <-)%run_Object_keys & Hrun).
  apply run_bind in Hrun as ([] & s7 & Hdev & [_ <-]%run_ret).
  by exists packageJson, s3.
Qed.

(** One phase: the calls for the names that the project declares. *)
Lemma phase_spec depth names s u s' :
  run (forEach (λ dep, getDepPackageInfo h depth (packageDir h) dep "dependencies")
         names) s u s' →
  closed_acyclic h (packageCache s) → content_ok h s →
  grows s s' ∧ closed_acyclic h (packageCache s') ∧ content_ok h s'.
Proof.
  intros Hrun Hinv Hok.
  apply (forEach_ind
    (λ s1, grows s s1 ∧ closed_acyclic h (packageCache s1) ∧ content_ok h s1)
    _ _ _ _ _ Hrun).
  - split_and!; [apply grows_refl|done..].
  - intros dep s1 info s2 _ (Hg & Hinv1 & Hok1) Hcall.
    apply getDep_spec in Hcall as (path & _ & Hstr & Hcont).
    destruct (Hstr Hinv1) as (Hg2 & Hinv2 & _).
    split_and!; [by eapply grows_trans|done|by apply Hcont].
Qed.

(** The log of a finished scan: the resolutions of the production phase,
    then those of the development phase; together they are the keys of the
    cache, each once. *)
Theorem scan_spec depth u s :
  run (scan h depth) initial u s →
  content_ok h s
  ∧ ∃ production development : list string,
      resolutions s
      = ((λ p, (p, false)) <$> production) ++ ((λ p, (p, true)) <$> development)
      ∧ NoDup (production ++ development)
      ∧ ∀ p, p ∈ production ++ development ↔ p ∈ dom (packageCache s).
Proof.
  intros (packageJson & s1 & _ & Hprod & Hdev)%scan_run.
  destruct (phase_spec _ _ _ _ _ Hprod (closed_acyclic_empty h)
              (content_ok_initial h)) as (Hg1 & Hinv1 & Hok1).
  destruct (phase_spec _ _ _ _ _ Hdev Hinv1 (content_ok_set_devFlag h _ _ Hok1))
    as (Hg2 & Hinv2 & Hok2).
  split; [done|].
  destruct Hg1 as (_ & Hc1 & _ & new1 & Hr1 & Hn1 & Hi1 & Hf1).
  destruct Hg2 as (_ & Hc2 & _ & new2 & Hr2 & Hn2 & Hi2 & Hf2).
  cbn in Hr1, Hi1, Hf1, Hc2, Hr2, Hi2, Hf2.
  assert (∀ (b : bool) l, Forall (λ e : string * bool, e.2 = b) l →
            l = (λ p, (p, b)) <$> l.*1) as Htag.
  { intros b l. induction 1 as [|[p b'] l Hb _ IH]; [done|].
    cbn in *. by rewrite Hb, <-IH. }
  exists new1.*1, new2.*1. split_and!.
  - by rewrite Hr2, Hr1, <-(Htag _ _ Hf1), <-(Htag _ _ Hf2).
  - apply NoDup_app. split_and!; [done| |done].
    intros p Hp1 Hp2. apply Hi2 in Hp2 as [_ Hnot]. apply Hnot.
    apply Hi1 in Hp1 as [? _]. done.
  - intros p. rewrite elem_of_app, Hi1, Hi2, dom_empty_L.
    pose proof (subseteq_dom _ _ Hc2) as Hsub. split.
    + intros [[? _]|[? _]]; auto.
    + intros Hin. destruct (decide (p ∈ dom (packageCache s1))); [left|right];
        (split; [done|]); [apply not_elem_of_empty|done].
Qed.

Lemma fst_tagged (b : bool) (l : list string) :
  ((λ p, (p, b)) <$> l).*1 = l.
Proof. induction l as [|p l IH]; [done|]. cbn. by rewrite IH. Qed.

Lemma scanInstalledDependencies_Done depth tree :
  scanInstalledDependencies h depth = Done tree →
  ∃ s, run (scan h depth) initial tt s ∧ tree = VObj (topLevelDeps s).
Proof.
  unfold scanInstalledDependencies, run.
  destruct (scan h depth initial) as [[[] s]| |]; [|done..].
  intros [= <-]. by exists s.
Qed.

(** The tree that the scanner returns is a tree of PackageRecords. *)
Lemma scan_package_tree depth tree :
  scanInstalledDependencies h depth = Done tree → package_tree tree = true.
Proof.
  intros (s & Hrun & ->)%scanInstalledDependencies_Done.
  apply scan_spec in Hrun as [Hok _].
  apply package_tree_intro. intros n r Hin.
  destruct (ok_top _ _ Hok n r Hin) as (dir & q & info & _ & Hq & ->).
  by eapply ok_record.
Qed.

(** Top-level entries persist through every call. *)
Lemma getDep_top_persists depth parentPackageDir packageName s info s' :
  run (getDepPackageInfo h depth parentPackageDir packageName "dependencies")
    s info s' →
  ∀ n r, own (topLevelDeps s) n = Some r → own (topLevelDeps s') n = Some r.
Proof.
  intros Hrun.
  apply (getDep_ind h
    (λ _ s _ s', ∀ n r, own (topLevelDeps s) n = Some r →
                        own (topLevelDeps s') n = Some r)) in Hrun
    as (_ & _ & H); [done|done|].
  clear. intros rec Hrec path s info s1 _ (m & found & _ & Hsub & _)%collect_run.
  unfold store. cbn.
  apply collectSubDeps_run in Hsub
    as [(Hf & -> & ->)|(Ht & infos & s2 & deps & Hmap & Hloop & ->)]; [done|].
  apply classify_loop_top_only in Hloop as (_ & _ & _ & Hloop).
  intros n r Hn. apply Hloop.
  revert n r Hn.
  apply (mapValuesM_ind
    (λ _ s3, ∀ n r, own (topLevelDeps (record_resolution path s)) n = Some r →
                    own (topLevelDeps s3) n = Some r)
    _ _ _ _ _ Hmap); [done|].
  intros done k v s3 s4 _ H3 Hcall n r Hn.
  apply Hrec in Hcall as (_ & _ & H4). by apply H4, H3.
Qed.

Lemma terminates_scan depth s :
  acyclic h → size (modules h) < depth → terminates (scan h depth) s.
Proof.
  intros Hac Hsize. unfold scan.
  assert (∀ dep s1,
    terminates (getDepPackageInfo h depth (packageDir h) dep "dependencies") s1)
    as Hcall.
  { intros dep s1. apply (terminates_getDep h depth []); try done.
    - constructor.
    - by intros a ?%elem_of_nil.
    - by intros path _ _ a ?%elem_of_nil.
    - cbn. lia. }
  apply terminates_bind; [apply terminates_lift|]. intros packageJson s0 _.
  apply terminates_bind; [apply terminates_prop|]. intros production s1 _.
  apply terminates_bind; [apply terminates_Object_keys|]. intros names s2 _.
  apply terminates_bind; [by apply terminates_forEach|]. intros ? s3 _.
  apply terminates_bind; [done|]. intros ? s4 _.
  apply terminates_bind; [apply terminates_prop|]. intros development s5 _.
  apply terminates_bind; [apply terminates_Object_keys|]. intros names' s6 _.
  apply terminates_bind; [by apply terminates_forEach|]. done.
Qed.

(** ** The states between the calls of the body *)

Lemma phase_scanning depth names s u s' :
  run (forEach (λ dep, getDepPackageInfo h depth (packageDir h) dep "dependencies")
         names) s u s' →
  scanning h depth s → scanning h depth s'.
Proof.
  intros Hrun Hs. apply (forEach_ind (scanning h depth) _ _ _ _ _ Hrun Hs).
  intros dep s1 info s2 _ H1 Hcall. by eapply scanning_call.
Qed.

Lemma scan_scanning depth u s :
  run (scan h depth) initial u s → scanning h depth s.
Proof.
  intros (packageJson & s1 & _ & Hprod & Hdev)%scan_run.
  eapply phase_scanning; [done|]. apply scanning_dev.
  eapply phase_scanning; [done|]. apply scanning_initial.
Qed.

(** Between the calls of the body the log and the cache agree, and the
    invariant of the records holds. *)
Lemma scanning_invariants depth s :
  scanning h depth s →
  closed_acyclic h (packageCache s)
  ∧ content_ok h s
  ∧ NoDup (resolutions s).*1
  ∧ ∀ p, p ∈ (resolutions s).*1 ↔ p ∈ dom (packageCache s).
Proof.
  induction 1 as [|s dep info s' _ (Hinv & Hok & Hnd & Hdom) Hcall
                  |s _ (Hinv & Hok & Hnd & Hdom)].
  - split_and!; [apply closed_acyclic_empty|apply content_ok_initial
                 |constructor|].
    intros p. cbn. rewrite dom_empty_L. split; [by intros ?%elem_of_nil|].
    by intros ?%not_elem_of_empty.
  - apply getDep_spec in Hcall as (path & _ & Hstr & Hcont).
    destruct (Hstr Hinv) as ((_ & Hsub & _ & new & Hr & Hn & Hi & _) & Hinv' & _).
    pose proof (subseteq_dom _ _ Hsub) as Hsub'.
    split_and!; [done|by apply Hcont|..].
    + rewrite Hr, fmap_app. apply NoDup_app. split_and!; [done| |done].
      intros p Hp Hp'. apply Hi in Hp' as [_ Hnot]. by apply Hnot, Hdom.
    + intros p. rewrite Hr, fmap_app, elem_of_app, Hi, Hdom. split.
      * intros [?|[? _]]; auto.
      * intros Hin. destruct (decide (p ∈ dom (packageCache s))); auto.
  - split_and!; [done|by apply content_ok_set_devFlag|done..].
Qed.

(** Above the number of manifests the bound does not matter. *)
Lemma scan_stable depth depth' :
  acyclic h → size (modules h) < depth → depth ≤ depth' →
  scanInstalledDependencies h depth' = scanInstalledDependencies h depth.
Proof.
  intros Hac Hsize Hle. unfold scanInstalledDependencies.
  destruct (refines_scan h depth depth' Hle initial) as [Hout| ->]; [|done].
  by destruct (terminates_scan depth initial Hac Hsize).
Qed.

End whole.
End ScanWhole.
Import ScanWhole.


(* ===================================================================== *)
(** * The example layouts *)
(* ===================================================================== *)

Module ExampleFacts.
Import Examples.

(** The only edge of the [left-pad] layout goes from the project to
    [left-pad]. *)
Lemma left_pad_edge x y :
  edge left_pad_host_empty_dev x y →
  x = "/proj/package.json" ∧ y = "/proj/node_modules/left-pad/package.json".
Proof.
  intros (m & dep & Hm & Hdep & Hy).
  destruct (decide (x = "/proj/package.json")) as [->|Hroot].
  - split; [done|]. vm_compute in Hm. injection Hm as <-.
    vm_compute in Hdep. apply list_elem_of_singleton in Hdep as ->.
    vm_compute in Hy. by injection Hy as <-.
  - destruct (decide (x = "/proj/node_modules/left-pad/package.json")) as [->|Hlp].
    + vm_compute in Hm. injection Hm as <-.
      vm_compute in Hdep. by apply elem_of_nil in Hdep.
    + cbn in Hm. unfold left_pad_files in Hm. cbn [list_to_map foldr] in Hm.
      by rewrite !lookup_insert_ne, lookup_empty in Hm.
Qed.

Lemma left_pad_acyclic : acyclic left_pad_host_empty_dev.
Proof.
  intros x (y & [-> ->]%left_pad_edge & Hback)%tc_first_step.
  apply rtc_inv in Hback as [?|(z & [? _]%left_pad_edge & _)]; done.
Qed.

(** The scan of the diamond layout: [c] is promoted by [a], and kept under
    [b] as well; [x] and [y], the project's own dependencies, are absent. *)
Lemma diamond_result :
  scanInstalledDependencies diamond_host 3
  = Done (VObj
      [("c", record_c);
       ("a", VObj [("version", VStr "1.1.0");
                   ("requires", VObj [("c", VStr "1.3.0")]);
                   ("integrity", VUndefined)]);
       ("b", VObj [("version", VStr "1.2.0");
                   ("requires", VObj [("c", VStr "1.3.0")]);
                   ("integrity", VUndefined);
                   ("dependencies", VObj [("c", record_c)])]);
       ("z", VObj [("version", VStr "3.0.0"); ("dev", VBool true);
                   ("integrity", VUndefined)])]).
Proof. by vm_compute. Qed.

End ExampleFacts.

(* ===================================================================== *)
(** * When the filter throws, and what it keeps *)
(* ===================================================================== *)

Module FilterFailure.

Lemma mapM_None {A B} (f : A → option B) (l : list A) :
  mapM f l = None ↔ ∃ x, x ∈ l ∧ f x = None.
Proof.
  induction l as [|a l IH]; cbn [mapM].
  - split; [done|]. by intros (x & ?%elem_of_nil & _).
  - destruct (f a) as [b|] eqn:Ha; cbn.
    + destruct (mapM f l) as [bs|]; cbn.
      * split; [done|]. intros (x & [->|Hx]%elem_of_cons & Hnone); [congruence|].
        assert (Some bs = None) as Habs by (apply IH; eauto). done.
      * split; [|done]. intros _. destruct (proj1 IH eq_refl) as (x & Hx & Hf).
        exists x. split; [by apply list_elem_of_further|done].
    + split; [|done]. intros _. exists a. split; [apply list_elem_of_here|done].
Qed.

Lemma nullish_false v : nullish v = false ↔ v ≠ VUndefined ∧ v ≠ VNull.
Proof. destruct v; cbn; split; try done; by intros [??]. Qed.

Lemma no_nodes_of_falsy d w : truthy d = false → ¬ node_of d w.
Proof.
  intros Hf%falsy_entries Hn.
  destruct Hn as [t k v Hin|t k v w Hin _]; rewrite Hf in Hin;
    by apply elem_of_nil in Hin.
Qed.

Lemma filterTree_None_entries t :
  filterTree t = None ↔ ∃ kv, kv ∈ entries t ∧ filterNode kv.2 = None.
Proof.
  rewrite filterTree_eq.
  assert (VObj <$> mapM filterEntry (entries t) = None
          ↔ mapM filterEntry (entries t) = None) as ->.
  { by destruct (mapM filterEntry (entries t)). }
  rewrite mapM_None. unfold filterEntry.
  split; intros (kv & Hin & Hnone); exists kv; (split; [done|]);
    by destruct (filterNode kv.2).
Qed.

Lemma filterNode_None v :
  filterNode v = None ↔
    nullish v = true ∨ filterTree (get v "dependencies") = None.
Proof.
  destruct (nullish v) eqn:Hn.
  - split; [by left|]. intros _. rewrite filterNode_eq. by destruct v.
  - apply nullish_false in Hn as [Hu Hnull].
    rewrite filterNode_eq_nonnull by done.
    destruct (truthy (get v "dependencies")) eqn:Ht.
    + destruct (filterTree (get v "dependencies")); cbn.
      * split; [done|]. by intros [?|?].
      * split; auto.
    + split; [done|]. intros [?|Hnone]; [done|].
      apply filterTree_None_entries in Hnone as (kv & Hin & _).
      rewrite (falsy_entries _ Ht) in Hin. by apply elem_of_nil in Hin.
Qed.

Lemma filterTree_None_both t :
  (filterTree t = None ↔ ∃ w, node_of t w ∧ nullish w = true)
  ∧ (filterNode t = None ↔
       nullish t = true
       ∨ ∃ w, node_of (get t "dependencies") w ∧ nullish w = true).
Proof.
  revert t. apply filter_ind.
  - intros t Hall. rewrite filterTree_None_entries.
    rewrite Forall_forall in Hall. split.
    + intros ([k v] & Hin & Hnone). apply (Hall _ Hin) in Hnone.
      cbn [snd] in Hnone. destruct Hnone as [Hv|(w & Hw & Hnull)].
      * exists v. split; [by eapply node_here|done].
      * exists w. split; [by eapply node_below|done].
    + intros (w & Hw & Hnull).
      destruct Hw as [t k v Hin|t k v w Hin Hbelow];
        exists (k, v); (split; [done|]); apply (Hall _ Hin); cbn [snd];
        [by left|right; eauto].
  - intros v IH. by rewrite filterNode_None, IH.
Qed.

(** The four projected fields are copied. *)
Lemma filterNode_kept v r f :
  filterNode v = Some r →
  f ∈ LOCKED_DEPENDENCIES_REQUIRED_PROPERTIES →
  has r f = has v f ∧ get r f = get v f.
Proof.
  intros Hr Hf.
  assert ("dependencies" ≠ f) as Hne.
  { intros <-. by apply dependencies_not_required. }
  assert (has (VObj (pick v LOCKED_DEPENDENCIES_REQUIRED_PROPERTIES)) f = has v f
          ∧ get (VObj (pick v LOCKED_DEPENDENCIES_REQUIRED_PROPERTIES)) f
            = get v f) as [Hhas Hget].
  { rewrite has_pick, get_pick, (bool_decide_eq_true_2 _ Hf).
    by rewrite decide_True by done. }
  apply filterNode_Some in Hr as [(_ & d' & _ & ->)|(_ & ->)]; [|done].
  rewrite <-Hhas, <-Hget. cbn [has get].
  by rewrite own_set_prop_ne by done.
Qed.

Lemma filterTree_no_entries d : keys d = [] → filterTree d = Some (VObj []).
Proof.
  unfold keys. intros Hk%fmap_nil_inv. by rewrite filterTree_eq, Hk.
Qed.

End FilterFailure.
Import FilterFailure.

(* ===================================================================== *)
(** * The outcomes of source selection and of the payload *)
(* ===================================================================== *)

Module AuditOutcomes.

Lemma getAllDependencies_Throw h depth e :
  getAllDependencies h depth = Throw e →
  e = Error FAILED_MESSAGE
  ∧ (∃ e1, getNpmLockDependencies h "package-lock.json" = Throw e1)
  ∧ (∃ e2, getNpmLockDependencies h "npm-shrinkwrap.json" = Throw e2)
  ∧ (∃ e3, scanInstalledDependencies h depth = Throw e3).
Proof.
  unfold getAllDependencies.
  destruct (getNpmLockDependencies h "package-lock.json") as [t|e1|] eqn:H1;
    cbn [catch]; [done| |].
  2: { by destruct (getNpmLockDependencies_terminates _ _ H1). }
  destruct (getNpmLockDependencies h "npm-shrinkwrap.json") as [t|e2|] eqn:H2;
    cbn [catch]; [done| |].
  2: { by destruct (getNpmLockDependencies_terminates _ _ H2). }
  destruct (scanInstalledDependencies h depth) as [t|e3|];
    cbn [catch]; [done| |done].
  intros [= <-]. eauto 10.
Qed.

Lemma getAllDependencies_package_tree h depth tree :
  getAllDependencies h depth = Done tree → package_tree tree = true.
Proof.
  unfold getAllDependencies.
  destruct (getNpmLockDependencies h "package-lock.json") as [t| |] eqn:H1;
    cbn [catch]; [intros [= <-]|..|done].
  { apply getNpmLockDependencies_Done in H1 as (c & lock & _ & _ & Hf).
    by eapply filterTree_package_tree. }
  destruct (getNpmLockDependencies h "npm-shrinkwrap.json") as [t| |] eqn:H2;
    cbn [catch]; [intros [= <-]|..|done].
  { apply getNpmLockDependencies_Done in H2 as (c & lock & _ & _ & Hf).
    by eapply filterTree_package_tree. }
  destruct (scanInstalledDependencies h depth) as [t| |] eqn:H3;
    cbn [catch]; [intros [= <-]|done..].
  by eapply scan_package_tree.
Qed.

Lemma getAuditData_Done h depth payload :
  getAuditData h depth = Done payload →
  ∃ packageJson allDependencies,
    modules h !! packageJsonPath h = Some packageJson
    ∧ nullish packageJson = false
    ∧ getAllDependencies h depth = Done allDependencies
    ∧ payload = VObj
        [("name", get packageJson "name");
         ("version", get packageJson "version");
         ("requires", VObj (requires_of packageJson));
         ("dependencies", allDependencies);
         ("install", VArr []);
         ("remove", VArr []);
         ("metadata", metadata h)].
Proof.
  unfold getAuditData.
  destruct (modules h !! packageJsonPath h) as [packageJson|]; [|done].
  destruct (getAllDependencies h depth) as [all| |]; [|done..].
  intros H. exists packageJson, all.
  by destruct packageJson; simplify_eq.
Qed.

(** ** [Object.assign] *)

Lemma set_prop_keys_elem_of o k v k' :
  k' ∈ (set_prop o k v).*1 ↔ k' ∈ o.*1 ∨ k' = k.
Proof.
  rewrite <-!own_is_Some_keys. destruct (decide (k = k')) as [->|Hne].
  - rewrite own_set_prop_eq. split; [by right|by eexists].
  - rewrite own_set_prop_ne by done. split; [by left|]. by intros [?|?].
Qed.



End AuditOutcomes.
Import AuditOutcomes.

(* ===================================================================== *)
(** * What the cached objects hold of their manifests *)
(* ===================================================================== *)

Module ScanManifests.
Section manifests.

Context (h : host).

Abbreviation WITH_DEPS := LOCKED_DEPENDENCIES_REQUIRED_PROPERTIES_WITH_DEPS.
Abbreviation record_of info := (VObj (pick info WITH_DEPS)).

Lemma manifest_ok_initial : manifest_ok h initial.
Proof.
  split; cbn; [done|done|done|]. by intros n r ?%elem_of_nil.
Qed.

Lemma manifest_ok_set_devFlag b s :
  manifest_ok h s → manifest_ok h (set_devFlag b s).
Proof. by intros []. Qed.

Lemma nested_by_rule_top_app dir top extra n :
  nested_by_rule h dir top n → nested_by_rule h dir (top ++ extra) n.
Proof.
  intros (Hne & q & Hq & [Hl|(Hl & Hin & Htop)]); (split; [done|]); exists q;
    (split; [done|]); [by left|right].
  split_and!; [done..|]. intros Ht.
  destruct (Htop Ht) as [?|?]; [left; by apply own_app_is_Some|by right].
Qed.

Lemma manifest_ok_record_resolution path s :
  manifest_ok h s → manifest_ok h (record_resolution path s).
Proof.
  intros [Hm Hr Hn Hd].
  split; unfold record_resolution; cbn [packageCache topLevelDeps resolutions];
    [done|done|done|].
  intros n r Hin. destruct (Hd n r Hin) as (p & m & q & info & Hp & H).
  exists p, m, q, info. split; [|done]. rewrite fmap_app, elem_of_app. by left.
Qed.

(** The fields of the object that [collectDepPackageInfo] builds. *)
Lemma depPackageInfo_of_fields dir m dev requires dependencies :
  let info := depPackageInfo_of dir m dev requires dependencies in
  has info "version" = true
  ∧ get info "version" = get m "version"
  ∧ has info "integrity" = true
  ∧ get info "integrity" = get m "_integrity"
  ∧ has info "requires" = bool_decide (is_Some requires)
  ∧ get info "requires"
    = match requires with Some r => VObj r | None => VUndefined end
  ∧ has info "dependencies" = bool_decide (is_Some dependencies).
Proof.
  destruct dev, requires as [r|], dependencies as [d|]; cbn;
    split_and!; try done;
    ((by rewrite bool_decide_eq_true_2 by eauto)
     || (by rewrite bool_decide_eq_false_2 by (by intros [? [=]]))).
Qed.

Lemma depPackageInfo_of_entries_keys dir m dev requires (d : object) :
  keys (get (depPackageInfo_of dir m dev requires
               (if bool_decide (length d = 0) then None else Some d))
          "dependencies") = d.*1.
Proof. unfold keys. by rewrite depPackageInfo_of_entries. Qed.

Lemma call_manifest_spec rec :
  (∀ dir dep s info s',
     run (rec dir dep) s info s' →
     ∃ p, resolveFrom h dir (dep +:+ "/package.json") = Some p
          ∧ call_manifest h p s info s') →
  ∀ dir dep s info s',
    run (rec dir dep) s info s' →
    ∃ p, resolveFrom h dir (dep +:+ "/package.json") = Some p
         ∧ call_spec h p s info s'.
Proof.
  intros Hrec dir dep s info s' Hrun.
  destruct (Hrec _ _ _ _ _ Hrun) as (p & ? & ? & _). eauto.
Qed.

(** The calls for the declared dependencies keep the invariant. *)
Lemma children_manifest rec dir declared s subDepsInfo s' :
  (∀ dir dep s info s',
     run (rec dir dep) s info s' →
     ∃ p, resolveFrom h dir (dep +:+ "/package.json") = Some p
          ∧ call_manifest h p s info s') →
  run (mapValuesM (rec dir) (entries declared)) s subDepsInfo s' →
  closed_acyclic h (packageCache s) → content_ok h s → manifest_ok h s →
  manifest_ok h s'.
Proof.
  intros Hrec Hrun Hinv Hok Hman.
  enough (closed_acyclic h (packageCache s') ∧ content_ok h s'
          ∧ manifest_ok h s') as (_ & _ & ?); [done|].
  apply (mapValuesM_ind
    (λ _ s1, closed_acyclic h (packageCache s1) ∧ content_ok h s1
             ∧ manifest_ok h s1)
    _ _ _ _ _ Hrun); [done|].
  intros done k v s1 s2 _ (Hinv1 & Hok1 & Hman1) Hcall.
  apply Hrec in Hcall as (p & Hp & (Hstr & Hcont) & Hkeep).
  destruct (Hstr Hinv1) as (_ & Hinv2 & _).
  split_and!; [done|by apply Hcont|by apply Hkeep].
Qed.

(** The classification loop of the package at [path] keeps the invariant:
    what it promotes is a declared dependency of [path]. *)
Lemma classify_loop_manifest path m subDepsInfo subDeps s dependencies s' :
  run (foldM (classify h (path_dirname h path) subDepsInfo) subDeps [])
    s dependencies s' →
  (∀ dep info, (dep, info) ∈ subDepsInfo →
     ∃ p, resolveFrom h (path_dirname h path) (dep +:+ "/package.json") = Some p
          ∧ packageCache s !! p = Some info) →
  modules h !! path = Some m →
  (∀ dep, dep ∈ subDeps → dep ∈ keys (get m "dependencies")) →
  path ∈ (resolutions s).*1 →
  content_ok h s → manifest_ok h s →
  manifest_ok h s'.
Proof.
  intros Hrun Hinfos Hm Hsub Hpath Hok Hman.
  enough (packageCache s' = packageCache s ∧ resolutions s' = resolutions s
          ∧ manifest_ok h s') as (_ & _ & ?); [done|].
  apply (foldM_ind
    (λ _ s1, packageCache s1 = packageCache s ∧ resolutions s1 = resolutions s
             ∧ manifest_ok h s1)
    _ _ _ _ _ _ Hrun); [done|].
  intros x acc s1 acc' s2 Hx (Hc & Hr & Hman1)
    (info & dir & Hown & Hdir & Hcase)%classify_cases.
  cbn zeta in Hcase.
  destruct Hcase as [(_ & _ & ->)|[(Hl & Ht & Hnone & Hinh & _ & ->)
                                   |(_ & _ & _ & ->)]]; [done| |done].
  split_and!; [done..|].
  destruct (Hinfos _ _ (own_Some_elem_of _ _ _ Hown)) as (q & Hq & Hinfo).
  pose proof (ok_dir h s Hok q info Hinfo) as Hdirq.
  rewrite Hdir in Hdirq. injection Hdirq as ->.
  destruct Hman1 as [Hm1 Hr1 Hn1 Hd1].
  split; unfold set_topLevelDeps; cbn [packageCache topLevelDeps resolutions];
    [done|done| |].
  { intros p0 info0 m0 n0 Hp0 Hm0 Hn0.
    destruct (Hn1 p0 info0 m0 n0 Hp0 Hm0 Hn0) as [? ?].
    split; [done|]. by apply nested_by_rule_top_app. }
  intros n r [Hin|[= -> ->]%list_elem_of_singleton]%elem_of_app; [by apply Hd1|].
  exists path, m, q, info.
  split_and!; [by rewrite Hr|done|by apply Hsub|done|by rewrite Hc|done..].
Qed.

Lemma assign_keys_elem_of o k v k' :
  k' ∈ (assign o k v).*1 → k' ∈ o.*1 ∨ (k' = k ∧ k ≠ "__proto__").
Proof.
  unfold assign. destruct (String.eqb_spec k "__proto__") as [->|Hne]; [auto|].
  intros [?| ->]%set_prop_keys_elem_of; auto.
Qed.

(** The loop puts under [dependencies] only names that it has visited, and
    only by the rule. *)
Lemma classify_loop_nested dir subDepsInfo subDeps s dependencies s' :
  run (foldM (classify h dir subDepsInfo) subDeps []) s dependencies s' →
  (∀ dep info, (dep, info) ∈ subDepsInfo →
     ∃ p, resolveFrom h dir (dep +:+ "/package.json") = Some p
          ∧ packageCache s !! p = Some info) →
  content_ok h s →
  ∀ n, n ∈ dependencies.*1 →
       n ∈ subDeps ∧ nested_by_rule h dir (topLevelDeps s') n.
Proof.
  intros Hrun Hinfos Hok.
  apply (foldM_ind
    (λ deps s1, ∀ n, n ∈ deps.*1 →
                     n ∈ subDeps ∧ nested_by_rule h dir (topLevelDeps s1) n)
    _ _ _ _ _ _ Hrun).
  - by intros n ?%elem_of_nil.
  - intros x acc s1 acc' s2 Hx Hacc
      (info & d & Hown & Hdir & Hcase)%classify_cases.
    destruct (Hinfos _ _ (own_Some_elem_of _ _ _ Hown)) as (q & Hq & Hinfo).
    pose proof (ok_dir h s Hok q info Hinfo) as Hdirq.
    rewrite Hdir in Hdirq. injection Hdirq as ->.
    cbn zeta in Hcase.
    destruct Hcase as [(Hl & -> & ->)|[(_ & _ & _ & _ & -> & ->)
                                       |(Hl & Ht & Hrest & ->)]].
    + intros n [?|[-> Hne]]%assign_keys_elem_of; [auto|].
      split; [done|]. split; [done|]. exists q. split; [done|]. by left.
    + intros n Hn. destruct (Hacc n Hn) as [? ?].
      split; [done|]. by apply nested_by_rule_top_app.
    + destruct Hrest as [[Hin ->]|[_ ->]]; [|done].
      intros n [?|[-> Hne]]%assign_keys_elem_of; [auto|].
      split; [done|]. split; [done|]. exists q. split; [done|]. right. done.
Qed.

(** Storing the object of [path]. *)
Lemma manifest_ok_store path info m s :
  manifest_ok h s →
  path ∉ dom (packageCache s) →
  modules h !! path = Some m →
  has info "version" = true →
  get info "version" = get m "version" →
  has info "integrity" = true →
  get info "integrity" = get m "_integrity" →
  has info "requires" = truthy (get m "dependencies") →
  (has info "dependencies" = true → keys (get info "dependencies") ≠ []) →
  keys (get info "requires") = keys (get m "dependencies") →
  (∀ dep v,
     (dep, v) ∈ entries (get info "requires") →
     ∃ q mq,
       resolveFrom h (path_dirname h path) (dep +:+ "/package.json") = Some q
       ∧ q ∈ dom (packageCache s)
       ∧ modules h !! q = Some mq
       ∧ v = get mq "version") →
  (∀ n, n ∈ keys (get info "dependencies") →
        n ∈ keys (get m "dependencies")
        ∧ nested_by_rule h (path_dirname h path) (topLevelDeps s) n) →
  manifest_ok h (store path info s).
Proof.
  intros [Hm Hr Hn Hd] Hnew Hpath Hv Hv' Hi Hi' Hreq Hdeps Hkeys Hvals Hnested.
  assert (∀ q info', packageCache s !! q = Some info' →
            <[path:=info]> (packageCache s) !! q = Some info') as Hkeep.
  { intros q info' Hq. rewrite lookup_insert_ne; [done|]. intros ->.
    apply Hnew. by eapply elem_of_dom_2. }
  split; unfold store, set_packageCache;
    cbn [packageCache topLevelDeps resolutions].
  - intros p info0. rewrite lookup_insert. case_decide as Hp.
    + intros [= <-]. subst p. exists m. done.
    + by apply Hm.
  - intros p info0 m0. rewrite lookup_insert. case_decide as Hp.
    + intros [= <-] Hm0. subst p. rewrite Hpath in Hm0. injection Hm0 as <-.
      split; [done|]. intros dep v Hin.
      destruct (Hvals dep v Hin) as (q & mq & ? & ? & ? & ?).
      exists q, mq. split_and!; [done| |done..].
      rewrite dom_insert_L. by apply elem_of_union_r.
    + intros Hp0 Hm0. destruct (Hr p info0 m0 Hp0 Hm0) as [Hk Hvs].
      split; [done|]. intros dep v Hin.
      destruct (Hvs dep v Hin) as (q & mq & ? & ? & ? & ?).
      exists q, mq. split_and!; [done| |done..].
      rewrite dom_insert_L. by apply elem_of_union_r.
  - intros p info0 m0 n. rewrite lookup_insert. case_decide as Hp.
    + intros [= <-] Hm0. subst p. rewrite Hpath in Hm0. injection Hm0 as <-.
      apply Hnested.
    + apply Hn.
  - intros n r Hin.
    destruct (Hd n r Hin)
      as (p & m0 & q & info0 & ? & ? & ? & ? & ? & ? & ? & ? & ?).
    exists p, m0, q, info0.
    split_and!; [done|done|done|done| |done|done|done|done]. by apply Hkeep.
Qed.

Lemma collect_store_manifest rec path s info s1 :
  (∀ dir dep s info s',
     run (rec dir dep) s info s' →
     ∃ p, resolveFrom h dir (dep +:+ "/package.json") = Some p
          ∧ call_manifest h p s info s') →
  packageCache s !! path = None →
  run (collectDepPackageInfo_with h rec path "dependencies") s info s1 →
  closed_acyclic h (packageCache s) → content_ok h s → manifest_ok h s →
  manifest_ok h (store path info s1).
Proof.
  intros Hrec Hmiss Hrun Hinv Hok Hman.
  pose proof (call_manifest_spec _ Hrec) as Hrec'.
  destruct (collect_structure h _ _ _ _ _ (call_spec_structure _ _ Hrec')
              Hmiss Hrun Hinv) as (Hg & _ & _ & _ & Hnot).
  apply collect_run in Hrun as (m & found & Hm & Hsub & ->).
  apply content_ok_record_resolution with (path := path) in Hok.
  apply manifest_ok_record_resolution with (path := path) in Hman.
  destruct (depPackageInfo_of_fields (path_dirname h path) m (devFlag s1)
              found.1 found.2) as (Hv & Hv' & Hi & Hi' & Hhr & Hgr & Hhd).
  assert (path ∈ (resolutions s1).*1) as Hlogged.
  { destruct Hg as (_ & _ & _ & new & -> & _). cbn.
    rewrite !fmap_app, !elem_of_app. left; right. apply list_elem_of_here. }
  apply collectSubDeps_run in Hsub
    as [(Hf & -> & ->)|(Ht & infos & s2 & deps & Hmap & Hloop & ->)].
  - cbn [fst snd] in *.
    apply (manifest_ok_store _ _ m); try done.
    + by rewrite Hhr, Hf.
    + by rewrite Hhd.
    + by rewrite Hgr, (truthy_or_no_keys _ Hf).
    + rewrite Hgr. by intros dep v ?%elem_of_nil.
    + rewrite depPackageInfo_of_dependencies. by intros n ?%elem_of_nil.
  - cbn [fst snd] in *.
    destruct (children_content h _ _ _ _ _ _ Hrec' Hmap Hinv Hok)
      as [Hok2 Hinfos].
    pose proof (children_manifest _ _ _ _ _ _ Hrec Hmap Hinv Hok Hman) as Hman2.
    pose proof (classify_loop_top_only _ _ _ _ _ _ _ _ Hloop) as (Hc & Hres & _).
    assert (manifest_ok h s1) as Hman1.
    { apply (classify_loop_manifest _ m _ _ _ _ _ Hloop); try done.
      by rewrite <-Hres. }
    apply (manifest_ok_store _ _ m); try done.
    + by rewrite Hhr, Ht.
    + rewrite Hhd. case_bool_decide as Hlen.
      * by intros [? [=]]%bool_decide_eq_true.
      * intros _.
        rewrite (depPackageInfo_of_dependencies _ _ _ _ (Some deps)).
        by destruct deps.
    + rewrite Hgr. unfold keys, mapValues. cbn [entries].
      rewrite <-(mapValuesM_keys _ _ _ _ _ Hmap).
      rewrite <-list_fmap_compose. by apply list_fmap_ext.
    + rewrite Hgr. unfold mapValues. cbn [entries].
      intros dep v ([dep' info'] & [= -> ->] & Hin)%list_elem_of_fmap.
      destruct (Hinfos _ _ Hin) as (q & Hq & Hl). rewrite <-Hc in Hl.
      destruct (ok_manifest h s1 Hman1 q info' Hl) as (mq & Hmq & _ & Hver & _).
      exists q, mq. split_and!; [done|by eapply elem_of_dom_2|done..].
    + rewrite depPackageInfo_of_entries_keys. intros n Hn.
      by apply (classify_loop_nested _ _ _ _ _ _ Hloop Hinfos Hok2).
Qed.

Theorem getDep_manifest depth parentPackageDir packageName s info s' :
  run (getDepPackageInfo h depth parentPackageDir packageName "dependencies")
    s info s' →
  ∃ path,
    resolveFrom h parentPackageDir (packageName +:+ "/package.json") = Some path
    ∧ call_manifest h path s info s'.
Proof.
  apply getDep_ind.
  - intros path s0 info0 Hhit. split; [|done]. split; [|done].
    intros Hinv. split_and!; [apply grows_refl|done..].
  - intros rec Hrec path s0 info0 s1 Hmiss Hcol.
    pose proof (call_manifest_spec _ Hrec) as Hrec'.
    split; [split|].
    + eapply collect_store_structure; [|done..]. by apply call_spec_structure.
    + intros Hinv Hok. by eapply collect_store_content.
    + intros Hinv Hok Hman. by eapply collect_store_manifest.
Qed.

(** Between the calls of the body. *)
Lemma scanning_manifest depth s : scanning h depth s → manifest_ok h s.
Proof.
  induction 1 as [|s dep info s' Hs IH Hcall|s _ IH].
  - apply manifest_ok_initial.
  - destruct (scanning_invariants h _ _ Hs) as (Hinv & Hok & _).
    apply getDep_manifest in Hcall as (path & _ & _ & Hkeep). by apply Hkeep.
  - by apply manifest_ok_set_devFlag.
Qed.

(** ** The manifests that a scan reaches *)

Lemma phase_roots depth names s u s' :
  run (forEach (λ dep, getDepPackageInfo h depth (packageDir h) dep "dependencies")
         names) s u s' →
  closed_acyclic h (packageCache s) →
  closed_acyclic h (packageCache s')
  ∧ packageCache s ⊆ packageCache s'
  ∧ (∀ dep, dep ∈ names →
       ∃ r, resolveFrom h (packageDir h) (dep +:+ "/package.json") = Some r
            ∧ r ∈ dom (packageCache s'))
  ∧ (∀ p, p ∈ dom (packageCache s') → p ∉ dom (packageCache s) →
       ∃ dep r,
         dep ∈ names
         ∧ resolveFrom h (packageDir h) (dep +:+ "/package.json") = Some r
         ∧ rtc (edge h) r p).
Proof.
  intros Hrun Hinv. unfold forEach in Hrun.
  apply (foldM_ind_visited
    (λ visited _ s1,
       closed_acyclic h (packageCache s1)
       ∧ packageCache s ⊆ packageCache s1
       ∧ (∀ dep, dep ∈ visited →
            ∃ r, resolveFrom h (packageDir h) (dep +:+ "/package.json") = Some r
                 ∧ r ∈ dom (packageCache s1))
       ∧ (∀ p, p ∈ dom (packageCache s1) → p ∉ dom (packageCache s) →
            ∃ dep r,
              dep ∈ visited
              ∧ resolveFrom h (packageDir h) (dep +:+ "/package.json") = Some r
              ∧ rtc (edge h) r p))
    _ _ _ _ _ _ Hrun).
  - split_and!; [done..| |].
    + by intros dep ?%elem_of_nil.
    + by intros p ??.
  - intros visited x [] s1 [] s2 (Hinv1 & Hsub1 & Hvis & Hnew)
      (info & s2' & Hcall & [_ ->]%run_ret)%run_bind.
    apply getDep_structure in Hcall as (path & Hpath & Hstr).
    destruct (Hstr Hinv1) as ((_ & Hsub2 & _) & Hinv2 & Hlook & Hdesc).
    pose proof (subseteq_dom _ _ Hsub2) as Hdom2.
    split_and!; [done|by etrans| |].
    + intros dep [Hin| ->%list_elem_of_singleton]%elem_of_app.
      * destruct (Hvis dep Hin) as (r & Hr & Hcached). exists r.
        split; [done|]. by apply Hdom2.
      * exists path. split; [done|]. by eapply elem_of_dom_2.
    + intros p Hp Hnot.
      destruct (decide (p ∈ dom (packageCache s1))) as [Hin1|Hnin1].
      * destruct (Hnew p Hin1 Hnot) as (dep & r & Hdep & Hr & Hreach).
        exists dep, r. split_and!; [|done..]. apply elem_of_app. by left.
      * exists x, path. split_and!; [|done|by apply Hdesc].
        apply elem_of_app. right. apply list_elem_of_here.
Qed.

(** When the scan returns, the keys of the cache are the reachable
    manifests. *)
Lemma scan_reach depth u s :
  run (scan h depth) initial u s →
  ∀ x, x ∈ dom (packageCache s) ↔ reachable h x.
Proof.
  intros (packageJson & s1 & Hm & Hprod & Hdev)%scan_run.
  destruct (phase_roots _ _ _ _ _ Hprod (closed_acyclic_empty h))
    as (Hinv1 & _ & Hroots1 & Hnew1).
  destruct (phase_roots _ _ _ _ _ Hdev Hinv1)
    as (Hinv2 & Hsub2 & Hroots2 & Hnew2).
  cbn in Hsub2, Hnew2. pose proof (subseteq_dom _ _ Hsub2) as Hdom2.
  intros x. split.
  - intros Hx. destruct (decide (x ∈ dom (packageCache s1))) as [Hin1|Hnin1].
    + destruct (Hnew1 x Hin1) as (dep & r & Hdep & Hr & Hreach).
      { cbn. rewrite dom_empty_L. apply not_elem_of_empty. }
      exists r. split; [|done]. exists packageJson, dep. auto.
    + destruct (Hnew2 x Hx Hnin1) as (dep & r & Hdep & Hr & Hreach).
      exists r. split; [|done]. exists packageJson, dep. auto.
  - intros (r & (packageJson' & dep & Hm' & Hdep & Hr) & Hreach).
    rewrite Hm in Hm'. injection Hm' as <-.
    apply (closed_rtc h _ r); [done| |done].
    destruct Hdep as [Hdep|Hdep].
    + destruct (Hroots1 dep Hdep) as (r' & Hr' & Hin). apply Hdom2. congruence.
    + destruct (Hroots2 dep Hdep) as (r' & Hr' & Hin). congruence.
Qed.


(** ** The records of the tree, at every depth *)

Lemma node_at_cached s path : ∀ t r,
  content_ok h s →
  (∀ n r, (n, r) ∈ entries t →
     ∃ q info, packageCache s !! q = Some info ∧ r = record_of info) →
  node_at t path = Some r →
  ∃ q info, packageCache s !! q = Some info ∧ r = record_of info.
Proof.
  induction path as [|name path IH]; intros t r Hok Ht Hr; [done|].
  cbn [node_at] in Hr.
  destruct (own (entries t) name) as [node|] eqn:Hown; [|done].
  cbn [mbind option_bind] in Hr.
  destruct (Ht _ _ (own_Some_elem_of _ _ _ Hown)) as (q & info & Hq & ->).
  destruct path as [|name' path]; [injection Hr as <-; eauto|].
  apply (IH (get (record_of info) "dependencies")); [done| |done].
  rewrite get_pick, decide_True by compute_done.
  intros n r' Hin.
  destruct (ok_deps h s Hok q info n r' Hq Hin) as (q' & info' & _ & ? & ?).
  eauto.
Qed.

End manifests.
End ScanManifests.
Import ScanManifests.

(* ===================================================================== *)
(** * The project manifest that a scan needs *)
(* ===================================================================== *)

Module ProjectManifest.
Section manifest.

Context (h : host).

(** A scan that returns has read both maps off the project manifest. *)
Lemma scan_run_maps depth s u s' :
  run (scan h depth) s u s' →
  ∃ packageJson,
    modules h !! packageJsonPath h = Some packageJson
    ∧ nullish (get packageJson "dependencies") = false
    ∧ nullish (get packageJson "devDependencies") = false.
Proof.
  unfold scan.
  intros (packageJson & s0 & [Hm <-]%run_lift & Hrun)%run_bind.
  apply run_bind in Hrun as (production & s1 & (_ & _ & -> & <-)%run_prop & Hrun).
  apply run_bind in Hrun as (names & s2 & (Hu & Hn & -> & <-)%run_Object_keys & Hrun).
  apply run_bind in Hrun as ([] & s3 & Hprod & Hrun).
  apply run_bind in Hrun as ([] & s4 & ->%run_modify & Hrun).
  apply run_bind in Hrun as (development & s5 & (_ & _ & -> & <-)%run_prop & Hrun).
  apply run_bind in Hrun as (names' & s6 & (Hu' & Hn' & -> & <-)%run_Object_keys & Hrun).
  exists packageJson. split_and!; [done|by apply nullish_false..].
Qed.

(** Without [dependencies] the scan stops at the first [Object.keys]. *)
Lemma scan_no_dependencies depth s packageJson :
  modules h !! packageJsonPath h = Some packageJson →
  nullish (get packageJson "dependencies") = true →
  scan h depth s = Throw TypeError.
Proof.
  intros Hm Hn. unfold scan, require, mbind, M_bind. rewrite Hm. cbn [lift].
  unfold mret at 1, M_ret at 1.
  destruct (nullish packageJson) eqn:Hp; [by destruct packageJson|].
  assert (prop packageJson "dependencies" s
          = Done (get packageJson "dependencies", s)) as ->.
  { by destruct packageJson. }
  by destruct (get packageJson "dependencies").
Qed.

End manifest.
End ProjectManifest.
Import ProjectManifest.

(* ===================================================================== *)
(** * The two path tests as tests on strings *)
(* ===================================================================== *)

Module PathTests.

Lemma prefix_app_iff (p d : string) :
  String.prefix p d = true ↔ ∃ rest, d = p +:+ rest.
Proof.
  revert d. induction p as [|a p IH]; intros d; cbn.
  - destruct d; (split; [by eexists|done]).
  - destruct d as [|b d].
    + split; [done|]. by intros [rest [=]].
    + cbn. destruct (Ascii.ascii_dec a b) as [->|Hne].
      * rewrite IH. split; intros [rest Hrest]; exists rest.
        -- cbn [String.append]. by rewrite Hrest.
        -- cbn [String.append] in Hrest. by injection Hrest.
      * split; [done|]. intros [rest Hrest].
        cbn [String.append] in Hrest. by injection Hrest.
Qed.

(** [String.index] finds no occurrence exactly when there is none. *)
Lemma index_None_iff (needle hay : string) :
  String.index 0 needle hay = None ↔
    ∀ before after, hay ≠ before +:+ needle +:+ after.
Proof.
  induction hay as [|b hay IH]; cbn [String.index].
  - destruct needle as [|a needle].
    + split; [done|]. intros H. by destruct (H "" "").
    + split; [|done]. intros _ before after. by destruct before.
  - destruct (String.prefix needle (String b hay)) eqn:Hp.
    + split; [done|]. intros H.
      apply prefix_app_iff in Hp as [rest Hrest]. by destruct (H "" rest).
    + assert (match String.index 0 needle hay with
              | Some n => Some (S n)
              | None => None
              end = None ↔ String.index 0 needle hay = None) as ->.
      { by destruct (String.index 0 needle hay). }
      rewrite IH. split.
      * intros H [|c before] after Heq.
        -- assert (String.prefix needle (String b hay) = true) as Hp'.
           { apply prefix_app_iff. by exists after. }
           congruence.
        -- injection Heq as -> Heq. by apply (H before after).
      * intros H before after ->. by apply (H (String b before) after).
Qed.

Lemma indexOf_negative (hay needle : string) :
  (indexOf hay needle <? 0)%Z = true ↔
    ∀ before after, hay ≠ before +:+ needle +:+ after.
Proof.
  rewrite <-index_None_iff. unfold indexOf.
  destruct (String.index 0 needle hay) as [i|]; [|done].
  split; [|done]. intros H%Z.ltb_lt. lia.
Qed.

End PathTests.
Import PathTests.

(* ===================================================================== *)
(** * A scan of an installed layout does not throw *)
(* ===================================================================== *)

Module ScanProgress.

Lemma no_throw_bind {A B} (m : M A) (f : A → M B) s :
  no_throw m s →
  (∀ a s', run m s a s' → no_throw (f a) s') →
  no_throw (m ≫= f) s.
Proof.
  unfold no_throw, run, mbind, M_bind. intros Hm Hf e.
  destruct (m s) as [[a s']|e'|] eqn:Hms; [by apply Hf| |done].
  by destruct (Hm e').
Qed.

Lemma no_throw_ret {A} (a : A) s : no_throw (mret a) s.
Proof. done. Qed.

Lemma no_throw_lift {A} e (x : option A) s : is_Some x → no_throw (lift e x) s.
Proof. by intros [a ->]. Qed.

Lemma no_throw_prop v k s : nullish v = false → no_throw (prop v k) s.
Proof. by destruct v. Qed.

Lemma no_throw_Object_keys v s : nullish v = false → no_throw (Object_keys v) s.
Proof. by destruct v. Qed.

(** A loop does not throw when an invariant of its runs keeps every turn
    from throwing. *)
Lemma no_throw_foldM {A B} (J : B → state → Prop) (f : A → B → M B) xs acc s :
  J acc s →
  (∀ x acc s1, x ∈ xs → J acc s1 →
     no_throw (f x acc) s1
     ∧ ∀ acc' s2, run (f x acc) s1 acc' s2 → J acc' s2) →
  no_throw (foldM f xs acc) s.
Proof.
  revert acc s. induction xs as [|x xs IH]; intros acc s HJ Hstep;
    cbn [foldM]; [done|].
  destruct (Hstep x acc s (list_elem_of_here _ _) HJ) as [Hsafe Hkeep].
  apply no_throw_bind; [done|]. intros acc' s' Hrun.
  apply IH; [by apply Hkeep|].
  intros y acc1 s1 Hy. apply Hstep. by apply list_elem_of_further.
Qed.

Lemma no_throw_forEach {A B} (J : state → Prop) (f : A → M B) xs s :
  J s →
  (∀ x s1, x ∈ xs → J s1 →
     no_throw (f x) s1 ∧ ∀ b s2, run (f x) s1 b s2 → J s2) →
  no_throw (forEach f xs) s.
Proof.
  intros HJ Hstep. unfold forEach.
  apply (no_throw_foldM (λ _, J)); [done|].
  intros x [] s1 Hx HJ1. destruct (Hstep x s1 Hx HJ1) as [Hsafe Hkeep]. split.
  - apply no_throw_bind; [done|]. intros; apply no_throw_ret.
  - intros [] s2 (b & s1' & Hf & [_ ->]%run_ret)%run_bind. by eapply Hkeep.
Qed.

Lemma no_throw_mapValuesM (J : state → Prop) f o s :
  J s →
  (∀ k s1, k ∈ o.*1 → J s1 →
     no_throw (f k) s1 ∧ ∀ v s2, run (f k) s1 v s2 → J s2) →
  no_throw (mapValuesM f o) s.
Proof.
  revert s. induction o as [|[k x] o IH]; intros s HJ Hstep;
    cbn [mapValuesM]; [done|].
  destruct (Hstep k s (list_elem_of_here _ _) HJ) as [Hsafe Hkeep].
  apply no_throw_bind; [done|]. intros v s1 Hrun.
  apply no_throw_bind; [|intros; apply no_throw_ret].
  apply IH; [by eapply Hkeep|].
  intros k' s2 Hk'. apply Hstep. by apply list_elem_of_further.
Qed.

Section progress.

Context (h : host).

(** A turn of the loop throws only when the object of the dependency is
    missing or has no directory. *)
Lemma no_throw_classify dir subDepsInfo subDep dependencies s info d :
  own subDepsInfo subDep = Some info →
  get info "packageDir" = VStr d →
  no_throw (classify h dir subDepsInfo subDep dependencies) s.
Proof.
  intros Hown Hdir e. rewrite (classify_eq _ _ _ _ _ _ _ _ Hown Hdir).
  cbn zeta. by repeat case_match.
Qed.

Lemma no_throw_getDep depth : ∀ parentPackageDir packageName s,
  installed h →
  resolves_to_manifest h parentPackageDir packageName →
  closed_acyclic h (packageCache s) → content_ok h s →
  no_throw
    (getDepPackageInfo h depth parentPackageDir packageName "dependencies") s.
Proof.
  induction depth as [|depth IH];
    intros parentPackageDir packageName s Hinst (path & Hres & Hexists) Hinv Hok;
    [done|].
  cbn [getDepPackageInfo]. rewrite Hres.
  apply no_throw_bind; [done|]. intros ? s0 [<- <-]%run_ret.
  apply no_throw_bind; [done|]. intros cache s1 [-> ->]%run_gets.
  destruct (packageCache s !! path) as [info|] eqn:Hmiss; [done|].
  apply no_throw_bind;
    [|intros info s2 _; apply no_throw_bind; [done|];
      intros c s3 _; by apply no_throw_bind].
  destruct Hexists as [m Hm]. destruct (Hinst path m Hm) as [Hobj Hdeps].
  unfold collectDepPackageInfo_with.
  apply no_throw_bind; [done|]. intros [] s0 ->%run_modify.
  apply no_throw_bind; [apply no_throw_lift; by rewrite Hm|].
  intros m' s1 [Hm' <-]%run_lift. rewrite Hm in Hm'. injection Hm' as <-.
  apply no_throw_bind; [by apply no_throw_prop|].
  intros declared s1 (_ & _ & -> & <-)%run_prop.
  apply no_throw_bind; [|intros found s1 _; by apply no_throw_bind].
  unfold collectSubDeps. destruct (truthy (get m "dependencies")); [|done].
  apply content_ok_record_resolution with (path := path) in Hok.
  apply no_throw_bind.
  - apply (no_throw_mapValuesM
             (λ s1, closed_acyclic h (packageCache s1) ∧ content_ok h s1));
      [done|].
    intros k s1 Hk [Hinv1 Hok1]. split.
    + apply IH; [done|by apply Hdeps|done..].
    + intros v s2 (p & _ & Hstr & Hcont)%getDep_spec.
      destruct (Hstr Hinv1) as (_ & Hinv2 & _). split; [done|by apply Hcont].
  - intros infos s1 Hmap. apply no_throw_bind; [|done].
    destruct (children_content h _ _ _ _ _ _
                (λ dir dep s info s', getDep_spec h depth dir dep s info s')
                Hmap Hinv Hok) as [Hok1 Hinfos].
    apply (no_throw_foldM (λ _ s2, packageCache s2 = packageCache s1)); [done|].
    intros x acc s2 Hx Hc. split.
    + assert (x ∈ infos.*1) as [info Hown]%own_is_Some_keys.
      { by rewrite (mapValuesM_keys _ _ _ _ _ Hmap). }
      destruct (Hinfos _ _ (own_Some_elem_of _ _ _ Hown)) as (q & _ & Hq).
      eapply no_throw_classify; [done|]. by apply (ok_dir h s1 Hok1 q).
    + intros acc' s3 (Hc' & _)%classify_top_only. congruence.
Qed.

Lemma no_throw_phase depth names s :
  installed h →
  (∀ dep, dep ∈ names → resolves_to_manifest h (packageDir h) dep) →
  closed_acyclic h (packageCache s) → content_ok h s →
  no_throw
    (forEach (λ dep, getDepPackageInfo h depth (packageDir h) dep "dependencies")
       names) s.
Proof.
  intros Hinst Hnames Hinv Hok.
  apply (no_throw_forEach
           (λ s1, closed_acyclic h (packageCache s1) ∧ content_ok h s1));
    [done|].
  intros dep s1 Hdep [Hinv1 Hok1]. split.
  - apply no_throw_getDep; [done|by apply Hnames|done..].
  - intros v s2 (p & _ & Hstr & Hcont)%getDep_spec.
    destruct (Hstr Hinv1) as (_ & Hinv2 & _). split; [done|by apply Hcont].
Qed.

Lemma no_throw_scan depth :
  installed h → project_ok h → no_throw (scan h depth) initial.
Proof.
  intros Hinst (packageJson & Hm & Hprod & Hdev & Hdevs). unfold scan, require.
  destruct (Hinst _ _ Hm) as [Hobj Hprods].
  apply no_throw_bind; [apply no_throw_lift; by rewrite Hm|].
  intros m s0 [Hm' <-]%run_lift. rewrite Hm in Hm'. injection Hm' as <-.
  apply no_throw_bind; [by apply no_throw_prop|].
  intros production s1 (_ & _ & -> & <-)%run_prop.
  apply no_throw_bind; [by apply no_throw_Object_keys|].
  intros names s2 (_ & _ & -> & <-)%run_Object_keys.
  apply no_throw_bind.
  { apply no_throw_phase; [done|by apply Hprods|apply closed_acyclic_empty
                           |apply content_ok_initial]. }
  intros [] s1 Hphase.
  destruct (phase_spec h _ _ _ _ _ Hphase (closed_acyclic_empty h)
              (content_ok_initial h)) as (_ & Hinv1 & Hok1).
  apply no_throw_bind; [done|]. intros [] s2 ->%run_modify.
  apply no_throw_bind; [by apply no_throw_prop|].
  intros development s3 (_ & _ & -> & <-)%run_prop.
  apply no_throw_bind; [by apply no_throw_Object_keys|].
  intros names' s4 (_ & _ & -> & <-)%run_Object_keys.
  apply no_throw_bind; [|done].
  apply no_throw_phase; [done|done|done|by apply content_ok_set_devFlag].
Qed.

End progress.
End ScanProgress.
Import ScanProgress.

Module MoreExampleFacts.
Import Examples.

(** In the [left-pad] layout every declared dependency is installed. *)
Lemma left_pad_installed : installed left_pad_host_empty_dev.
Proof.
  intros p m Hm.
  destruct (decide (p = "/proj/package.json")) as [->|Hroot].
  - vm_compute in Hm. injection Hm as <-. split; [done|].
    intros dep Hdep. vm_compute in Hdep.
    apply list_elem_of_singleton in Hdep as ->.
    exists "/proj/node_modules/left-pad/package.json".
    split; [reflexivity|]. by eexists.
  - destruct (decide (p = "/proj/node_modules/left-pad/package.json"))
      as [->|Hlp].
    + vm_compute in Hm. injection Hm as <-. split; [done|].
      intros dep Hdep. vm_compute in Hdep. by apply elem_of_nil in Hdep.
    + cbn in Hm. unfold left_pad_files in Hm. cbn [list_to_map foldr] in Hm.
      by rewrite !lookup_insert_ne, lookup_empty in Hm.
Qed.

Lemma left_pad_project_ok : project_ok left_pad_host_empty_dev.
Proof.
  eexists. split_and!; [reflexivity|done|done|].
  intros dep Hdep. vm_compute in Hdep. by apply elem_of_nil in Hdep.
Qed.

End MoreExampleFacts.

(* ===================================================================== *)
(** * The filter on the tree of the scanner *)
(* ===================================================================== *)

Module FilterOnScan.

Abbreviation REQUIRED := LOCKED_DEPENDENCIES_REQUIRED_PROPERTIES.
Abbreviation WITH_DEPS := LOCKED_DEPENDENCIES_REQUIRED_PROPERTIES_WITH_DEPS.
Abbreviation record_of info := (VObj (pick info WITH_DEPS)).

Lemma pick_app v (p1 p2 : list string) :
  pick v (p1 ++ p2) = pick v p1 ++ pick v p2.
Proof. unfold pick. apply omap_app. Qed.

Lemma pick_record_required info :
  pick (record_of info) REQUIRED = pick info REQUIRED.
Proof.
  apply pick_ext. intros k Hk.
  assert (k ∈ WITH_DEPS) as Hin.
  { unfold LOCKED_DEPENDENCIES_REQUIRED_PROPERTIES_WITH_DEPS.
    apply elem_of_app. by left. }
  rewrite has_pick, get_pick, (bool_decide_eq_true_2 _ Hin).
  by rewrite decide_True by done.
Qed.

(** The projection with [dependencies] is the projection without, with the
    field added when the object has it. *)
Lemma record_of_eq info :
  pick info WITH_DEPS
  = if has info "dependencies"
    then set_prop (pick info REQUIRED) "dependencies" (get info "dependencies")
    else pick info REQUIRED.
Proof.
  unfold LOCKED_DEPENDENCIES_REQUIRED_PROPERTIES_WITH_DEPS at 1.
  rewrite pick_app, (pick_cons info "dependencies" []).
  change (pick info []) with (@nil (string * value)).
  destruct (has info "dependencies").
  - rewrite set_prop_keys_fresh; [done|].
    intros ([k x] & Heq & Hin%pick_keys)%list_elem_of_fmap.
    cbn [fst] in Heq, Hin. subst k. by apply dependencies_not_required.
  - by rewrite app_nil_r.
Qed.

Lemma record_dependencies_object info :
  package_record (record_of info) = true →
  has info "dependencies" = true →
  ∃ d, get info "dependencies" = VObj d.
Proof.
  intros Hrec Hhas. cbn [package_record package_record_with] in Hrec.
  rewrite forallb_forall in Hrec.
  assert (("dependencies", get info "dependencies") ∈ pick info WITH_DEPS)
    as Hin.
  { apply own_Some_elem_of. rewrite own_pick, decide_True by compute_done.
    by rewrite Hhas. }
  apply list_elem_of_In, Hrec in Hin. cbn [fst snd] in Hin.
  apply andb_true_iff in Hin as [_ Hin]. cbn in Hin.
  destruct (get info "dependencies"); try done. by eexists.
Qed.

Section fixed.

Context (h : host) (s : state) (Hok : content_ok h s).

Lemma filter_fixes_cached_both t :
  ((∀ n r, (n, r) ∈ entries t →
      ∃ q info, packageCache s !! q = Some info ∧ r = record_of info) →
   ∀ o, t = VObj o → filterTree t = Some t)
  ∧ ((∃ q info, packageCache s !! q = Some info ∧ t = record_of info) →
     filterNode t = Some t).
Proof.
  revert t. apply filter_ind.
  - intros t Hall Hrecords o ->. rewrite filterTree_obj_eq.
    assert (mapM filterEntry o = Some o) as ->; [|done].
    apply mapM_Some. apply Forall_Forall2_diag.
    cbn [entries] in Hall, Hrecords. rewrite Forall_forall in Hall.
    apply Forall_forall. intros [n r] Hin. unfold filterEntry. cbn [fst snd].
    pose proof (Hall _ Hin (Hrecords n r Hin)) as Hr. cbn [snd] in Hr.
    by rewrite Hr.
  - intros v IH (q & info & Hq & ->).
    rewrite filterNode_eq_nonnull by done.
    rewrite pick_record_required, get_pick, decide_True by compute_done.
    rewrite (record_of_eq info).
    destruct (has info "dependencies") eqn:Hhas.
    + destruct (record_dependencies_object info (ok_record h s Hok q info Hq) Hhas)
        as [d Hd].
      rewrite get_pick, decide_True in IH by compute_done.
      rewrite Hd in IH |- *. cbn [truthy].
      assert (filterTree (VObj d) = Some (VObj d)) as ->; [|done].
      apply (λ H, IH H d eq_refl). intros n r Hin.
      destruct (ok_deps h s Hok q info n r Hq) as (q' & info' & _ & ? & ?);
        [by rewrite Hd|eauto].
    + assert (get info "dependencies" = VUndefined) as ->; [|done].
      destruct info; try done. cbn in *.
      apply bool_decide_eq_false_1 in Hhas.
      destruct (own props "dependencies"); [|done]. destruct Hhas; eauto.
Qed.

End fixed.

Lemma filterTree_scan h depth tree :
  scanInstalledDependencies h depth = Done tree → filterTree tree = Some tree.
Proof.
  intros (s & Hrun & ->)%scanInstalledDependencies_Done.
  apply scan_spec in Hrun as [Hok _].
  apply (proj1 (filter_fixes_cached_both h s Hok (VObj (topLevelDeps s))))
    with (o := topLevelDeps s); [|done].
  intros n r Hin.
  destruct (ok_top h s Hok n r Hin) as (_ & q & info & _ & ? & ?). eauto.
Qed.

End FilterOnScan.
Import FilterOnScan.

(* ===================================================================== *)
(** * The lock-tree filter: shape of the output and idempotence *)
(* ===================================================================== *)

(** C7.  The tree filter is idempotent: filtering the output of the filter
    gives that output again, for every input; when the filter throws on the
    input, so does the composition. *)
Theorem filterTree_idempotent (T : value) :
  filterTree T ≫= filterTree = filterTree T.
Proof.
  destruct (filterTree T) as [T'|] eqn:HT; [|done].
  cbn. by apply (proj1 (filterTree_fixed_both T)).
Qed.

(** C4, as the claim states its second half, fails: a node whose
    [dependencies] is the empty mapping keeps a [dependencies] field with no
    child. *)
Lemma filterTree_keeps_empty_dependencies :
  ¬ (∀ T T' path r,
       filterTree T = Some T' → node_at T' path = Some r →
       (has r "dependencies" = true ↔ keys (get r "dependencies") ≠ [])).
Proof.
  intros H.
  pose (T := VObj [("a", VObj [("version", VStr "1.0.0");
                               ("dependencies", VObj [])])]).
  destruct (H T T ["a"]
              (VObj [("version", VStr "1.0.0"); ("dependencies", VObj [])])
              eq_refl eq_refl) as [H1 _].
  by apply H1.
Qed.

(** C4, amended.  At every depth of the output of the filter a record has
    only fields among [version], [dev], [requires], [integrity],
    [dependencies]; it has a [dependencies] field exactly when the
    [dependencies] of the input node is truthy, and that field then has one
    child for each own key of the input's [dependencies] (none when the
    input's is an empty mapping). *)
Theorem filterTree_output_shape (T T' : value) :
  filterTree T = Some T' →
  package_tree T' = true
  ∧ ∀ path r,
      node_at T' path = Some r →
      ∃ v, node_at T path = Some v
           ∧ has r "dependencies" = truthy (get v "dependencies")
           ∧ keys (get r "dependencies") = keys (get v "dependencies").
Proof.
  intros HT. split; [by eapply filterTree_package_tree|].
  intros path r Hr.
  destruct (node_at_filtered _ _ _ _ HT Hr) as (v & Hv & Hf).
  exists v. destruct (filterNode_dependencies _ _ Hf) as (? & _ & ?). done.
Qed.

Lemma filterTree_output_shape_witness :
  package_tree
    (VObj [("a", VObj [("version", VStr "1.0.0");
                       ("dependencies",
                        VObj [("b", VObj [("integrity", VStr "sha1-x")])])])])
  = true
  ∧ ∀ path r,
      node_at
        (VObj [("a", VObj [("version", VStr "1.0.0");
                           ("dependencies",
                            VObj [("b", VObj [("integrity", VStr "sha1-x")])])])])
        path = Some r →
      ∃ v, node_at
             (VObj [("a", VObj [("version", VStr "1.0.0");
                                ("resolved", VStr "https://registry/a.tgz");
                                ("dependencies",
                                 VObj [("b", VObj [("integrity", VStr "sha1-x");
                                                   ("bundled", VBool true)])])])])
             path = Some v
           ∧ has r "dependencies" = truthy (get v "dependencies")
           ∧ keys (get r "dependencies") = keys (get v "dependencies").
Proof.
  apply (filterTree_output_shape
           (VObj [("a", VObj [("version", VStr "1.0.0");
                              ("resolved", VStr "https://registry/a.tgz");
                              ("dependencies",
                               VObj [("b", VObj [("integrity", VStr "sha1-x");
                                                 ("bundled", VBool true)])])])])).
  reflexivity.
Defined.

(* ===================================================================== *)
(** * Source selection *)
(* ===================================================================== *)

(** C3, as the claim states it, fails: with no [package-lock.json] and an
    [npm-shrinkwrap.json] that parses but has a [null] node, the filter throws
    on the fallback's tree and the result is the output of the scanner. *)
Lemma fallback_parses_but_scanner_answers :
  ¬ (∀ h depth contents lock,
       readFile h (path_resolve h "package-lock.json") = None →
       readFile h (path_resolve h "npm-shrinkwrap.json") = Some contents →
       JSON_parse h contents = Some lock →
       ∃ tree, filterTree (get lock "dependencies") = Some tree
               ∧ getAllDependencies h depth = Done tree).
Proof.
  intros H.
  destruct (H (Examples.shrinkwrap_host "NULL-NODE") 3 "NULL-NODE"
              Examples.null_node_document eq_refl eq_refl eq_refl)
    as (tree & Htree & _).
  by vm_compute in Htree.
Qed.

(** C3, amended.  The sources are tried in strict order.  If
    [package-lock.json] parses to a document that is not [null] and whose
    [dependencies] the filter accepts, the result is that filtered tree,
    whatever [npm-shrinkwrap.json] and the installed packages are.  If
    [package-lock.json] does not load - it is missing or unparsable, or
    fails in any other way - and [npm-shrinkwrap.json] parses to a document
    that is not [null] and whose [dependencies] the filter accepts, the
    result is that filtered tree.  If neither lock file loads, the result is
    the output of the scanner, and if the scanner throws too, the operation
    fails with one error whose message names both filenames.  A tree that is
    returned is the complete tree of one source. *)
Theorem getAllDependencies_order (h : host) (depth : nat) :
  (∀ contents lock tree,
     readFile h (path_resolve h "package-lock.json") = Some contents →
     JSON_parse h contents = Some lock →
     lock ≠ VUndefined → lock ≠ VNull →
     filterTree (get lock "dependencies") = Some tree →
     getAllDependencies h depth = Done tree)
  ∧ (∀ contents lock tree,
       (readFile h (path_resolve h "package-lock.json") = None
        ∨ ∃ c, readFile h (path_resolve h "package-lock.json") = Some c
               ∧ JSON_parse h c = None) →
       readFile h (path_resolve h "npm-shrinkwrap.json") = Some contents →
       JSON_parse h contents = Some lock →
       lock ≠ VUndefined → lock ≠ VNull →
       filterTree (get lock "dependencies") = Some tree →
       getAllDependencies h depth = Done tree)
  ∧ (∀ e1 tree,
       getNpmLockDependencies h "package-lock.json" = Throw e1 →
       getNpmLockDependencies h "npm-shrinkwrap.json" = Done tree →
       getAllDependencies h depth = Done tree)
  ∧ (∀ e1 e2,
       getNpmLockDependencies h "package-lock.json" = Throw e1 →
       getNpmLockDependencies h "npm-shrinkwrap.json" = Throw e2 →
       (∀ tree, scanInstalledDependencies h depth = Done tree →
                getAllDependencies h depth = Done tree)
       ∧ (∀ e, scanInstalledDependencies h depth = Throw e →
               getAllDependencies h depth = Throw (Error FAILED_MESSAGE)))
  ∧ (is_Some (String.index 0 "package-lock.json" FAILED_MESSAGE)
     ∧ is_Some (String.index 0 "npm-shrinkwrap.json" FAILED_MESSAGE))
  ∧ (∀ tree,
       getAllDependencies h depth = Done tree →
       getNpmLockDependencies h "package-lock.json" = Done tree
       ∨ ((∃ e1, getNpmLockDependencies h "package-lock.json" = Throw e1)
          ∧ getNpmLockDependencies h "npm-shrinkwrap.json" = Done tree)
       ∨ ((∃ e1, getNpmLockDependencies h "package-lock.json" = Throw e1)
          ∧ (∃ e2, getNpmLockDependencies h "npm-shrinkwrap.json" = Throw e2)
          ∧ scanInstalledDependencies h depth = Done tree)).
Proof.
  split_and!.
  - intros contents lock tree Hread Hparse Hu Hn Htree.
    unfold getAllDependencies.
    by rewrite (getNpmLockDependencies_filtered _ _ _ _ _ Hread Hparse Hu Hn Htree).
  - intros contents lock tree Hprimary Hread Hparse Hu Hn Htree.
    unfold getAllDependencies.
    assert (∃ e, getNpmLockDependencies h "package-lock.json" = Throw e)
      as [e ->].
    { destruct Hprimary as [Hmiss|(c & Hc & Hp)].
      - eexists. by apply getNpmLockDependencies_missing.
      - eexists. by eapply getNpmLockDependencies_unparsable. }
    cbn [catch].
    by rewrite (getNpmLockDependencies_filtered _ _ _ _ _ Hread Hparse Hu Hn Htree).
  - intros e1 tree H1 H2. unfold getAllDependencies. by rewrite H1, H2.
  - intros e1 e2 H1 H2. unfold getAllDependencies. rewrite H1. cbn [catch].
    rewrite H2. cbn [catch]. split; by intros ? ->.
  - by vm_compute; eauto.
  - by vm_compute; eauto.
  - intros tree. unfold getAllDependencies.
    destruct (getNpmLockDependencies h "package-lock.json") as [t|e1|] eqn:H1;
      cbn [catch]; [intros [= ->]; by left| |].
    2: { by destruct (getNpmLockDependencies_terminates _ _ H1). }
    destruct (getNpmLockDependencies h "npm-shrinkwrap.json") as [t|e2|] eqn:H2;
      cbn [catch]; [intros [= ->]; right; left; eauto| |].
    2: { by destruct (getNpmLockDependencies_terminates _ _ H2). }
    destruct (scanInstalledDependencies h depth); cbn [catch];
      [intros [= ->]; right; right; eauto|done..].
Qed.

Lemma getAllDependencies_order_witness :
  getAllDependencies Examples.both_maps_host 3
  = Done (VObj [("a", VObj [("version", VStr "1.1.0");
                            ("integrity", VStr "sha512-a")])])
  ∧ getAllDependencies (Examples.shrinkwrap_host "LOCK") 3
    = Done (VObj [("a", VObj [("version", VStr "1.1.0");
                              ("integrity", VStr "sha512-a")])])
  ∧ getAllDependencies Examples.bare_host 3
    = Throw (Error FAILED_MESSAGE)
  ∧ (getNpmLockDependencies (Examples.shrinkwrap_host "LOCK")
       "package-lock.json"
     = Done (VObj [("a", VObj [("version", VStr "1.1.0");
                               ("integrity", VStr "sha512-a")])])
     ∨ ((∃ e1, getNpmLockDependencies (Examples.shrinkwrap_host "LOCK")
                 "package-lock.json" = Throw e1)
        ∧ getNpmLockDependencies (Examples.shrinkwrap_host "LOCK")
            "npm-shrinkwrap.json"
          = Done (VObj [("a", VObj [("version", VStr "1.1.0");
                                    ("integrity", VStr "sha512-a")])]))
     ∨ ((∃ e1, getNpmLockDependencies (Examples.shrinkwrap_host "LOCK")
                 "package-lock.json" = Throw e1)
        ∧ (∃ e2, getNpmLockDependencies (Examples.shrinkwrap_host "LOCK")
                   "npm-shrinkwrap.json" = Throw e2)
        ∧ scanInstalledDependencies (Examples.shrinkwrap_host "LOCK") 3
          = Done (VObj [("a", VObj [("version", VStr "1.1.0");
                                    ("integrity", VStr "sha512-a")])]))).
Proof.
  split_and!.
  - apply (proj1 (getAllDependencies_order Examples.both_maps_host 3)
             "LOCK" Examples.lock_document).
    + reflexivity.
    + reflexivity.
    + discriminate.
    + discriminate.
    + reflexivity.
  - apply (proj1 (proj2 (getAllDependencies_order
                           (Examples.shrinkwrap_host "LOCK") 3))
             "LOCK" Examples.lock_document).
    + left. reflexivity.
    + reflexivity.
    + reflexivity.
    + discriminate.
    + discriminate.
    + reflexivity.
  - apply (proj2 (proj1 (proj2 (proj2 (proj2
             (getAllDependencies_order Examples.bare_host 3))))
                    IOError IOError eq_refl eq_refl) TypeError).
    reflexivity.
  - apply (proj2 (proj2 (proj2 (proj2 (proj2
             (getAllDependencies_order (Examples.shrinkwrap_host "LOCK") 3)))))).
    reflexivity.
Defined.

(* ===================================================================== *)
(** * The payload *)
(* ===================================================================== *)



(* ===================================================================== *)
(** * The end-to-end scenario *)
(* ===================================================================== *)

(** C1.  On the scenario's layout the scanner does not return the [left-pad]
    record: with the project manifest as written (no [devDependencies]) it
    throws a [TypeError] at [Object.keys(packageJson.devDependencies)], and
    with an empty [devDependencies] it returns the empty mapping, because the
    records of the project's own dependencies are resolved and cached but
    never placed into [topLevelDeps]. *)
Theorem scan_left_pad (depth : nat) :
  scanInstalledDependencies Examples.left_pad_host (S depth) = Throw TypeError
  ∧ scanInstalledDependencies Examples.left_pad_host_empty_dev (S depth)
    = Done (VObj [])
  ∧ ∃ s, scan Examples.left_pad_host_empty_dev (S depth)
           initial = Done (tt, s)
         ∧ packageCache s !! "/proj/node_modules/left-pad/package.json"
           = Some (VObj [("packageDir", VStr "/proj/node_modules/left-pad");
                         ("version", VStr "1.3.0");
                         ("integrity", VStr "sha1-abc")]).
Proof.
  split_and!.
  - by vm_compute.
  - by vm_compute.
  - eexists. split; [by vm_compute|]. by vm_compute.
Qed.

(* ===================================================================== *)
(** * The installed-tree scanner *)
(* ===================================================================== *)

(** C2, as the claim states its last part, fails: a child that sits directly
    under the shared root and whose name is already at top level is not
    dropped; it is placed under its parent's [dependencies].  Here [b]
    depends on [c], and [c] is already at top level. *)
Lemma later_claim_is_kept_under_parent :
  ¬ (∀ h depPackageDir subDepsInfo subDep subDepInfo subDepDir dependencies
       s dependencies' s',
       own subDepsInfo subDep = Some subDepInfo →
       get subDepInfo "packageDir" = VStr subDepDir →
       isLocalDep subDepDir depPackageDir = false →
       is_Some (own (topLevelDeps s) subDep) →
       classify h depPackageDir subDepsInfo subDep dependencies s
       = Done (dependencies', s') →
       own dependencies' subDep = None).
Proof.
  intros H.
  specialize (H Examples.diamond_host "/proj/node_modules/b"
                [("c", Examples.info_c)] "c" Examples.info_c
                "/proj/node_modules/c" [] Examples.c_at_top_level
                [("c", Examples.record_c)] Examples.c_at_top_level
                eq_refl eq_refl eq_refl (ltac:(by eexists)) eq_refl).
  done.
Qed.

(** C2, amended.  For every dependency edge from a resolved package to one of
    its declared dependencies, the loop of [collectDepPackageInfo] does the
    following.  A child whose directory has the parent's directory as a
    string prefix is placed under the parent's [dependencies], and the
    top-level set is left as it is.  Otherwise a child that lies outside the
    project tree or directly under the project's [node_modules], and whose
    name is not yet at top level and is not the name of a member of
    [Object.prototype] ([constructor], [toString], ...), is added to the
    top-level set (once, at the end), and not to the parent's
    [dependencies].  Otherwise the top-level set is left as it is, and the
    child is placed under the parent's [dependencies] when its directory has
    the project directory as a string prefix, and dropped when it has not.
    (Placing a child under the name [__proto__] adds nothing.)  An entry of
    the top-level set is never replaced or removed by a later call, in the
    result of a scan every name is at top level once, and no name at top
    level is the name of a member of [Object.prototype].  Between the calls
    that the body of the scanner makes, and so when the scan returns, every
    declared dependency of every cached package sits where this rule puts
    it: under its parent when it is local to it; else, when it is eligible
    for the top level and its name is not a member of [Object.prototype],
    some package of its name is at top level; else - not eligible, or such a
    name - under its parent when it lies inside the project directory. *)
Theorem classification_rule (h : host) :
  (∀ depPackageDir subDepsInfo subDep dependencies s subDepInfo subDepDir,
     own subDepsInfo subDep = Some subDepInfo →
     get subDepInfo "packageDir" = VStr subDepDir →
     classify h depPackageDir subDepsInfo subDep dependencies s =
       let record :=
         VObj (pick subDepInfo LOCKED_DEPENDENCIES_REQUIRED_PROPERTIES_WITH_DEPS) in
       if String.prefix depPackageDir subDepDir then
         Done (assign dependencies subDep record, s)
       else if isTopLevelDep h subDepDir
               && bool_decide (own (topLevelDeps s) subDep = None)
               && negb (inherited subDep) then
         Done (dependencies,
               set_topLevelDeps (topLevelDeps s ++ [(subDep, record)]) s)
       else if String.prefix (packageDir h) subDepDir then
         Done (assign dependencies subDep record, s)
       else Done (dependencies, s))
  ∧ (∀ depth parentPackageDir packageName s info s' name record,
       getDepPackageInfo h depth parentPackageDir packageName "dependencies" s
       = Done (info, s') →
       own (topLevelDeps s) name = Some record →
       own (topLevelDeps s') name = Some record)
  ∧ (∀ depth s,
       scan h depth initial = Done (tt, s) → NoDup (topLevelDeps s).*1)
  ∧ (∀ depth s parent parentInfo parentJson subDep child,
       scanning h depth s →
       packageCache s !! parent = Some parentInfo →
       modules h !! parent = Some parentJson →
       subDep ∈ keys (get parentJson "dependencies") →
       resolveFrom h (path_dirname h parent) (subDep +:+ "/package.json")
       = Some child →
       ∃ subDepInfo,
         packageCache s !! child = Some subDepInfo
         ∧ let depPackageDir := path_dirname h parent in
           let subDepDir := path_dirname h child in
           let dependencies := entries (get parentInfo "dependencies") in
           let record :=
             VObj (pick subDepInfo LOCKED_DEPENDENCIES_REQUIRED_PROPERTIES_WITH_DEPS) in
           (String.prefix depPackageDir subDepDir = true →
            subDep ≠ "__proto__" →
            own dependencies subDep = Some record)
           ∧ (String.prefix depPackageDir subDepDir = false →
              isTopLevelDep h subDepDir = true →
              inherited subDep = false →
              is_Some (own (topLevelDeps s) subDep))
           ∧ (String.prefix depPackageDir subDepDir = false →
              isTopLevelDep h subDepDir = false ∨ inherited subDep = true →
              String.prefix (packageDir h) subDepDir = true →
              subDep ≠ "__proto__" →
              own dependencies subDep = Some record))
  ∧ (∀ depth s name,
       scanning h depth s →
       name ∈ (topLevelDeps s).*1 → inherited name = false).
Proof.
  split_and!.
  - intros. by apply classify_eq.
  - intros depth parentPackageDir packageName s info s' name record Hrun.
    by apply (getDep_top_persists h _ _ _ _ _ _ Hrun).
  - intros depth s Hrun. apply scan_spec in Hrun as [Hok _].
    by apply ok_top_nodup in Hok.
  - intros depth s parent parentInfo parentJson subDep child
      (Hinv & Hok & _)%scanning_invariants Hparent Hjson Hdep Hchild.
    assert (child ∈ dom (packageCache s)) as [subDepInfo Hinfo]%elem_of_dom.
    { apply (proj1 Hinv parent); [by eapply elem_of_dom_2|].
      by exists parentJson, subDep. }
    exists subDepInfo. split; [done|].
    apply (ok_edges h s Hok parent parentInfo parentJson subDep child subDepInfo);
      [done..|].
    by apply (ok_dir h s Hok).
  - intros depth s name Hman%scanning_manifest
      ([name' r] & -> & Hin)%list_elem_of_fmap.
    by destruct (ok_declared h s Hman name' r Hin)
      as (? & ? & ? & ? & _ & _ & _ & _ & _ & _ & _ & _ & ?).
Qed.

Lemma classification_rule_witness :
  classify Examples.diamond_host "/proj/node_modules/b"
    [("c", Examples.info_c)] "c" [] Examples.c_at_top_level
  = Done ([("c", Examples.record_c)], Examples.c_at_top_level)
  ∧ classify MoreExamples.constructor_host "/proj/node_modules/w"
      [("constructor", MoreExamples.info_constructor)] "constructor" [] initial
    = Done ([("constructor", MoreExamples.record_constructor)], initial)
  ∧ own (topLevelDeps Examples.c_at_top_level) "c" = Some Examples.record_c
  ∧ (∃ s, scan Examples.diamond_host 3 initial = Done (tt, s)
          ∧ NoDup (topLevelDeps s).*1)
  ∧ (∃ s, forEach (λ dep, getDepPackageInfo Examples.shared_c_host 3 "/proj" dep
                            "dependencies") ["a"; "b"] initial
          = Done (tt, s)
          ∧ is_Some (own (topLevelDeps s) "c"))
  ∧ (∃ s, forEach (λ dep, getDepPackageInfo Examples.shared_c_host 3 "/proj" dep
                            "dependencies") ["a"; "b"] initial
          = Done (tt, s)
          ∧ ∀ name, name ∈ (topLevelDeps s).*1 → inherited name = false).
Proof.
  split_and!.
  - etrans.
    + apply (proj1 (classification_rule Examples.diamond_host)
               "/proj/node_modules/b" [("c", Examples.info_c)] "c" []
               Examples.c_at_top_level Examples.info_c "/proj/node_modules/c").
      * reflexivity.
      * reflexivity.
    + vm_compute. reflexivity.
  - etrans.
    + apply (proj1 (classification_rule MoreExamples.constructor_host)
               "/proj/node_modules/w"
               [("constructor", MoreExamples.info_constructor)] "constructor" []
               initial MoreExamples.info_constructor
               "/proj/node_modules/constructor").
      * reflexivity.
      * reflexivity.
    + vm_compute. reflexivity.
  - apply (proj1 (proj2 (classification_rule Examples.diamond_host))
             3 "/proj/node_modules/b" "c" Examples.c_at_top_level
             Examples.info_c).
    + vm_compute. reflexivity.
    + reflexivity.
  - eexists. split.
    + vm_compute. reflexivity.
    + apply (proj1 (proj2 (proj2 (classification_rule Examples.diamond_host))) 3).
      vm_compute. reflexivity.
  - eexists. split; [vm_compute; reflexivity|].
    match goal with
    | |- is_Some (own (topLevelDeps ?s) _) =>
        edestruct (proj1 (proj2 (proj2 (proj2
                     (classification_rule Examples.shared_c_host))))
                     3 s "/proj/node_modules/b/package.json")
          as (subDepInfo & _ & _ & Htop & _)
    end.
    + refine (scanning_call _ _ _ "b" _ _
                (scanning_call _ _ _ "a" _ _ (scanning_initial _ _) _) _);
        vm_compute; reflexivity.
    + vm_compute. reflexivity.
    + vm_compute. reflexivity.
    + apply list_elem_of_here.
    + vm_compute. reflexivity.
    + apply Htop; vm_compute; reflexivity.
  - eexists. split; [vm_compute; reflexivity|]. intros name.
    apply (proj2 (proj2 (proj2 (proj2
             (classification_rule Examples.shared_c_host)))) 3).
    refine (scanning_call _ _ _ "b" _ _
              (scanning_call _ _ _ "a" _ _ (scanning_initial _ _) _) _);
      vm_compute; reflexivity.
Defined.

(** C5.  At every moment between the calls that the body of the scanner
    makes for the project's dependencies - in particular when the scan
    returns - [collectDepPackageInfo] has been called at most once for each
    manifest path, and the paths it was called for are exactly the keys of the
    cache; a further request for a cached path returns the cached object
    without a new resolution.  Every record built so far - at top level and
    under every cached object, hence at every depth of the resulting tree -
    is the projection of the one cached object of the manifest that its name
    resolves to, so two places that refer to the same manifest carry the same
    content. *)
Theorem each_manifest_resolved_once (h : host) (depth : nat) (s : state) :
  scanning h depth s →
  NoDup (resolutions s).*1
  ∧ (∀ path, path ∈ (resolutions s).*1 ↔ path ∈ dom (packageCache s))
  ∧ (∀ depth' dir name path info,
       resolveFrom h dir (name +:+ "/package.json") = Some path →
       packageCache s !! path = Some info →
       getDepPackageInfo h (S depth') dir name "dependencies" s = Done (info, s))
  ∧ (∀ name record,
       (name, record) ∈ topLevelDeps s →
       ∃ dir path info,
         resolveFrom h dir (name +:+ "/package.json") = Some path
         ∧ packageCache s !! path = Some info
         ∧ record = VObj (pick info LOCKED_DEPENDENCIES_REQUIRED_PROPERTIES_WITH_DEPS))
  ∧ (∀ parent parentInfo name record,
       packageCache s !! parent = Some parentInfo →
       (name, record) ∈ entries (get parentInfo "dependencies") →
       ∃ path info,
         resolveFrom h (path_dirname h parent) (name +:+ "/package.json") = Some path
         ∧ packageCache s !! path = Some info
         ∧ record = VObj (pick info LOCKED_DEPENDENCIES_REQUIRED_PROPERTIES_WITH_DEPS))
  ∧ (∀ s', scan h depth initial = Done (tt, s') → scanning h depth s').
Proof.
  intros Hs.
  destruct (scanning_invariants h depth s Hs) as (_ & Hok & Hnd & Hdom).
  split_and!; [done..| | | |].
  - intros depth' dir name path info Hres Hhit. cbn [getDepPackageInfo].
    unfold mbind, M_bind, lift, gets. rewrite Hres. cbn. by rewrite Hhit.
  - by apply ok_top.
  - by apply ok_deps.
  - intros s'. apply scan_scanning.
Qed.

Lemma each_manifest_resolved_once_witness :
  ∃ s, forEach (λ dep, getDepPackageInfo Examples.shared_c_host 3 "/proj" dep
                         "dependencies") ["a"; "b"] initial
       = Done (tt, s)
       ∧ NoDup (resolutions s).*1
       ∧ count_occ String.string_dec (resolutions s).*1
           "/proj/node_modules/c/package.json" = 1.
Proof.
  eexists. split; [vm_compute; reflexivity|]. split.
  - apply (each_manifest_resolved_once Examples.shared_c_host 3).
    refine (scanning_call _ _ _ "b" _ _
              (scanning_call _ _ _ "a" _ _ (scanning_initial _ _) _) _);
      vm_compute; reflexivity.
  - vm_compute. reflexivity.
Defined.



(** C8.  Every record of a tree that the system hands off - the output of
    the filter, the output of the scanner, and so the result of
    [getAllDependencies] - has, at every depth, only fields among [version],
    [dev], [requires], [integrity], [dependencies]. *)
Theorem handed_off_trees_are_canonical :
  (∀ T T', filterTree T = Some T' → package_tree T' = true)
  ∧ (∀ h depth tree,
       scanInstalledDependencies h depth = Done tree → package_tree tree = true)
  ∧ (∀ h depth tree,
       getAllDependencies h depth = Done tree → package_tree tree = true).
Proof.
  split_and!.
  - apply filterTree_package_tree.
  - apply scan_package_tree.
  - intros h depth tree. unfold getAllDependencies.
    destruct (getNpmLockDependencies h "package-lock.json") as [t| |] eqn:H1;
      cbn [catch]; [intros [= <-]|..|done].
    { apply getNpmLockDependencies_Done in H1 as (c & lock & _ & _ & Hf).
      by eapply filterTree_package_tree. }
    destruct (getNpmLockDependencies h "npm-shrinkwrap.json") as [t| |] eqn:H2;
      cbn [catch]; [intros [= <-]|..|done].
    { apply getNpmLockDependencies_Done in H2 as (c & lock & _ & _ & Hf).
      by eapply filterTree_package_tree. }
    destruct (scanInstalledDependencies h depth) as [t| |] eqn:H3;
      cbn [catch]; [intros [= <-]|done..].
    by eapply scan_package_tree.
Qed.

Lemma handed_off_trees_are_canonical_witness :
  package_tree
    (VObj [("a", VObj [("version", VStr "1.1.0"); ("integrity", VStr "sha512-a")])])
  = true
  ∧ (∃ tree, scanInstalledDependencies Examples.diamond_host 3 = Done tree
             ∧ package_tree tree = true)
  ∧ (∃ tree, getAllDependencies (Examples.shrinkwrap_host "LOCK") 3 = Done tree
             ∧ package_tree tree = true).
Proof.
  split_and!.
  - apply (proj1 handed_off_trees_are_canonical
             (get Examples.lock_document "dependencies")).
    reflexivity.
  - eexists. split; [vm_compute; reflexivity|].
    apply (proj1 (proj2 handed_off_trees_are_canonical) Examples.diamond_host 3).
    vm_compute. reflexivity.
  - eexists. split; [vm_compute; reflexivity|].
    apply (proj2 (proj2 handed_off_trees_are_canonical)
             (Examples.shrinkwrap_host "LOCK") 3).
    vm_compute. reflexivity.
Defined.

(** C10.  On a layout whose resolution graph is acyclic the scanner
    terminates: with a recursion bound above the number of manifests it
    returns a tree or throws, never reaches the bound, and the result is the
    same for every larger bound. *)
Theorem scan_terminates_on_acyclic_layouts (h : host) (depth : nat) :
  acyclic h →
  size (modules h) < depth →
  ((∃ tree, scanInstalledDependencies h depth = Done tree)
   ∨ (∃ e, scanInstalledDependencies h depth = Throw e))
  ∧ ∀ depth', depth ≤ depth' →
      scanInstalledDependencies h depth' = scanInstalledDependencies h depth.
Proof.
  intros Hac Hsize. split.
  - pose proof (terminates_scan h depth initial Hac Hsize) as Hterm.
    unfold terminates in Hterm. unfold scanInstalledDependencies.
    destruct (scan h depth initial) as [[[] s]|e|]; [left|right|done]; eauto.
  - intros depth' Hle. by apply scan_stable.
Qed.

Lemma scan_terminates_on_acyclic_layouts_witness :
  ((∃ tree, scanInstalledDependencies Examples.left_pad_host_empty_dev 3 = Done tree)
   ∨ (∃ e, scanInstalledDependencies Examples.left_pad_host_empty_dev 3 = Throw e))
  ∧ ∀ depth', 3 ≤ depth' →
      scanInstalledDependencies Examples.left_pad_host_empty_dev depth'
      = scanInstalledDependencies Examples.left_pad_host_empty_dev 3.
Proof.
  apply (scan_terminates_on_acyclic_layouts Examples.left_pad_host_empty_dev 3).
  - exact ExampleFacts.left_pad_acyclic.
  - vm_compute. lia.
Defined.

(* ===================================================================== *)
(** * Further properties of the filter *)
(* ===================================================================== *)

(** X1.  [filterTree] throws exactly when one of the nodes it visits - a
    value of the tree, or of the [dependencies] of a visited node - is [null]
    or [undefined]; every other input, whatever its shape, is filtered. *)
Theorem filterTree_throws_iff_nullish_node (T : value) :
  filterTree T = None ↔ ∃ v, node_of T v ∧ nullish v = true.
Proof. apply filterTree_None_both. Qed.

(** X2.  The filter keeps the names of the tree in their order, and at every
    node each of [version], [dev], [requires] and [integrity] is present in
    the output exactly when it is present in the input, with the input's
    value. *)
Theorem filterTree_copies_required_fields (T T' : value) :
  filterTree T = Some T' →
  keys T' = keys T
  ∧ ∀ path r,
      node_at T' path = Some r →
      ∃ v, node_at T path = Some v
           ∧ ∀ f, f ∈ LOCKED_DEPENDENCIES_REQUIRED_PROPERTIES →
                  has r f = has v f ∧ get r f = get v f.
Proof.
  intros HT. split; [by apply filterTree_keys|].
  intros path r Hr.
  destruct (node_at_filtered _ _ _ _ HT Hr) as (v & Hv & Hf).
  exists v. split; [done|]. intros f. by apply filterNode_kept.
Qed.

Lemma filterTree_copies_required_fields_witness :
  keys (VObj [("a", VObj [("version", VStr "1.1.0");
                          ("integrity", VStr "sha512-a")])])
  = keys (get Examples.lock_document "dependencies")
  ∧ ∀ path r,
      node_at (VObj [("a", VObj [("version", VStr "1.1.0");
                                 ("integrity", VStr "sha512-a")])]) path
      = Some r →
      ∃ v, node_at (get Examples.lock_document "dependencies") path = Some v
           ∧ ∀ f, f ∈ LOCKED_DEPENDENCIES_REQUIRED_PROPERTIES →
                  has r f = has v f ∧ get r f = get v f.
Proof.
  apply (filterTree_copies_required_fields
           (get Examples.lock_document "dependencies")).
  reflexivity.
Defined.

(* ===================================================================== *)
(** * Further properties of source selection and of the payload *)
(* ===================================================================== *)

(** X3.  A lock file that parses to a document other than [null] whose
    [dependencies] has no enumerable property (it is missing, or empty, or a
    number) is loaded as the empty tree, and one that parses to [null] is
    rejected with a [TypeError].  So when [package-lock.json] is such a
    document without dependencies, the result of [getAllDependencies] is the
    empty tree, whatever [npm-shrinkwrap.json] and the installed packages
    are. *)
Theorem lock_without_dependencies (h : host) (name contents : string)
    (lock : value) :
  readFile h (path_resolve h name) = Some contents →
  JSON_parse h contents = Some lock →
  (nullish lock = true → getNpmLockDependencies h name = Throw TypeError)
  ∧ (nullish lock = false → keys (get lock "dependencies") = [] →
     getNpmLockDependencies h name = Done (VObj [])
     ∧ (name = "package-lock.json" →
        ∀ depth, getAllDependencies h depth = Done (VObj []))).
Proof.
  intros Hread Hparse. split.
  - intros Hn. unfold getNpmLockDependencies. rewrite Hread, Hparse.
    by destruct lock.
  - intros [Hu Hn]%nullish_false Hk.
    assert (getNpmLockDependencies h name = Done (VObj [])) as Hlock.
    { eapply getNpmLockDependencies_filtered; [done..|].
      by apply filterTree_no_entries. }
    split; [done|]. intros -> depth. unfold getAllDependencies.
    by rewrite Hlock.
Qed.

Lemma lock_without_dependencies_witness :
  getNpmLockDependencies MoreExamples.empty_lock_host "package-lock.json"
  = Done (VObj [])
  ∧ getAllDependencies MoreExamples.empty_lock_host 0 = Done (VObj [])
  ∧ getNpmLockDependencies (Examples.shrinkwrap_host "null")
      "npm-shrinkwrap.json" = Throw TypeError.
Proof.
  split_and!.
  - apply (proj2 (lock_without_dependencies MoreExamples.empty_lock_host
                    "package-lock.json" "EMPTY"
                    (VObj [("name", VStr "app"); ("lockfileVersion", VNum 1)])
                    eq_refl eq_refl)); reflexivity.
  - apply (proj2 (lock_without_dependencies MoreExamples.empty_lock_host
                    "package-lock.json" "EMPTY"
                    (VObj [("name", VStr "app"); ("lockfileVersion", VNum 1)])
                    eq_refl eq_refl)); reflexivity.
  - apply (proj1 (lock_without_dependencies (Examples.shrinkwrap_host "null")
                    "npm-shrinkwrap.json" "null" VNull eq_refl eq_refl)).
    reflexivity.
Defined.

(** X4.  The first source wins: when [package-lock.json] loads, its tree is
    the result, and neither [npm-shrinkwrap.json] nor the installed packages
    nor the recursion bound matter.  And [getAllDependencies] fails only
    when all three sources have failed, always with the one error of the
    fixed message: the exceptions of the sources are not passed on. *)
Theorem first_source_wins_and_failures_are_masked (h : host) (depth : nat) :
  (∀ tree,
     getNpmLockDependencies h "package-lock.json" = Done tree →
     getAllDependencies h depth = Done tree)
  ∧ (∀ e,
       getAllDependencies h depth = Throw e →
       e = Error FAILED_MESSAGE
       ∧ (∃ e1, getNpmLockDependencies h "package-lock.json" = Throw e1)
       ∧ (∃ e2, getNpmLockDependencies h "npm-shrinkwrap.json" = Throw e2)
       ∧ (∃ e3, scanInstalledDependencies h depth = Throw e3)).
Proof.
  split.
  - intros tree Hlock. unfold getAllDependencies. by rewrite Hlock.
  - intros e. apply getAllDependencies_Throw.
Qed.

Lemma first_source_wins_and_failures_are_masked_witness :
  getAllDependencies Examples.both_maps_host 0
  = Done (VObj [("a", VObj [("version", VStr "1.1.0");
                            ("integrity", VStr "sha512-a")])])
  ∧ (∃ e3, scanInstalledDependencies Examples.bare_host 3 = Throw e3).
Proof.
  split.
  - apply (proj1 (first_source_wins_and_failures_are_masked
                    Examples.both_maps_host 0)).
    reflexivity.
  - apply (proj2 (first_source_wins_and_failures_are_masked
                    Examples.bare_host 3) (Error FAILED_MESSAGE)).
    reflexivity.
Defined.



(** X6.  [getAuditData] fails in three ways only: the project manifest
    cannot be loaded (whatever the lock files hold); no source gives a
    dependency tree, with the error of [getAllDependencies]; or the manifest
    is [null].  When it returns, the payload has the seven fields [name],
    [version], [requires], [dependencies], [install], [remove], [metadata] in
    this order, [name] and [version] are the manifest's, [dependencies] is
    the tree of [getAllDependencies] - a tree of PackageRecords - and
    [install] and [remove] are empty arrays. *)
Theorem getAuditData_outcomes (h : host) (depth : nat) :
  (modules h !! packageJsonPath h = None →
   getAuditData h depth = Throw ModuleNotFound)
  ∧ (∀ e,
       getAuditData h depth = Throw e →
       (e = ModuleNotFound ∧ modules h !! packageJsonPath h = None)
       ∨ (e = Error FAILED_MESSAGE
          ∧ getAllDependencies h depth = Throw (Error FAILED_MESSAGE))
       ∨ (e = TypeError
          ∧ ∃ packageJson,
              modules h !! packageJsonPath h = Some packageJson
              ∧ nullish packageJson = true))
  ∧ (∀ payload,
       getAuditData h depth = Done payload →
       ∃ packageJson tree,
         modules h !! packageJsonPath h = Some packageJson
         ∧ getAllDependencies h depth = Done tree
         ∧ package_tree tree = true
         ∧ keys payload = ["name"; "version"; "requires"; "dependencies";
                           "install"; "remove"; "metadata"]
         ∧ get payload "name" = get packageJson "name"
         ∧ get payload "version" = get packageJson "version"
         ∧ get payload "dependencies" = tree
         ∧ get payload "install" = VArr []
         ∧ get payload "remove" = VArr []).
Proof.
  split_and!.
  - unfold getAuditData. by intros ->.
  - intros e. unfold getAuditData.
    destruct (modules h !! packageJsonPath h) as [packageJson|] eqn:Hm.
    2: { intros [= <-]. by left. }
    destruct (getAllDependencies h depth) as [all|e'|] eqn:Hall; [| |done].
    + intros He. right; right.
      destruct packageJson; try done; injection He as <-; eauto.
    + intros [= ->]. right; left.
      by destruct (getAllDependencies_Throw _ _ _ Hall) as (-> & _).
  - intros payload (packageJson & all & Hm & _ & Hall & ->)%getAuditData_Done.
    exists packageJson, all. split_and!; try done.
    by eapply getAllDependencies_package_tree.
Qed.

Lemma getAuditData_outcomes_witness :
  getAuditData (Posix.host_of ∅ {[ "/proj/package-lock.json" := "LOCK" ]}
                  Examples.parse_table) 3
  = Throw ModuleNotFound
  ∧ (∃ packageJson tree,
       modules Examples.both_maps_host !! packageJsonPath Examples.both_maps_host
       = Some packageJson
       ∧ getAllDependencies Examples.both_maps_host 3 = Done tree
       ∧ package_tree tree = true
       ∧ keys (VObj
                 [("name", VStr "app"); ("version", VStr "0.1.0");
                  ("requires", VObj [("q", VStr "^1.0.0"); ("t", VStr "~3.1.0")]);
                  ("dependencies",
                   VObj [("a", VObj [("version", VStr "1.1.0");
                                     ("integrity", VStr "sha512-a")])]);
                  ("install", VArr []); ("remove", VArr []);
                  ("metadata", VObj [("node_version", VStr "v8.11.1")])])
         = ["name"; "version"; "requires"; "dependencies";
            "install"; "remove"; "metadata"]
       ∧ VStr "app" = get packageJson "name"
       ∧ VStr "0.1.0" = get packageJson "version"
       ∧ VObj [("a", VObj [("version", VStr "1.1.0");
                           ("integrity", VStr "sha512-a")])] = tree
       ∧ VArr [] = VArr []
       ∧ VArr [] = VArr []).
Proof.
  split.
  - apply (proj1 (getAuditData_outcomes
                    (Posix.host_of ∅ {[ "/proj/package-lock.json" := "LOCK" ]}
                       Examples.parse_table) 3)).
    reflexivity.
  - apply (proj2 (proj2 (getAuditData_outcomes Examples.both_maps_host 3))
             (VObj
                [("name", VStr "app"); ("version", VStr "0.1.0");
                 ("requires", VObj [("q", VStr "^1.0.0"); ("t", VStr "~3.1.0")]);
                 ("dependencies",
                  VObj [("a", VObj [("version", VStr "1.1.0");
                                    ("integrity", VStr "sha512-a")])]);
                 ("install", VArr []); ("remove", VArr []);
                 ("metadata", VObj [("node_version", VStr "v8.11.1")])])).
    reflexivity.
Defined.

(* ===================================================================== *)
(** * Further properties of the installed-tree scanner *)
(* ===================================================================== *)

(** X7.  The scanner needs both maps of the project manifest.  When the
    manifest has no [dependencies] (the field is missing or [null]) the scan
    throws a [TypeError], whatever the installed packages are; when it has no
    [devDependencies] the scan never returns a tree. *)
Theorem scan_needs_both_maps (h : host) (depth : nat) (packageJson : value) :
  modules h !! packageJsonPath h = Some packageJson →
  (nullish (get packageJson "dependencies") = true →
   scanInstalledDependencies h depth = Throw TypeError)
  ∧ (nullish (get packageJson "devDependencies") = true →
     ∀ tree, scanInstalledDependencies h depth ≠ Done tree).
Proof.
  intros Hm. split.
  - intros Hn. unfold scanInstalledDependencies.
    by rewrite (scan_no_dependencies h depth initial packageJson Hm Hn).
  - intros Hn tree (s & Hrun & _)%scanInstalledDependencies_Done.
    apply scan_run_maps in Hrun as (packageJson' & Hm' & _ & Hdev).
    congruence.
Qed.

Lemma scan_needs_both_maps_witness :
  scanInstalledDependencies Examples.bare_host 3 = Throw TypeError
  ∧ ∀ tree, scanInstalledDependencies Examples.left_pad_host 3 ≠ Done tree.
Proof.
  split.
  - apply (proj1 (scan_needs_both_maps Examples.bare_host 3
                    (VObj [("name", VStr "app")]) eq_refl)).
    reflexivity.
  - apply (proj2 (scan_needs_both_maps Examples.left_pad_host 3
                    (VObj [("dependencies", VObj [("left-pad", VStr "^1.0.0")])])
                    eq_refl)).
    reflexivity.
Defined.

(** X8.  When the scan returns, the manifests it has resolved are exactly
    those that the project reaches: a manifest is cached exactly when a name
    declared in the project's [dependencies] or [devDependencies] leads to it
    along [dependencies] declarations ([devDependencies] of the installed
    packages are not followed).  Every such manifest exists, and each name it
    declares in [dependencies] resolves to a manifest that is reached too. *)
Theorem scan_resolves_what_the_project_reaches (h : host) (depth : nat)
    (s : state) :
  scan h depth initial = Done (tt, s) →
  (∀ x, x ∈ dom (packageCache s) ↔ reachable h x)
  ∧ ∀ x,
      reachable h x →
      ∃ m, modules h !! x = Some m
           ∧ ∀ dep,
               dep ∈ keys (get m "dependencies") →
               ∃ y, resolveFrom h (path_dirname h x) (dep +:+ "/package.json")
                    = Some y
                    ∧ reachable h y.
Proof.
  intros Hrun.
  pose proof (scan_reach h depth tt s Hrun) as Hreach.
  pose proof (scanning_manifest h depth s (scan_scanning h depth tt s Hrun))
    as Hman.
  split; [done|].
  intros x [info Hinfo]%Hreach%elem_of_dom.
  destruct (ok_manifest h s Hman x info Hinfo) as (m & Hm & _).
  exists m. split; [done|]. intros dep Hdep.
  destruct (ok_requires h s Hman x info m Hinfo Hm) as [Hkeys Hvals].
  rewrite <-Hkeys in Hdep.
  apply list_elem_of_fmap in Hdep as ([dep' v] & -> & Hin).
  destruct (Hvals _ _ Hin) as (y & my & Hy & Hcached & _).
  exists y. split; [done|]. by apply Hreach.
Qed.

Lemma scan_resolves_what_the_project_reaches_witness :
  ∃ s, scan Examples.diamond_host 3 initial = Done (tt, s)
       ∧ (∀ x, x ∈ dom (packageCache s) ↔ reachable Examples.diamond_host x)
       ∧ ∀ x,
           reachable Examples.diamond_host x →
           ∃ m, modules Examples.diamond_host !! x = Some m
                ∧ ∀ dep,
                    dep ∈ keys (get m "dependencies") →
                    ∃ y, resolveFrom Examples.diamond_host
                           (path_dirname Examples.diamond_host x)
                           (dep +:+ "/package.json") = Some y
                         ∧ reachable Examples.diamond_host y.
Proof.
  eexists. split; [vm_compute; reflexivity|].
  apply (scan_resolves_what_the_project_reaches Examples.diamond_host 3).
  vm_compute. reflexivity.
Defined.

(** X9.  When the scan returns, the object cached for a manifest path, and
    so the record projected from it, reflects the installed manifest: its
    [version] is the manifest's, its [integrity] is the manifest's
    [_integrity], and [packageDir] (the manifest's directory) is not part of
    the record.  It has a [requires] field exactly when the manifest's
    [dependencies] is truthy; [requires] then lists the declared names in
    their order, each with the [version] of the installed manifest that the
    name resolves to - not with the declared range. *)
Theorem records_carry_installed_versions (h : host) (depth : nat) (s : state) :
  scan h depth initial = Done (tt, s) →
  ∀ p info,
    packageCache s !! p = Some info →
    ∃ m, modules h !! p = Some m
         ∧ let record :=
             VObj (pick info LOCKED_DEPENDENCIES_REQUIRED_PROPERTIES_WITH_DEPS) in
           get info "packageDir" = VStr (path_dirname h p)
           ∧ has record "packageDir" = false
           ∧ get record "version" = get m "version"
           ∧ get record "integrity" = get m "_integrity"
           ∧ has record "requires" = truthy (get m "dependencies")
           ∧ keys (get record "requires") = keys (get m "dependencies")
           ∧ (∀ dep v,
                (dep, v) ∈ entries (get record "requires") →
                ∃ q mq,
                  resolveFrom h (path_dirname h p) (dep +:+ "/package.json")
                  = Some q
                  ∧ modules h !! q = Some mq
                  ∧ v = get mq "version").
Proof.
  intros Hrun p info Hinfo.
  pose proof (scan_scanning h depth tt s Hrun) as Hs.
  pose proof (scanning_manifest h depth s Hs) as Hman.
  destruct (scanning_invariants h depth s Hs) as (_ & Hok & _).
  destruct (ok_manifest h s Hman p info Hinfo)
    as (m & Hm & _ & Hv & _ & Hi & Hreq & _).
  destruct (ok_requires h s Hman p info m Hinfo Hm) as [Hkeys Hvals].
  exists m. split; [done|]. cbn zeta.
  rewrite !get_pick, !has_pick, !decide_True by compute_done.
  rewrite (bool_decide_eq_false_2 ("packageDir" ∈ _)) by compute_done.
  rewrite (bool_decide_eq_true_2 ("requires" ∈ _)) by compute_done.
  split_and!; [by apply (ok_dir h s Hok)|done..|].
  intros dep v Hin. destruct (Hvals dep v Hin) as (q & mq & ? & _ & ? & ?).
  eauto.
Qed.

Lemma records_carry_installed_versions_witness :
  ∃ m, modules Examples.diamond_host !! "/proj/node_modules/b/package.json"
       = Some m
       ∧ get (VObj [("version", VStr "1.2.0");
                    ("requires", VObj [("c", VStr "1.3.0")]);
                    ("integrity", VUndefined);
                    ("dependencies", VObj [("c", Examples.record_c)])])
           "version" = get m "version"
       ∧ ∀ dep v,
           (dep, v) ∈ [("c", VStr "1.3.0")] →
           ∃ q mq,
             resolveFrom Examples.diamond_host "/proj/node_modules/b"
               (dep +:+ "/package.json") = Some q
             ∧ modules Examples.diamond_host !! q = Some mq
             ∧ v = get mq "version".
Proof.
  edestruct (records_carry_installed_versions Examples.diamond_host 3)
    as (m & Hm & _ & _ & Hv & _ & _ & _ & Hvals).
  - vm_compute. reflexivity.
  - instantiate (2 := "/proj/node_modules/b/package.json").
    vm_compute. reflexivity.
  - exists m. split; [exact Hm|]. split; [exact Hv|exact Hvals].
Defined.

(** X10.  Every record at the top level of the scanner's tree is there
    because a scanned package - a package that the project reaches, not the
    project itself - declares its name in [dependencies]: the record has the
    version of the manifest that the name resolves to from that package, and
    the directory of that manifest passes [isTopLevelDep] and does not have
    the package's directory as a string prefix.  So a dependency of the
    project that no scanned package declares is not in the tree. *)
Theorem top_level_records_are_declared_by_scanned_packages
    (h : host) (depth : nat) (tree : value) :
  scanInstalledDependencies h depth = Done tree →
  ∀ n r,
    (n, r) ∈ entries tree →
    ∃ p m q mq,
      reachable h p
      ∧ modules h !! p = Some m
      ∧ n ∈ keys (get m "dependencies")
      ∧ resolveFrom h (path_dirname h p) (n +:+ "/package.json") = Some q
      ∧ modules h !! q = Some mq
      ∧ get r "version" = get mq "version"
      ∧ isTopLevelDep h (path_dirname h q) = true
      ∧ String.prefix (path_dirname h p) (path_dirname h q) = false.
Proof.
  intros (s & Hrun & ->)%scanInstalledDependencies_Done n r Hin.
  pose proof (scan_scanning h depth tt s Hrun) as Hs.
  pose proof (scanning_manifest h depth s Hs) as Hman.
  destruct (scanning_invariants h depth s Hs) as (_ & _ & _ & Hlog).
  destruct (ok_declared h s Hman n r Hin)
    as (p & m & q & info & Hp & Hm & Hn & Hq & Hinfo & -> & Htop & Hlocal & _).
  destruct (ok_manifest h s Hman q info Hinfo) as (mq & Hmq & _ & Hv & _).
  exists p, m, q, mq. split_and!; try done.
  - by apply (scan_reach h depth tt s Hrun), Hlog.
  - by rewrite get_pick, decide_True by compute_done.
Qed.

Lemma top_level_records_are_declared_by_scanned_packages_witness :
  ∃ p m q mq,
    reachable Examples.diamond_host p
    ∧ modules Examples.diamond_host !! p = Some m
    ∧ "c" ∈ keys (get m "dependencies")
    ∧ resolveFrom Examples.diamond_host
        (path_dirname Examples.diamond_host p) ("c" +:+ "/package.json")
      = Some q
    ∧ modules Examples.diamond_host !! q = Some mq
    ∧ get Examples.record_c "version" = get mq "version"
    ∧ isTopLevelDep Examples.diamond_host
        (path_dirname Examples.diamond_host q) = true
    ∧ String.prefix (path_dirname Examples.diamond_host p)
        (path_dirname Examples.diamond_host q) = false.
Proof.
  apply (top_level_records_are_declared_by_scanned_packages
           Examples.diamond_host 3
           (VObj
              [("c", Examples.record_c);
               ("a", VObj [("version", VStr "1.1.0");
                           ("requires", VObj [("c", VStr "1.3.0")]);
                           ("integrity", VUndefined)]);
               ("b", VObj [("version", VStr "1.2.0");
                           ("requires", VObj [("c", VStr "1.3.0")]);
                           ("integrity", VUndefined);
                           ("dependencies", VObj [("c", Examples.record_c)])]);
               ("z", VObj [("version", VStr "3.0.0"); ("dev", VBool true);
                           ("integrity", VUndefined)])])).
  - vm_compute. reflexivity.
  - apply list_elem_of_here.
Defined.

(** X11.  The scanner does not return a tree when a manifest that the
    project reaches depends, directly or through others, on itself: no cycle
    is cut, at any recursion depth. *)
Theorem scan_does_not_return_on_a_reachable_cycle (h : host) (x : string) :
  reachable h x →
  tc (edge h) x x →
  ∀ depth tree, scanInstalledDependencies h depth ≠ Done tree.
Proof.
  intros Hx Hcycle depth tree (s & Hrun & _)%scanInstalledDependencies_Done.
  destruct (scanning_invariants h depth s (scan_scanning h depth tt s Hrun))
    as ([_ Hacyclic] & _).
  apply (Hacyclic x); [|done]. by apply (scan_reach h depth tt s Hrun).
Qed.

Lemma scan_does_not_return_on_a_reachable_cycle_witness :
  reachable MoreExamples.cycle_host "/proj/node_modules/a/package.json"
  ∧ ∀ depth tree,
      scanInstalledDependencies MoreExamples.cycle_host depth ≠ Done tree.
Proof.
  assert (edge MoreExamples.cycle_host "/proj/node_modules/a/package.json"
            "/proj/node_modules/b/package.json") as Hab.
  { exists (Examples.manifest "1.0.0" ["b"]), "b".
    split_and!; [reflexivity|apply list_elem_of_here|reflexivity]. }
  assert (edge MoreExamples.cycle_host "/proj/node_modules/b/package.json"
            "/proj/node_modules/a/package.json") as Hba.
  { exists (Examples.manifest "1.0.0" ["a"]), "a".
    split_and!; [reflexivity|apply list_elem_of_here|reflexivity]. }
  assert (reachable MoreExamples.cycle_host "/proj/node_modules/a/package.json")
    as Hreach.
  { exists "/proj/node_modules/a/package.json". split; [|apply rtc_refl].
    eexists _, "a". split_and!; [reflexivity| |reflexivity].
    left. apply list_elem_of_here. }
  split; [exact Hreach|].
  apply (scan_does_not_return_on_a_reachable_cycle MoreExamples.cycle_host
           "/proj/node_modules/a/package.json").
  - exact Hreach.
  - eapply tc_l; [exact Hab|]. apply tc_once. exact Hba.
Defined.

(** X12.  At every depth of the scanner's tree a record has a [version] and
    an [integrity] field (with the value [undefined] when the manifest has
    none), and a [dependencies] field only when it has at least one child:
    unlike the filter, the scanner leaves no empty [dependencies]. *)
Theorem scanned_records_have_no_empty_dependencies
    (h : host) (depth : nat) (tree : value) :
  scanInstalledDependencies h depth = Done tree →
  ∀ path r,
    node_at tree path = Some r →
    has r "version" = true
    ∧ has r "integrity" = true
    ∧ (has r "dependencies" = true → keys (get r "dependencies") ≠ []).
Proof.
  intros (s & Hrun & ->)%scanInstalledDependencies_Done path r Hr.
  pose proof (scan_scanning h depth tt s Hrun) as Hs.
  pose proof (scanning_manifest h depth s Hs) as Hman.
  destruct (scanning_invariants h depth s Hs) as (_ & Hok & _).
  apply (node_at_cached h s) in Hr as (q & info & Hinfo & ->); [|done|].
  2: { intros n r' Hin.
       destruct (ok_top h s Hok n r' Hin) as (_ & q & info & _ & ? & ?). eauto. }
  destruct (ok_manifest h s Hman q info Hinfo)
    as (m & _ & Hv & _ & Hi & _ & _ & Hdeps).
  rewrite !has_pick, get_pick, decide_True by compute_done.
  rewrite !bool_decide_eq_true_2 by compute_done.
  done.
Qed.

Lemma scanned_records_have_no_empty_dependencies_witness :
  has Examples.record_c "version" = true
  ∧ has Examples.record_c "integrity" = true
  ∧ (has Examples.record_c "dependencies" = true →
     keys (get Examples.record_c "dependencies") ≠ []).
Proof.
  apply (scanned_records_have_no_empty_dependencies Examples.diamond_host 3
           (VObj
              [("c", Examples.record_c);
               ("a", VObj [("version", VStr "1.1.0");
                           ("requires", VObj [("c", VStr "1.3.0")]);
                           ("integrity", VUndefined)]);
               ("b", VObj [("version", VStr "1.2.0");
                           ("requires", VObj [("c", VStr "1.3.0")]);
                           ("integrity", VUndefined);
                           ("dependencies", VObj [("c", Examples.record_c)])]);
               ("z", VObj [("version", VStr "3.0.0"); ("dev", VBool true);
                           ("integrity", VUndefined)])])
           ltac:(vm_compute; reflexivity) ["b"; "c"]).
  reflexivity.
Defined.

(** X13.  A record is nested under a package only by the rule of the loop:
    when the scan returns, every name under the [dependencies] of a cached
    object is a name that the package's manifest declares, other than
    [__proto__]; its record is the projection of the cached object of the
    manifest that the name resolves to from the package's directory; and the
    directory of that manifest has the package's directory as a string
    prefix, or else has the project directory as a string prefix and, when
    it passes [isTopLevelDep], [topLevelDeps] holds a truthy value under the
    name: some package of that name is at top level, or the name is the name
    of a member of [Object.prototype] (a hoisted package named [constructor]
    is nested, never promoted).  A package outside the project directory is
    nested under no record whose directory is not a prefix of its own. *)
Theorem nested_records_follow_the_rule (h : host) (depth : nat) (s : state) :
  scan h depth initial = Done (tt, s) →
  ∀ p info n r,
    packageCache s !! p = Some info →
    (n, r) ∈ entries (get info "dependencies") →
    ∃ m q info_q,
      modules h !! p = Some m
      ∧ n ∈ keys (get m "dependencies")
      ∧ n ≠ "__proto__"
      ∧ resolveFrom h (path_dirname h p) (n +:+ "/package.json") = Some q
      ∧ packageCache s !! q = Some info_q
      ∧ r = VObj (pick info_q LOCKED_DEPENDENCIES_REQUIRED_PROPERTIES_WITH_DEPS)
      ∧ (String.prefix (path_dirname h p) (path_dirname h q) = true
         ∨ (String.prefix (path_dirname h p) (path_dirname h q) = false
            ∧ String.prefix (packageDir h) (path_dirname h q) = true
            ∧ (isTopLevelDep h (path_dirname h q) = true →
               is_Some (own (topLevelDeps s) n) ∨ inherited n = true))).
Proof.
  intros Hrun p info n r Hinfo Hin.
  pose proof (scan_scanning h depth tt s Hrun) as Hs.
  pose proof (scanning_manifest h depth s Hs) as Hman.
  destruct (scanning_invariants h depth s Hs) as (_ & Hok & _).
  destruct (ok_manifest h s Hman p info Hinfo) as (m & Hm & _).
  destruct (ok_deps h s Hok p info n r Hinfo Hin) as (q & info_q & Hq & Hcq & ->).
  destruct (ok_nested h s Hman p info m n Hinfo Hm)
    as (Hn & Hne & q' & Hq' & Hrule).
  { by apply (list_elem_of_fmap_2 fst) in Hin. }
  rewrite Hq in Hq'. injection Hq' as <-.
  exists m, q, info_q. done.
Qed.

Lemma nested_records_follow_the_rule_witness :
  ∃ s, scan MoreExamples.constructor_host 4 initial = Done (tt, s)
       ∧ (topLevelDeps s).*1 = ["w"; "k"]
       ∧ ∃ m q info_q,
           modules MoreExamples.constructor_host
             !! "/proj/node_modules/w/package.json" = Some m
           ∧ "constructor" ∈ keys (get m "dependencies")
           ∧ "constructor" ≠ "__proto__"
           ∧ resolveFrom MoreExamples.constructor_host
               (path_dirname MoreExamples.constructor_host
                  "/proj/node_modules/w/package.json")
               ("constructor" +:+ "/package.json") = Some q
           ∧ packageCache s !! q = Some info_q
           ∧ MoreExamples.record_constructor
             = VObj (pick info_q LOCKED_DEPENDENCIES_REQUIRED_PROPERTIES_WITH_DEPS)
           ∧ (String.prefix
                (path_dirname MoreExamples.constructor_host
                   "/proj/node_modules/w/package.json")
                (path_dirname MoreExamples.constructor_host q) = true
              ∨ (String.prefix
                   (path_dirname MoreExamples.constructor_host
                      "/proj/node_modules/w/package.json")
                   (path_dirname MoreExamples.constructor_host q) = false
                 ∧ String.prefix (packageDir MoreExamples.constructor_host)
                     (path_dirname MoreExamples.constructor_host q) = true
                 ∧ (isTopLevelDep MoreExamples.constructor_host
                      (path_dirname MoreExamples.constructor_host q) = true →
                    is_Some (own (topLevelDeps s) "constructor")
                    ∨ inherited "constructor" = true))).
Proof.
  eexists. split; [vm_compute; reflexivity|]. split; [reflexivity|].
  eapply (nested_records_follow_the_rule MoreExamples.constructor_host 4).
  - vm_compute. reflexivity.
  - vm_compute. reflexivity.
  - apply list_elem_of_here.
Defined.

(** X14.  The two path tests are tests on the path strings.  [isLocalDep]
    holds exactly when the directory of the dependency starts with the
    characters of the parent's directory (so also for the parent's directory
    itself, and for a sibling directory whose name extends the parent's).
    [isTopLevelDep] holds exactly when the project directory occurs nowhere
    in the directory of the dependency, or the parent of that directory is
    the project's [node_modules]. *)
Theorem path_tests_are_string_tests (h : host) (depPackageDir dir : string) :
  (isLocalDep depPackageDir dir = true ↔ ∃ rest, depPackageDir = dir +:+ rest)
  ∧ (isTopLevelDep h depPackageDir = true ↔
       (∀ before after, depPackageDir ≠ before +:+ packageDir h +:+ after)
       ∨ path_dirname h depPackageDir = packageNodeModules h).
Proof.
  split.
  - rewrite isLocalDep_prefix. apply prefix_app_iff.
  - unfold isTopLevelDep. rewrite orb_true_iff, indexOf_negative.
    by rewrite String.eqb_eq.
Qed.

(** X15.  The scanner returns a tree whenever nothing is missing: on an
    acyclic layout in which the project manifest has both maps, no
    manifest is [null], and every name declared - by the project in
    either map, by an installed package in [dependencies] - resolves to a
    manifest that exists, the scan does not throw; with a recursion bound
    above the number of manifests it returns a tree of PackageRecords. *)
Theorem scan_returns_on_installed_acyclic_layouts (h : host) (depth : nat) :
  acyclic h →
  size (modules h) < depth →
  installed h →
  project_ok h →
  ∃ tree, scanInstalledDependencies h depth = Done tree
          ∧ package_tree tree = true.
Proof.
  intros Hac Hsize Hinst Hproj.
  pose proof (terminates_scan h depth initial Hac Hsize) as Hterm.
  pose proof (no_throw_scan h depth Hinst Hproj) as Hsafe.
  unfold terminates in Hterm.
  destruct (scanInstalledDependencies h depth) as [tree|e|] eqn:Hscan.
  - exists tree. split; [done|]. by eapply scan_package_tree.
  - unfold scanInstalledDependencies in Hscan.
    destruct (scan h depth initial) as [[[] s]|e'|] eqn:Hrun; try done.
    by destruct (Hsafe e').
  - unfold scanInstalledDependencies in Hscan.
    by destruct (scan h depth initial) as [[[] s]|e'|].
Qed.

Lemma scan_returns_on_installed_acyclic_layouts_witness :
  ∃ tree, scanInstalledDependencies Examples.left_pad_host_empty_dev 3
          = Done tree
          ∧ package_tree tree = true.
Proof.
  apply (scan_returns_on_installed_acyclic_layouts
           Examples.left_pad_host_empty_dev 3).
  - exact ExampleFacts.left_pad_acyclic.
  - vm_compute. lia.
  - exact MoreExampleFacts.left_pad_installed.
  - exact MoreExampleFacts.left_pad_project_ok.
Defined.

(** X16.  The filter leaves the scanner's tree as it is: the scanner builds
    its records in the shape that [filterTree] produces - the same fields in
    the same order, at every depth.  So whichever source answers, the tree
    that [getAllDependencies] returns is unchanged by the filter. *)
Theorem returned_trees_are_fixed_by_the_filter (h : host) (depth : nat) :
  (∀ tree,
     scanInstalledDependencies h depth = Done tree →
     filterTree tree = Some tree)
  ∧ (∀ tree,
       getAllDependencies h depth = Done tree → filterTree tree = Some tree).
Proof.
  split; [intros tree; apply (filterTree_scan h depth)|].
  intros tree. unfold getAllDependencies.
  destruct (getNpmLockDependencies h "package-lock.json") as [t| |] eqn:H1;
    cbn [catch]; [intros [= <-]|..|done].
  { apply getNpmLockDependencies_Done in H1 as (c & lock & _ & _ & Hf).
    by apply (proj1 (filterTree_fixed_both _)) in Hf. }
  destruct (getNpmLockDependencies h "npm-shrinkwrap.json") as [t| |] eqn:H2;
    cbn [catch]; [intros [= <-]|..|done].
  { apply getNpmLockDependencies_Done in H2 as (c & lock & _ & _ & Hf).
    by apply (proj1 (filterTree_fixed_both _)) in Hf. }
  destruct (scanInstalledDependencies h depth) as [t| |] eqn:H3;
    cbn [catch]; [intros [= <-]|done..].
  by apply (filterTree_scan h depth).
Qed.

Lemma returned_trees_are_fixed_by_the_filter_witness :
  (∃ tree, scanInstalledDependencies Examples.diamond_host 3 = Done tree
           ∧ filterTree tree = Some tree)
  ∧ (∃ tree, getAllDependencies (Examples.shrinkwrap_host "LOCK") 3 = Done tree
             ∧ filterTree tree = Some tree).
Proof.
  split.
  - eexists. split; [vm_compute; reflexivity|].
    apply (proj1 (returned_trees_are_fixed_by_the_filter
                    Examples.diamond_host 3)).
    vm_compute. reflexivity.
  - eexists. split; [vm_compute; reflexivity|].
    apply (proj2 (returned_trees_are_fixed_by_the_filter
                    (Examples.shrinkwrap_host "LOCK") 3)).
    vm_compute. reflexivity.
Defined.
